(** * Roulette spin orchestration and deterministic ball landing

    Shallow embedding of the ball trajectory engine (class [BallPhysics],
    src/src/button.ts lines 392-953; the line numbers quoted below are
    those of that file), of the orchestrating [MainScene]
    (src/src/mainscene.ts) and of [ROULETTE_CONFIG].

    Numbers.  A TypeScript [number] is an IEEE-754 binary64 value.  The
    geometry is studied over the real numbers ([R], with [Math.PI] read as
    [PI]), the usual idealisation for statements that hold up to rounding;
    [x || 0] is then [x].  Where a statement asks for bit-exact equality,
    the same arithmetic is replayed on binary64 in [Module Binary64].
    The two [while] loops of phase 4 are transcribed once, for either
    arithmetic, with a bound on their iterations ([Module Loop]): over the
    reals they always return, on binary64 they need not.
    Pocket indices are integers ([Z]).

    Collaborators that are not part of the sources (the roulette board,
    the wheel synchroniser, the countdown overlay, the animation
    scheduler) are parameters or are modelled from the specification, and
    say so. *)

From Stdlib Require Import Reals Lra ZArith Lia List Bool Floats.
Set Warnings "-inexact-float".
From Equations Require Import Equations.
Import ListNotations.

Local Open Scope R_scope.

(** ** Configuration (src/config/GameConfig.ts) *)

Module Config.

Record t := {
  pocketCount : Z;
  spinDuration : R;
  ballSpins : R;
  constantWheelSpeed : R;
  autoCountdownDuration : R
}.

End Config.

(** The shipped constants. *)
Definition ROULETTE_CONFIG : Config.t := {|
  Config.pocketCount := 37;
  Config.spinDuration := 15;
  Config.ballSpins := 8;
  Config.constantWheelSpeed := 1 / 2;
  Config.autoCountdownDuration := 15
|}.

(** ** Angle normalisation: the two [while] loops of phase 4 *)

(** The arithmetic the normalisation uses: [+], [-], unary [-], [>],
    [<], [0], [Math.PI] and [2 * Math.PI]. *)
Class Number (A : Type) := {
  n_add : A -> A -> A;
  n_sub : A -> A -> A;
  n_opp : A -> A;
  n_gt : A -> A -> bool;
  n_lt : A -> A -> bool;
  n_zero : A;
  n_PI : A;
  n_two_PI : A
}.

(** Lines 665-674 as they run: each loop makes at most [fuel] turns of
    its body and gives [None] when it would need more. *)
Module Loop.

Section Loop.

Context {A : Type} {number : Number A}.

(** [while (angleDiff > Math.PI) angleDiff -= 2 * Math.PI;] *)
Fixpoint wrapDown (fuel : nat) (angleDiff : A) : option A :=
  if n_gt angleDiff n_PI then
    match fuel with
    | O => None
    | S fuel => wrapDown fuel (n_sub angleDiff n_two_PI)
    end
  else Some angleDiff.

(** [while (angleDiff < -Math.PI) angleDiff += 2 * Math.PI;] *)
Fixpoint wrapUp (fuel : nat) (angleDiff : A) : option A :=
  if n_lt angleDiff (n_opp n_PI) then
    match fuel with
    | O => None
    | S fuel => wrapUp fuel (n_add angleDiff n_two_PI)
    end
  else Some angleDiff.

(** [if (angleDiff > 0) angleDiff -= 2 * Math.PI;] *)
Definition forceCounterClockwise (angleDiff : A) : A :=
  if n_gt angleDiff n_zero then n_sub angleDiff n_two_PI else angleDiff.

(** [let angleDiff = targetBallAngle - initialBallAngle;] and the three
    statements above. *)
Definition phase4AngleDiff (fuel : nat) (initialBallAngle targetBallAngle : A)
  : option A :=
  match wrapDown fuel (n_sub targetBallAngle initialBallAngle) with
  | None => None
  | Some angleDiff =>
    match wrapUp fuel angleDiff with
    | None => None
    | Some angleDiff => Some (forceCounterClockwise angleDiff)
    end
  end.

End Loop.

End Loop.

(** Exact arithmetic. *)
#[global] Instance exactArithmetic : Number R := {|
  n_add := Rplus;
  n_sub := Rminus;
  n_opp := Ropp;
  n_gt := fun x y => if Rgt_dec x y then true else false;
  n_lt := fun x y => if Rlt_dec x y then true else false;
  n_zero := 0;
  n_PI := PI;
  n_two_PI := 2 * PI
|}.

(** *** The loops in exact arithmetic

    Over the reals each loop ends for every input (the number of turns
    left strictly decreases), so its result is a function of the input;
    [wrapDown_returns] and [wrapUp_returns] below say that it is the value
    [Loop.wrapDown] and [Loop.wrapUp] return.  The engine, modelled over
    the reals, uses these functions.  On binary64 the same loops can run
    for ever: see [Module Binary64]. *)

Lemma two_PI_pos : 0 < 2 * PI.
Proof. pose proof PI_RGT_0. lra. Qed.

Lemma up_shift_down (x : R) : up (x - 1) = (up x - 1)%Z.
Proof.
  symmetry. apply tech_up.
  - rewrite minus_IZR. pose proof (archimed x). simpl. lra.
  - rewrite minus_IZR. pose proof (archimed x). simpl. lra.
Qed.

Lemma up_pos (x : R) : 0 < x -> (0 < up x)%Z.
Proof.
  intros Hx. pose proof (archimed x) as [Hu _].
  apply lt_IZR. simpl. lra.
Qed.

(** [while (angleDiff > Math.PI) angleDiff -= 2 * Math.PI;] in exact
    arithmetic. *)
Equations? wrapDown (angleDiff : R) : R
  by wf (Z.to_nat (up (angleDiff / (2 * PI)))) lt :=
  wrapDown angleDiff with Rgt_dec angleDiff PI := {
    | left _ => wrapDown (angleDiff - 2 * PI);
    | right _ => angleDiff }.
Proof.
  pose proof two_PI_pos as H2.
  replace ((angleDiff - 2 * PI) / (2 * PI)) with (angleDiff / (2 * PI) - 1)
    by (field; lra).
  rewrite up_shift_down.
  assert (0 < angleDiff / (2 * PI)) as Hq.
  { apply Rdiv_lt_0_compat; lra. }
  apply up_pos in Hq. lia.
Qed.

(** [while (angleDiff < -Math.PI) angleDiff += 2 * Math.PI;] in exact
    arithmetic. *)
Equations? wrapUp (angleDiff : R) : R
  by wf (Z.to_nat (up (- angleDiff / (2 * PI)))) lt :=
  wrapUp angleDiff with Rlt_dec angleDiff (- PI) := {
    | left _ => wrapUp (angleDiff + 2 * PI);
    | right _ => angleDiff }.
Proof.
  pose proof two_PI_pos as H2.
  replace (- (angleDiff + 2 * PI) / (2 * PI)) with (- angleDiff / (2 * PI) - 1)
    by (field; lra).
  rewrite up_shift_down.
  assert (0 < - angleDiff / (2 * PI)) as Hq.
  { apply Rdiv_lt_0_compat; lra. }
  apply up_pos in Hq. lia.
Qed.

(** [if (angleDiff > 0) angleDiff -= 2 * Math.PI;] *)
Definition forceCounterClockwise (angleDiff : R) : R :=
  if Rgt_dec angleDiff 0 then angleDiff - 2 * PI else angleDiff.

(** The whole delta computation of phase 4, lines 665-674, in exact
    arithmetic. *)
Definition phase4AngleDiff (initialBallAngle targetBallAngle : R) : R :=
  forceCounterClockwise (wrapUp (wrapDown (targetBallAngle - initialBallAngle))).

Arguments wrapDown : simpl never.
Arguments wrapUp : simpl never.
Arguments phase4AngleDiff : simpl never.

(** ** Binary64 replay of the rotation bookkeeping and of the loops *)

Module Binary64.

Local Open Scope float_scope.

Definition Math_PI : float := 0x1.921fb54442d18p+1.

(** The arithmetic of a TypeScript [number]; [x > y] is [y < x]. *)
#[global] Instance binary64 : Number float := {|
  n_add := PrimFloat.add;
  n_sub := PrimFloat.sub;
  n_opp := PrimFloat.opp;
  n_gt := fun x y => PrimFloat.ltb y x;
  n_lt := PrimFloat.ltb;
  n_zero := 0;
  n_PI := Math_PI;
  n_two_PI := 2 * Math_PI
|}.

(** Phase 3, lines 596-598 and 607, at [progress]. *)
Definition phase3Angle (ballSpins progress : float) : float :=
  let phase1And2Rotations := ballSpins * 0.65 in
  let phase3Rotations := ballSpins * 0.25 in
  let startAngle := - (phase1And2Rotations * 2 * Math_PI) in
  startAngle - (phase3Rotations * 2 * Math_PI * progress).

(** Phase 4, lines 648-649. *)
Definition initialBallAngle (ballSpins : float) : float :=
  let phase1To3Rotations := ballSpins * 0.90 in
  - (phase1To3Rotations * 2 * Math_PI).

(** Phase 4, lines 652-661: the target angle for a pocket whose local
    angle is [targetNumberLocalAngle] ([getAngleForNumber] is not part of
    the sources), read at wheel rotation [rotation]. *)
Definition targetBallAngle
  (spinDuration constantWheelSpeed targetNumberLocalAngle rotation : float) : float :=
  let duration := spinDuration * 0.20 in
  let remainingTime := duration in
  let wheelRotationDuringRemainingTime :=
    constantWheelSpeed * remainingTime * 2 * Math_PI in
  let currentWheelRotation := rotation in
  let finalWheelRotation := currentWheelRotation + wheelRotationDuringRemainingTime in
  let targetWorldAngle := targetNumberLocalAngle + finalWheelRotation in
  let topPosition := - Math_PI / 2 in
  targetWorldAngle - topPosition.

(** What phase 4 captures before its tween is created (lines 648-674):
    the angle it starts from, the delta and the target angle; [None] when
    a loop needs more than [fuel] turns. *)
Definition executePhase4_CalculatedLanding (fuel : nat)
  (spinDuration ballSpins constantWheelSpeed targetNumberLocalAngle rotation : float)
  : option (float * float * float) :=
  let initial := initialBallAngle ballSpins in
  let target :=
    targetBallAngle spinDuration constantWheelSpeed targetNumberLocalAngle rotation in
  match Loop.phase4AngleDiff fuel initial target with
  | None => None
  | Some angleDiff => Some (initial, angleDiff, target)
  end.

(** The shipped constants. *)
Definition spinDuration : float := 15.0.
Definition ballSpins : float := 8.
Definition constantWheelSpeed : float := 0.5.
Definition pocketCount : Z := 37.

(** *** Sample inputs *)

Definition ofZ (k : Z) : float :=
  if (k <? 0)%Z then - PrimFloat.of_uint63 (Uint63.of_Z (- k))
  else PrimFloat.of_uint63 (Uint63.of_Z k).

(** [k / 4], exactly. *)
Definition quarter (k : Z) : float := ofZ k / 4.

Definition range (lo : Z) (n : nat) : list Z :=
  map (fun i => (lo + Z.of_nat i)%Z) (seq 0 n).

(** The multiples of a quarter from -100 to 100: angles up to sixteen
    turns either way. *)
Definition quarters : list float := map quarter (range (-400) 801).

(** The loops return within 64 turns each and the delta lies in
    [[-2π, 0]]. *)
Definition deltaNonpositive (current target : float) : bool :=
  match Loop.phase4AngleDiff 64 current target with
  | Some angleDiff => (angleDiff <=? 0) && (- (2 * Math_PI) <=? angleDiff)
  | None => false
  end.

Definition deltaNonpositiveOnGrid : bool :=
  forallb (fun current => forallb (deltaNonpositive current) quarters) quarters.

(** Modelled from the spec: the local angle of pocket [index], evenly
    spaced pockets from offset 0. *)
Definition angleForPocket (index : Z) : float :=
  ofZ index * (2 * Math_PI / ofZ pocketCount).

(** The whole numbers of turns, up to 64 either way. *)
Definition turns : list float := map (fun k => ofZ k * (2 * Math_PI)) (range (-64) 129).

(** [x] is within [1e-9] of a whole number of turns. *)
Definition wholeTurns (x : float) : bool :=
  existsb (fun turn => abs (x - turn) <=? 1e-9) turns.

(** With the shipped constants, for the pocket [index] and the wheel
    rotation [rotation]: phase 4 is set up, its delta is not positive, and
    the angle of its last update, [initialBallAngle + angleDiff * 1], is
    the target angle of the snap up to whole turns. *)
Definition landsOnTarget (index : Z) (rotation : float) : bool :=
  match
    executePhase4_CalculatedLanding 64 spinDuration ballSpins constantWheelSpeed
      (angleForPocket index) rotation
  with
  | Some (initial, angleDiff, target) =>
    (angleDiff <=? 0) && wholeTurns (initial + angleDiff * 1 - target)
  | None => false
  end.

(** Every pocket, at every wheel rotation that is a multiple of a quarter
    from 0 to 100 (sixteen turns). *)
Definition rotations : list float := map quarter (range 0 401).

Definition landsOnTargetOnGrid : bool :=
  forallb (fun index => forallb (landsOnTarget index) rotations) (range 0 37).

(** A wheel rotation of [1e17]. *)
Definition hugeRotation : float := 0x1.6345785d8ap+56.

End Binary64.


(** ** The ball trajectory engine (class [BallPhysics]) *)

Module BallPhysics.

Record Point := { px : R; py : R }.

(** The fields written by [calculateDynamicDimensions]. *)
Record Dimensions := {
  centerX : R;
  centerY : R;
  ballStartRadius : R;
  ballEndRadius : R;
  ballMidRadius : R
}.

(** [calculateDynamicDimensions]: the centre and the two radii come from
    the roulette board, the intermediate radius is derived. *)
Definition calculateDynamicDimensions (center : Point) (startRadius endRadius : R)
  : Dimensions :=
  {| centerX := px center;
     centerY := py center;
     ballStartRadius := startRadius;
     ballEndRadius := endRadius;
     ballMidRadius := startRadius * (75 / 100) |}.

(** What phase 4 computes once, before its tween is created, and what
    its [onUpdate] and [onComplete] closures capture. *)
Record Phase4 := {
  winningIndex : Z;
  initialBallAngle : R;
  angleDiff : R;
  targetBallAngle : R
}.

(** One [onUpdate] call: the new [currentBallAngle], the angle handed to
    [Math.cos]/[Math.sin] for the rendered point, and the point given to
    [ball.position.set]. *)
Record Update := {
  u_currentBallAngle : R;
  u_renderAngle : R;
  u_position : Point
}.

Section Trajectory.

Variable cfg : Config.t.
Variable dim : Dimensions.

(** [RoulleteBoard.getAngleForNumber]; the board class is not part of
    the sources, its angular model is a parameter here. *)
Variable getAngleForNumber : Z -> R.

(** [centerX + radius * cos angle, centerY + radius * sin angle + bounce],
    the point written by the four phase updates. *)
Definition place (radius angle bounceHeight : R) : Point :=
  {| px := centerX dim + radius * cos angle;
     py := centerY dim + radius * sin angle + bounceHeight |}.

(** [centerX + radius * cos angle, centerY + radius * sin angle], the
    point written by the snap and by the two synchronisation tweens. *)
Definition onCircle (radius angle : R) : Point :=
  {| px := centerX dim + radius * cos angle;
     py := centerY dim + radius * sin angle |}.

(** Phase 1, [onUpdate] (lines 508-529). *)
Definition phase1Update (progress : R) : Update :=
  let ballStartAngle := 0 in
  let ballRotations := Config.ballSpins cfg * (3 / 10) in
  let angle := ballStartAngle - ballRotations * 2 * PI * progress in
  let baseRadius := ballStartRadius dim in
  let wobbleIntensity := 3 in
  let wobbleFreq := progress * 25 in
  let randomWobble := sin wobbleFreq * wobbleIntensity in
  let currentRadius := baseRadius + randomWobble in
  let bounceHeight := sin (progress * PI * 8) * 2 in
  {| u_currentBallAngle := angle;
     u_renderAngle := angle;
     u_position := place currentRadius angle bounceHeight |}.

(** Phase 2, [onUpdate] (lines 553-579). *)
Definition phase2Update (progress : R) : Update :=
  let phase1Rotations := Config.ballSpins cfg * (3 / 10) in
  let phase2Rotations := Config.ballSpins cfg * (35 / 100) in
  let startAngle := - (phase1Rotations * 2 * PI) in
  let angle := startAngle - phase2Rotations * 2 * PI * progress in
  let baseRadius := ballStartRadius dim in
  let radiusVariation := 15 in
  let radiusWobble :=
    sin (progress * 40) * radiusVariation * (1 - progress * (3 / 10)) in
  let currentRadius := baseRadius + radiusWobble in
  let bounceIntensity := 8 + progress * 12 in
  let bounceFreq := 12 + progress * 8 in
  let bounceHeight := sin (progress * bounceFreq) * bounceIntensity in
  let erraticMovement := sin (progress * 30) * 5 * progress in
  let finalRadius := currentRadius + erraticMovement in
  {| u_currentBallAngle := angle;
     u_renderAngle := angle;
     u_position := place finalRadius angle bounceHeight |}.

(** The angle of phase 3 at [progress] (lines 596-598 and 607). *)
Definition phase3Angle (progress : R) : R :=
  let phase1And2Rotations := Config.ballSpins cfg * (65 / 100) in
  let phase3Rotations := Config.ballSpins cfg * (25 / 100) in
  let startAngle := - (phase1And2Rotations * 2 * PI) in
  startAngle - phase3Rotations * 2 * PI * progress.

(** Phase 3, [onUpdate] (lines 603-629); [random] is the value returned
    by [Math.random()] in this call. *)
Definition phase3Update (random progress : R) : Update :=
  let angle := phase3Angle progress in
  let radiusStart := ballStartRadius dim in
  let radiusEnd := ballMidRadius dim in
  let baseRadius := radiusStart - (radiusStart - radiusEnd) * progress in
  let bounceIntensity := 15 + progress * 10 in
  let bounceFreq := 8 + progress * 6 in
  let bounceHeight :=
    sin (progress * bounceFreq) * bounceIntensity * (1 - progress * (2 / 10)) in
  let erraticIntensity := 12 * (1 - progress * (5 / 10)) in
  let erraticMovement := sin (progress * 25) * erraticIntensity * random in
  let finalRadius := baseRadius + erraticMovement in
  {| u_currentBallAngle := angle;
     u_renderAngle := angle;
     u_position := place finalRadius angle bounceHeight |}.

(** [easeInOutCubic] (line 750). *)
Definition easeInOutCubic (t : R) : R :=
  if Rlt_dec t (5 / 10) then 4 * t * t * t
  else 1 - (- 2 * t + 2) ^ 3 / 2.

Definition phase4Duration : R := Config.spinDuration cfg * (20 / 100).

(** Phase 4, the computation before the tween (lines 647-683);
    [rotation] is [this.roulette.rotation] as read on line 654. *)
Definition executePhase4_CalculatedLanding (index : Z) (rotation : R) : Phase4 :=
  let duration := phase4Duration in
  let phase1To3Rotations := Config.ballSpins cfg * (90 / 100) in
  let initialBallAngle := - (phase1To3Rotations * 2 * PI) in
  let remainingTime := duration in
  let wheelRotationDuringRemainingTime :=
    Config.constantWheelSpeed cfg * remainingTime * 2 * PI in
  let currentWheelRotation := rotation in
  let finalWheelRotation := currentWheelRotation + wheelRotationDuringRemainingTime in
  let targetNumberLocalAngle := getAngleForNumber index in
  let targetWorldAngle := targetNumberLocalAngle + finalWheelRotation in
  let topPosition := - PI / 2 in
  let targetBallAngle := targetWorldAngle - topPosition in
  {| winningIndex := index;
     initialBallAngle := initialBallAngle;
     angleDiff := phase4AngleDiff initialBallAngle targetBallAngle;
     targetBallAngle := targetBallAngle |}.

(** Phase 4, [onUpdate] (lines 688-721); [current] is
    [this.currentBallAngle] on entry. *)
Definition phase4Update (c : Phase4) (current progress : R) : Update :=
  let interpolatedAngle := initialBallAngle c + angleDiff c * progress in
  let deltaAngle := interpolatedAngle - current in
  let maxDelta := 4 / 100 in
  let clampedDelta := Rmax (- maxDelta) (Rmin maxDelta deltaAngle) in
  let radiusStart := ballMidRadius dim in
  let radiusEnd := ballEndRadius dim in
  let radiusProgress := easeInOutCubic progress in
  let currentRadius := radiusStart - (radiusStart - radiusEnd) * radiusProgress in
  let bounceIntensity := 12 * (1 - progress) ^ 2 in
  let bounceFreq := 5 in
  let bounceHeight := sin (progress * PI * bounceFreq) * bounceIntensity in
  let erraticIntensity := 3 * (1 - progress) ^ 3 in
  let erraticFreq := 8 in
  let erraticMovement := sin (progress * PI * erraticFreq) * erraticIntensity in
  let finalRadius := currentRadius + erraticMovement in
  {| u_currentBallAngle := current + clampedDelta;
     u_renderAngle := interpolatedAngle;
     u_position := place finalRadius interpolatedAngle bounceHeight |}.

(** Phase 4, [onComplete] (lines 724-727): the snap. *)
Definition phase4Complete (c : Phase4) : Update :=
  {| u_currentBallAngle := targetBallAngle c;
     u_renderAngle := targetBallAngle c;
     u_position := onCircle (ballEndRadius dim) (targetBallAngle c) |}.

(** The blended angle of [establishSmoothWheelSync], [onUpdate]
    (lines 775-782); [ballCurrentAngle] is the frozen landing angle and
    [rotation] the wheel rotation read in this call. *)
Definition blendedAngle
  (targetNumberLocalAngle ballCurrentAngle progress rotation : R) : R :=
  let currentWheelRotation := rotation in
  let wheelRelativeAngle := targetNumberLocalAngle + currentWheelRotation in
  ballCurrentAngle * (1 - progress) + wheelRelativeAngle * progress.

(** The angle of [establishPermanentWheelSync], [onUpdate] (lines 821-822). *)
Definition synchronizedAngle (targetNumberLocalAngle rotation : R) : R :=
  targetNumberLocalAngle + rotation.

End Trajectory.

(** *** Engine state

    The animation scheduler (GSAP) is an external collaborator.  Its
    objects are kept as data: the master timeline with its four phase
    tweens, the synchronisation tween, and the pending delayed calls.
    [clock] is the scheduler's time at the last frame.  [sessions],
    [writes], [notified] and [warnings] record what the engine did (most
    recent first): how many spins were started, every
    [ball.position.set] with the spin whose closure made it, every
    callback to [events], every [console.warn]. *)

Inductive Source :=
  ByPhase1 | ByPhase2 | ByPhase3 | ByPhase4 | BySnap | ByBlend | ByLock.

Record Write := { w_session : nat; w_source : Source; w_pos : Point }.

Inductive Notification := BallLanded (index : Z) | SpinComplete (index : Z).

Inductive Warning := InvalidWinningIndex (index : Z).

(** The master timeline of one spin: when it was created, what phase 4
    captured, how many of its phase tweens have finished, and whether
    its own [onComplete] has run. *)
Record Timeline := {
  tl_session : nat;
  tl_start : R;
  tl_phase4 : Phase4;
  tl_done : nat;
  tl_complete : bool
}.

(** [gsap.delayedCall(0.4, () => this.establishSmoothWheelSync(winningIndex))] *)
Record Delayed := { d_session : nat; d_due : R; d_index : Z }.

(** What [ballSyncTween] refers to: the two-second blend, the permanent
    follower, or a tween that has finished. *)
Inductive SyncTween :=
| Blend (session : nat) (index : Z) (start targetNumberLocalAngle ballCurrentAngle : R)
| Lock (session : nat) (index : Z) (targetNumberLocalAngle : R)
| Spent.

Record state := {
  isSpinning : bool;
  animationTimeline : option Timeline;
  ballTween : option nat;
  ballSyncTween : option SyncTween;
  ballFinalAngle : R;
  currentBallAngle : R;
  ballVisible : bool;
  ballPosition : Point;
  clock : R;
  delayedCalls : list Delayed;
  sessions : nat;
  writes : list Write;
  notified : list Notification;
  warnings : list Warning
}.

Definition set_isSpinning (v : bool) (s : state) : state :=
  {| isSpinning := v;
     animationTimeline := animationTimeline s;
     ballTween := ballTween s;
     ballSyncTween := ballSyncTween s;
     ballFinalAngle := ballFinalAngle s;
     currentBallAngle := currentBallAngle s;
     ballVisible := ballVisible s;
     ballPosition := ballPosition s;
     clock := clock s;
     delayedCalls := delayedCalls s;
     sessions := sessions s;
     writes := writes s;
     notified := notified s;
     warnings := warnings s |}.

Definition set_animationTimeline (v : option Timeline) (s : state) : state :=
  {| isSpinning := isSpinning s;
     animationTimeline := v;
     ballTween := ballTween s;
     ballSyncTween := ballSyncTween s;
     ballFinalAngle := ballFinalAngle s;
     currentBallAngle := currentBallAngle s;
     ballVisible := ballVisible s;
     ballPosition := ballPosition s;
     clock := clock s;
     delayedCalls := delayedCalls s;
     sessions := sessions s;
     writes := writes s;
     notified := notified s;
     warnings := warnings s |}.

Definition set_ballTween (v : option nat) (s : state) : state :=
  {| isSpinning := isSpinning s;
     animationTimeline := animationTimeline s;
     ballTween := v;
     ballSyncTween := ballSyncTween s;
     ballFinalAngle := ballFinalAngle s;
     currentBallAngle := currentBallAngle s;
     ballVisible := ballVisible s;
     ballPosition := ballPosition s;
     clock := clock s;
     delayedCalls := delayedCalls s;
     sessions := sessions s;
     writes := writes s;
     notified := notified s;
     warnings := warnings s |}.

Definition set_ballSyncTween (v : option SyncTween) (s : state) : state :=
  {| isSpinning := isSpinning s;
     animationTimeline := animationTimeline s;
     ballTween := ballTween s;
     ballSyncTween := v;
     ballFinalAngle := ballFinalAngle s;
     currentBallAngle := currentBallAngle s;
     ballVisible := ballVisible s;
     ballPosition := ballPosition s;
     clock := clock s;
     delayedCalls := delayedCalls s;
     sessions := sessions s;
     writes := writes s;
     notified := notified s;
     warnings := warnings s |}.

Definition set_ballFinalAngle (v : R) (s : state) : state :=
  {| isSpinning := isSpinning s;
     animationTimeline := animationTimeline s;
     ballTween := ballTween s;
     ballSyncTween := ballSyncTween s;
     ballFinalAngle := v;
     currentBallAngle := currentBallAngle s;
     ballVisible := ballVisible s;
     ballPosition := ballPosition s;
     clock := clock s;
     delayedCalls := delayedCalls s;
     sessions := sessions s;
     writes := writes s;
     notified := notified s;
     warnings := warnings s |}.

Definition set_currentBallAngle (v : R) (s : state) : state :=
  {| isSpinning := isSpinning s;
     animationTimeline := animationTimeline s;
     ballTween := ballTween s;
     ballSyncTween := ballSyncTween s;
     ballFinalAngle := ballFinalAngle s;
     currentBallAngle := v;
     ballVisible := ballVisible s;
     ballPosition := ballPosition s;
     clock := clock s;
     delayedCalls := delayedCalls s;
     sessions := sessions s;
     writes := writes s;
     notified := notified s;
     warnings := warnings s |}.

Definition set_ballVisible (v : bool) (s : state) : state :=
  {| isSpinning := isSpinning s;
     animationTimeline := animationTimeline s;
     ballTween := ballTween s;
     ballSyncTween := ballSyncTween s;
     ballFinalAngle := ballFinalAngle s;
     currentBallAngle := currentBallAngle s;
     ballVisible := v;
     ballPosition := ballPosition s;
     clock := clock s;
     delayedCalls := delayedCalls s;
     sessions := sessions s;
     writes := writes s;
     notified := notified s;
     warnings := warnings s |}.

Definition set_ballPosition (v : Point) (s : state) : state :=
  {| isSpinning := isSpinning s;
     animationTimeline := animationTimeline s;
     ballTween := ballTween s;
     ballSyncTween := ballSyncTween s;
     ballFinalAngle := ballFinalAngle s;
     currentBallAngle := currentBallAngle s;
     ballVisible := ballVisible s;
     ballPosition := v;
     clock := clock s;
     delayedCalls := delayedCalls s;
     sessions := sessions s;
     writes := writes s;
     notified := notified s;
     warnings := warnings s |}.

Definition set_clock (v : R) (s : state) : state :=
  {| isSpinning := isSpinning s;
     animationTimeline := animationTimeline s;
     ballTween := ballTween s;
     ballSyncTween := ballSyncTween s;
     ballFinalAngle := ballFinalAngle s;
     currentBallAngle := currentBallAngle s;
     ballVisible := ballVisible s;
     ballPosition := ballPosition s;
     clock := v;
     delayedCalls := delayedCalls s;
     sessions := sessions s;
     writes := writes s;
     notified := notified s;
     warnings := warnings s |}.

Definition set_delayedCalls (v : list Delayed) (s : state) : state :=
  {| isSpinning := isSpinning s;
     animationTimeline := animationTimeline s;
     ballTween := ballTween s;
     ballSyncTween := ballSyncTween s;
     ballFinalAngle := ballFinalAngle s;
     currentBallAngle := currentBallAngle s;
     ballVisible := ballVisible s;
     ballPosition := ballPosition s;
     clock := clock s;
     delayedCalls := v;
     sessions := sessions s;
     writes := writes s;
     notified := notified s;
     warnings := warnings s |}.

Definition set_sessions (v : nat) (s : state) : state :=
  {| isSpinning := isSpinning s;
     animationTimeline := animationTimeline s;
     ballTween := ballTween s;
     ballSyncTween := ballSyncTween s;
     ballFinalAngle := ballFinalAngle s;
     currentBallAngle := currentBallAngle s;
     ballVisible := ballVisible s;
     ballPosition := ballPosition s;
     clock := clock s;
     delayedCalls := delayedCalls s;
     sessions := v;
     writes := writes s;
     notified := notified s;
     warnings := warnings s |}.

Definition set_writes (v : list Write) (s : state) : state :=
  {| isSpinning := isSpinning s;
     animationTimeline := animationTimeline s;
     ballTween := ballTween s;
     ballSyncTween := ballSyncTween s;
     ballFinalAngle := ballFinalAngle s;
     currentBallAngle := currentBallAngle s;
     ballVisible := ballVisible s;
     ballPosition := ballPosition s;
     clock := clock s;
     delayedCalls := delayedCalls s;
     sessions := sessions s;
     writes := v;
     notified := notified s;
     warnings := warnings s |}.

Definition set_notified (v : list Notification) (s : state) : state :=
  {| isSpinning := isSpinning s;
     animationTimeline := animationTimeline s;
     ballTween := ballTween s;
     ballSyncTween := ballSyncTween s;
     ballFinalAngle := ballFinalAngle s;
     currentBallAngle := currentBallAngle s;
     ballVisible := ballVisible s;
     ballPosition := ballPosition s;
     clock := clock s;
     delayedCalls := delayedCalls s;
     sessions := sessions s;
     writes := writes s;
     notified := v;
     warnings := warnings s |}.

Definition set_warnings (v : list Warning) (s : state) : state :=
  {| isSpinning := isSpinning s;
     animationTimeline := animationTimeline s;
     ballTween := ballTween s;
     ballSyncTween := ballSyncTween s;
     ballFinalAngle := ballFinalAngle s;
     currentBallAngle := currentBallAngle s;
     ballVisible := ballVisible s;
     ballPosition := ballPosition s;
     clock := clock s;
     delayedCalls := delayedCalls s;
     sessions := sessions s;
     writes := writes s;
     notified := notified s;
     warnings := v |}.

Definition Rleb (a b : R) : bool := if Rle_dec a b then true else false.

Section Engine.

Variable cfg : Config.t.
Variable dim : Dimensions.
Variable getAngleForNumber : Z -> R.

(** The easing curve [power2.inOut] of the scheduler, applied to the
    blend weight. *)
Variable power2InOut : R -> R.

(** The constructor: [initializeBall] hides the ball at the outer rim. *)
Definition init : state :=
  {| isSpinning := false;
     animationTimeline := None;
     ballTween := None;
     ballSyncTween := None;
     ballFinalAngle := 0;
     currentBallAngle := 0;
     ballVisible := false;
     ballPosition :=
       {| px := centerX dim + ballStartRadius dim; py := centerY dim |};
     clock := 0;
     delayedCalls := [];
     sessions := 0;
     writes := [];
     notified := [];
     warnings := [] |}.

(** [this.ball.position.set(x, y)] made by a closure of spin [session]. *)
Definition setPosition (session : nat) (src : Source) (p : Point) (s : state)
  : state :=
  set_writes ({| w_session := session; w_source := src; w_pos := p |} :: writes s)
    (set_ballPosition p s).

Definition applyUpdate (session : nat) (src : Source) (u : Update) (s : state)
  : state :=
  setPosition session src (u_position u)
    (set_currentBallAngle (u_currentBallAngle u) s).

(** [stopAllAnimations] (lines 874-897).  The two [killTweensOf] calls
    address tweens whose target is the ball or its position; this class
    creates none (the final bounce animates [ball.scale]), and delayed
    calls are not tweens of the ball, so they stay pending. *)
Definition stopAllAnimations (s : state) : state :=
  set_ballSyncTween None (set_ballTween None (set_animationTimeline None s)).

(** [startSpin] (lines 465-492). *)
Definition startSpin (index : Z) (rotation : R) (s : state) : state :=
  if isSpinning s || (index <? 0)%Z || (index >=? Config.pocketCount cfg)%Z
  then set_warnings (InvalidWinningIndex index :: warnings s) s
  else
    let s := set_ballVisible true (set_isSpinning true s) in
    let s := stopAllAnimations s in
    let s := set_ballFinalAngle 0 (set_currentBallAngle 0 s) in
    let session := S (sessions s) in
    let s := set_sessions session s in
    let c := executePhase4_CalculatedLanding cfg getAngleForNumber index rotation in
    let s :=
      set_animationTimeline
        (Some {| tl_session := session; tl_start := clock s; tl_phase4 := c;
                 tl_done := 0; tl_complete := false |}) s in
    let s := set_ballTween (Some session) s in
    set_ballFinalAngle (targetBallAngle c) s.

(** [establishSmoothWheelSync] (lines 756-797), the part that runs at
    once; the tween it creates replaces [ballSyncTween]. *)
Definition establishSmoothWheelSync (session : nat) (index : Z) (s : state)
  : state :=
  if isSpinning s then s
  else
    let targetNumberLocalAngle := getAngleForNumber index in
    let ballCurrentAngle := ballFinalAngle s in
    set_ballSyncTween
      (Some (Blend session index (clock s) targetNumberLocalAngle ballCurrentAngle)) s.

(** [establishPermanentWheelSync] (lines 802-832); on the early return
    [ballSyncTween] keeps referring to the finished blend. *)
Definition establishPermanentWheelSync (session : nat) (index : Z) (s : state)
  : state :=
  if isSpinning s then set_ballSyncTween (Some Spent) s
  else set_ballSyncTween (Some (Lock session index (getAngleForNumber index))) s.

(** Phase 4, [onComplete] (lines 722-738).  The final bounce animates
    the ball's scale only and is left out. *)
Definition phase4OnComplete (session : nat) (c : Phase4) (s : state) : state :=
  let s := applyUpdate session BySnap (phase4Complete dim c) s in
  let s := set_notified (BallLanded (winningIndex c) :: notified s) s in
  set_delayedCalls
    (delayedCalls s ++
       [{| d_session := session; d_due := clock s + 4 / 10;
           d_index := winningIndex c |}]) s.

(** [onSpinComplete] (lines 902-905). *)
Definition onSpinComplete (index : Z) (s : state) : state :=
  set_notified (SpinComplete index :: notified s) (set_isSpinning false s).

(** *** One frame of the scheduler *)

(** Modelled from the spec: the animation-scheduling primitive is
    outside the sources.  A tween placed at offset [start] with length
    [dur] on the timeline is rendered once the timeline's time [t] has
    reached [start] and the tweens before it have finished, with
    progress [(t - start) / dur] capped at 1; it completes on the frame
    that reaches its end.  [done] counts the finished phase tweens. *)
Definition runPhase (k : nat) (start dur : R)
  (update : R -> state -> state) (complete : state -> state)
  (t : R) (st : state * nat) : state * nat :=
  let (s, done) := st in
  if (S done =? k)%nat && Rleb start t then
    let progress := Rmin 1 ((t - start) / dur) in
    let s1 := update progress s in
    if Rleb (start + dur) t then (complete s1, k) else (s1, done)
  else st.

(** Modelled from the spec: one frame of the master timeline.  The four
    phase tweens sit at the offsets and with the lengths given in
    [executePhase1_FastOuterRim] ... [executePhase4_CalculatedLanding];
    the timeline's own [onComplete] runs on the frame that finishes
    the last of them. *)
Definition tickTimeline (random : R) (s : state) : state :=
  match animationTimeline s with
  | None => s
  | Some tl =>
    if tl_complete tl then s
    else
      let t := clock s - tl_start tl in
      let D := Config.spinDuration cfg in
      let session := tl_session tl in
      let c := tl_phase4 tl in
      let st := (s, tl_done tl) in
      let st :=
        runPhase 1 0 (D * (20 / 100))
          (fun p s => applyUpdate session ByPhase1 (phase1Update cfg dim p) s)
          (fun s => s) t st in
      let st :=
        runPhase 2 (D * (20 / 100)) (D * (30 / 100))
          (fun p s => applyUpdate session ByPhase2 (phase2Update cfg dim p) s)
          (fun s => s) t st in
      let st :=
        runPhase 3 (D * (50 / 100)) (D * (30 / 100))
          (fun p s => applyUpdate session ByPhase3 (phase3Update cfg dim random p) s)
          (fun s => s) t st in
      let st :=
        runPhase 4 (D * (80 / 100)) (D * (20 / 100))
          (fun p s =>
             applyUpdate session ByPhase4
               (phase4Update dim c (currentBallAngle s) p) s)
          (phase4OnComplete session c) t st in
      let (s', done) := st in
      if (done =? 4)%nat then
        onSpinComplete (winningIndex c)
          (set_animationTimeline
             (Some {| tl_session := session; tl_start := tl_start tl;
                      tl_phase4 := c; tl_done := done; tl_complete := true |}) s')
      else
        set_animationTimeline
          (Some {| tl_session := session; tl_start := tl_start tl;
                   tl_phase4 := c; tl_done := done; tl_complete := false |}) s'
  end.

Definition isDue (now : R) (d : Delayed) : bool := Rleb (d_due d) now.

(** Modelled from the spec: the delayed calls whose time has come run,
    oldest first, and are forgotten. *)
Definition fireDelayed (s : state) : state :=
  let due := filter (isDue (clock s)) (delayedCalls s) in
  let pending := filter (fun d => negb (isDue (clock s) d)) (delayedCalls s) in
  fold_left (fun s d => establishSmoothWheelSync (d_session d) (d_index d) s)
    due (set_delayedCalls pending s).

(** The [onUpdate]/[onComplete] closures of the two synchronisation
    tweens (lines 774-793 and 811-828); [rotation] is
    [this.roulette.rotation] in this frame. *)
Definition tickSync (rotation : R) (s : state) : state :=
  match ballSyncTween s with
  | Some (Blend session index start targetNumberLocalAngle ballCurrentAngle) =>
    let progress := power2InOut (Rmin 1 ((clock s - start) / 2)) in
    let currentAngle :=
      blendedAngle targetNumberLocalAngle ballCurrentAngle progress rotation in
    let s1 := setPosition session ByBlend (onCircle dim (ballEndRadius dim) currentAngle) s in
    if Rleb (start + 2) (clock s)
    then establishPermanentWheelSync session index s1
    else s1
  | Some (Lock session index targetNumberLocalAngle) =>
    if isSpinning s then set_ballSyncTween None s
    else
      setPosition session ByLock
        (onCircle dim (ballEndRadius dim)
           (synchronizedAngle targetNumberLocalAngle rotation)) s
  | Some Spent => s
  | None => s
  end.

(** Modelled from the spec: a frame advances the clock by [dt] and
    renders the scheduler's animations in the order they were created:
    delayed calls that are due, the master timeline, the
    synchronisation tween. *)
Definition tick (dt rotation random : R) (s : state) : state :=
  tickSync rotation (tickTimeline random (fireDelayed (set_clock (clock s + dt) s))).

(** What can happen to the engine: its two public operations and a
    frame of the scheduler, with the wheel rotation and the value of
    [Math.random()] of that frame. *)
Inductive event :=
| StartSpin (index : Z) (rotation : R)
| StopAllAnimations
| Tick (dt rotation random : R).

Definition step (s : state) (e : event) : state :=
  match e with
  | StartSpin index rotation => startSpin index rotation s
  | StopAllAnimations => stopAllAnimations s
  | Tick dt rotation random => tick dt rotation random s
  end.

Definition run (es : list event) (s : state) : state := fold_left step es s.

(** Frames move time forward; [Math.random()] is in [0, 1). *)
Definition validEvent (e : event) : Prop :=
  match e with
  | Tick dt _ random => 0 < dt /\ 0 <= random < 1
  | _ => True
  end.

Inductive reachable : state -> Prop :=
| reachable_init : reachable init
| reachable_step s e : reachable s -> validEvent e -> reachable (step s e).

End Engine.

End BallPhysics.

(** ** The countdown overlay (class [GameUI]) *)

Module GameUI.

(** Modelled from the spec: class [GameUI] (src/ui/GameUI.ts) is not
    part of the sources.  Of its countdown only "is one running" is
    kept: [startCountdown] starts one, [stopCountdown] (and completion)
    ends it, [isCountdownRunning] reads the flag. *)
Record state := { countdownRunning : bool }.

Definition startCountdown (s : state) : state := {| countdownRunning := true |}.

Definition stopCountdown (s : state) : state := {| countdownRunning := false |}.

Definition isCountdownRunning (s : state) : bool := countdownRunning s.

End GameUI.

(** ** The orchestrator (class [MainScene], src/mainscene.ts) *)

Module MainScene.

Inductive Warning := CannotStartSpin.

(** The triple handed to [InputController.updateGameState]. *)
Record GameState := {
  gs_isSpinning : bool;
  gs_isCountdownRunning : bool;
  gs_isServerControlled : bool
}.

Record state := {
  isSpinning : bool;
  isServerControlled : bool;
  gameUI : GameUI.state;
  ballPhysics : BallPhysics.state;
  inputController : GameState;
  warnings : list Warning
}.

Definition set_isSpinning (v : bool) (s : state) : state :=
  {| isSpinning := v; isServerControlled := isServerControlled s;
     gameUI := gameUI s; ballPhysics := ballPhysics s;
     inputController := inputController s; warnings := warnings s |}.


Definition set_gameUI (v : GameUI.state) (s : state) : state :=
  {| isSpinning := isSpinning s; isServerControlled := isServerControlled s;
     gameUI := v; ballPhysics := ballPhysics s;
     inputController := inputController s; warnings := warnings s |}.

Definition set_ballPhysics (v : BallPhysics.state) (s : state) : state :=
  {| isSpinning := isSpinning s; isServerControlled := isServerControlled s;
     gameUI := gameUI s; ballPhysics := v;
     inputController := inputController s; warnings := warnings s |}.

Definition set_inputController (v : GameState) (s : state) : state :=
  {| isSpinning := isSpinning s; isServerControlled := isServerControlled s;
     gameUI := gameUI s; ballPhysics := ballPhysics s;
     inputController := v; warnings := warnings s |}.

Definition set_warnings (v : list Warning) (s : state) : state :=
  {| isSpinning := isSpinning s; isServerControlled := isServerControlled s;
     gameUI := gameUI s; ballPhysics := ballPhysics s;
     inputController := inputController s; warnings := v |}.

Section Scene.

Variable cfg : Config.t.
Variable dim : BallPhysics.Dimensions.
Variable getAngleForNumber : Z -> R.

(** The scene as its constructor leaves it, in manual mode. *)
Definition init : state :=
  {| isSpinning := false;
     isServerControlled := false;
     gameUI := {| GameUI.countdownRunning := false |};
     ballPhysics := BallPhysics.init dim;
     inputController :=
       {| gs_isSpinning := false; gs_isCountdownRunning := false;
          gs_isServerControlled := false |};
     warnings := [] |}.

(** [canSpin] (lines 290-292). *)
Definition canSpin (s : state) : bool :=
  negb (isSpinning s) && negb (GameUI.isCountdownRunning (gameUI s)).

(** [updateGameState] (lines 297-303). *)
Definition updateGameState (s : state) : state :=
  set_inputController
    {| gs_isSpinning := isSpinning s;
       gs_isCountdownRunning := GameUI.isCountdownRunning (gameUI s);
       gs_isServerControlled := isServerControlled s |} s.

(** [startSpin] (lines 274-285); [rotation] is the wheel rotation the
    engine reads while it sets the spin up. *)
Definition startSpin (winningIndex : Z) (rotation : R) (s : state) : state :=
  if negb (canSpin s) then set_warnings (CannotStartSpin :: warnings s) s
  else
    let s := set_isSpinning true s in
    let s := updateGameState s in
    set_ballPhysics
      (BallPhysics.startSpin cfg getAngleForNumber winningIndex rotation
         (ballPhysics s)) s.

(** [handleServerSpin] (lines 224-230), for a message with this [index]. *)
Definition handleServerSpin (index : Z) (rotation : R) (s : state) : state :=
  let s := set_gameUI (GameUI.stopCountdown (gameUI s)) s in
  startSpin index rotation s.

(** [handleRoundStart] (lines 207-222). *)
Definition handleRoundStart (s : state) : state :=
  let s :=
    if isSpinning s then
      let s :=
        set_ballPhysics (BallPhysics.stopAllAnimations (ballPhysics s)) s in
      let s := set_isSpinning false s in
      updateGameState s
    else s in
  set_gameUI (GameUI.startCountdown (gameUI s)) s.






(** The public [stopCountdown] (lines 336-338). *)
Definition stopCountdown (s : state) : state :=
  set_gameUI (GameUI.stopCountdown (gameUI s)) s.

End Scene.

End MainScene.

(** ** The graphic button (class [UIGraphicButton], src/button.ts)

    A button is a small state machine over four states.  What it shows is
    the drawing of its background, its opacity and the scale it is set to
    or tweened towards; what it says is the callbacks of its options and
    the calls on [Globals.emitter], kept here in the order they are made.
    The label and the pivot play no part in the interaction and are left
    out; the callbacks are taken not to call back into the button. *)

Module UIGraphicButton.

Inductive ButtonState := normal | hover | down | disabled.

Definition isDisabled (s : ButtonState) : bool :=
  match s with disabled => true | _ => false end.

Definition sameState (a b : ButtonState) : bool :=
  match a, b with
  | normal, normal | hover, hover | down, down | disabled, disabled => true
  | _, _ => false
  end.

(** [Required<ButtonAnimationConfig>] and [GraphicButtonStyle]; a colour
    is a number, an optional key is absent ([None]) or set. *)
Record ButtonAnimationConfig := {
  hoverScale : R;
  downScale : R;
  disabledAlpha : R;
  durationMs : R
}.

Record GraphicButtonStyle := {
  width : R;
  height : R;
  radius : option R;
  fillNormal : Z;
  fillHover : option Z;
  fillDown : option Z;
  fillDisabled : option Z;
  stroke : option Z;
  strokeWidth : option R
}.

(** The objects that are spread over a current value: [None] is a key
    that is not given, so that the current value stays. *)
Module Partial.

Record ButtonAnimationConfig := {
  hoverScale : option R;
  downScale : option R;
  disabledAlpha : option R;
  durationMs : option R
}.

Record GraphicButtonStyle := {
  width : option R;
  height : option R;
  radius : option (option R);
  fillNormal : option Z;
  fillHover : option (option Z);
  fillDown : option (option Z);
  fillDisabled : option (option Z);
  stroke : option (option Z);
  strokeWidth : option (option R)
}.

End Partial.

Definition DefaultAnim : ButtonAnimationConfig :=
  {| hoverScale := 106 / 100; downScale := 96 / 100;
     disabledAlpha := 5 / 10; durationMs := 120 |}.

(** [x ?? y] and one key of [{ ...current, ...given }]. *)
Definition orElse {A} (x : option A) (y : A) : A :=
  match x with Some v => v | None => y end.

Definition spread {A} (current : A) (given : option A) : A := orElse given current.

Definition spreadAnim (current : ButtonAnimationConfig)
  (given : Partial.ButtonAnimationConfig) : ButtonAnimationConfig :=
  {| hoverScale := spread (hoverScale current) (Partial.hoverScale given);
     downScale := spread (downScale current) (Partial.downScale given);
     disabledAlpha := spread (disabledAlpha current) (Partial.disabledAlpha given);
     durationMs := spread (durationMs current) (Partial.durationMs given) |}.

Definition spreadStyle (current : GraphicButtonStyle)
  (given : Partial.GraphicButtonStyle) : GraphicButtonStyle :=
  {| width := spread (width current) (Partial.width given);
     height := spread (height current) (Partial.height given);
     radius := spread (radius current) (Partial.radius given);
     fillNormal := spread (fillNormal current) (Partial.fillNormal given);
     fillHover := spread (fillHover current) (Partial.fillHover given);
     fillDown := spread (fillDown current) (Partial.fillDown given);
     fillDisabled := spread (fillDisabled current) (Partial.fillDisabled given);
     stroke := spread (stroke current) (Partial.stroke given);
     strokeWidth := spread (strokeWidth current) (Partial.strokeWidth given) |}.

(** The calls made on the [Graphics] of the background. *)
Inductive Command :=
| Stroke (color : Z) (lineWidth : R)
| RoundRect (x y w h r : R)
| Fill (color : Z).

Record Tween := { tw_to : R; tw_duration : R }.

Inductive EventMode := eventStatic | eventNone.

Inductive Cursor := cursorPointer | cursorAuto.

Inductive Callback := onClick | onDown | onUp | onOver | onOut.

(** The names passed to [Globals.emitter.Call]. *)
Module Emit.

Inductive name := over | out | down | up | upoutside | click.

End Emit.

Inductive Signal :=
| Invoked (callback : Callback)
| Called (name : Emit.name).

(** [GraphicButtonOptions]: [o_given] tells which callbacks the options
    carry. *)
Record GraphicButtonOptions := {
  o_style : GraphicButtonStyle;
  o_animations : option Partial.ButtonAnimationConfig;
  o_callbacksOnly : option bool;
  o_given : Callback -> bool
}.

Record button := {
  options : GraphicButtonOptions;
  bg : list Command;
  state : ButtonState;
  style : GraphicButtonStyle;
  anim : ButtonAnimationConfig;
  currentTween : option Tween;
  baseScale : R;
  callbacksOnly : bool;
  alpha : R;
  scale : R;
  eventMode : EventMode;
  cursor : Cursor;
  signals : list Signal
}.

Definition set_bg (v : list Command) (b : button) : button :=
  {| options := options b; bg := v; state := state b; style := style b;
     anim := anim b; currentTween := currentTween b; baseScale := baseScale b;
     callbacksOnly := callbacksOnly b; alpha := alpha b; scale := scale b;
     eventMode := eventMode b; cursor := cursor b; signals := signals b |}.

Definition set_state (v : ButtonState) (b : button) : button :=
  {| options := options b; bg := bg b; state := v; style := style b;
     anim := anim b; currentTween := currentTween b; baseScale := baseScale b;
     callbacksOnly := callbacksOnly b; alpha := alpha b; scale := scale b;
     eventMode := eventMode b; cursor := cursor b; signals := signals b |}.

Definition set_style (v : GraphicButtonStyle) (b : button) : button :=
  {| options := options b; bg := bg b; state := state b; style := v;
     anim := anim b; currentTween := currentTween b; baseScale := baseScale b;
     callbacksOnly := callbacksOnly b; alpha := alpha b; scale := scale b;
     eventMode := eventMode b; cursor := cursor b; signals := signals b |}.

Definition set_currentTween (v : option Tween) (b : button) : button :=
  {| options := options b; bg := bg b; state := state b; style := style b;
     anim := anim b; currentTween := v; baseScale := baseScale b;
     callbacksOnly := callbacksOnly b; alpha := alpha b; scale := scale b;
     eventMode := eventMode b; cursor := cursor b; signals := signals b |}.

Definition set_alpha (v : R) (b : button) : button :=
  {| options := options b; bg := bg b; state := state b; style := style b;
     anim := anim b; currentTween := currentTween b; baseScale := baseScale b;
     callbacksOnly := callbacksOnly b; alpha := v; scale := scale b;
     eventMode := eventMode b; cursor := cursor b; signals := signals b |}.

Definition set_scale (v : R) (b : button) : button :=
  {| options := options b; bg := bg b; state := state b; style := style b;
     anim := anim b; currentTween := currentTween b; baseScale := baseScale b;
     callbacksOnly := callbacksOnly b; alpha := alpha b; scale := v;
     eventMode := eventMode b; cursor := cursor b; signals := signals b |}.

Definition set_eventMode (v : EventMode) (b : button) : button :=
  {| options := options b; bg := bg b; state := state b; style := style b;
     anim := anim b; currentTween := currentTween b; baseScale := baseScale b;
     callbacksOnly := callbacksOnly b; alpha := alpha b; scale := scale b;
     eventMode := v; cursor := cursor b; signals := signals b |}.

Definition set_cursor (v : Cursor) (b : button) : button :=
  {| options := options b; bg := bg b; state := state b; style := style b;
     anim := anim b; currentTween := currentTween b; baseScale := baseScale b;
     callbacksOnly := callbacksOnly b; alpha := alpha b; scale := scale b;
     eventMode := eventMode b; cursor := v; signals := signals b |}.

Definition signal (v : Signal) (b : button) : button :=
  {| options := options b; bg := bg b; state := state b; style := style b;
     anim := anim b; currentTween := currentTween b; baseScale := baseScale b;
     callbacksOnly := callbacksOnly b; alpha := alpha b; scale := scale b;
     eventMode := eventMode b; cursor := cursor b; signals := signals b ++ v :: nil |}.

(** [options.onX?.()] and [if (!this.callbacksOnly) Globals.emitter?.Call(name)]. *)
Definition invoke (c : Callback) (b : button) : button :=
  if o_given (options b) c then signal (Invoked c) b else b.

Definition emit (name : Emit.name) (b : button) : button :=
  if callbacksOnly b then b else signal (Called name) b.

(** [getFillColorForState] (lines 335-343). *)
Definition getFillColorForState (b : button) : Z :=
  let s := style b in
  match state b with
  | hover => orElse (fillHover s) (fillNormal s)
  | down => orElse (fillDown s) (orElse (fillHover s) (fillNormal s))
  | disabled => orElse (fillDisabled s) (fillNormal s)
  | normal => fillNormal s
  end.

Definition Rgtb (a b : R) : bool := if Rgt_dec a b then true else false.

(** [redraw] (lines 321-333). *)
Definition redraw (b : button) : button :=
  let s := style b in
  let radius := orElse (radius s) 12 in
  let stroke := orElse (stroke s) 0%Z in
  let strokeWidth := orElse (strokeWidth s) 0 in
  let cleared := nil in
  let stroked :=
    if Rgtb strokeWidth 0 then cleared ++ Stroke stroke strokeWidth :: nil else cleared in
  let shaped := stroked ++ RoundRect 0 0 (width s) (height s) radius :: nil in
  let color := getFillColorForState b in
  set_bg (shaped ++ Fill color :: nil) b.

(** [playScaleTween] (lines 360-374): the tween that was running is
    dropped; the scale is set at once, or left to a new tween. *)
Definition playScaleTween (targetScale : R) (immediate : bool) (b : button) : button :=
  let b := set_currentTween None b in
  if immediate then set_scale targetScale b
  else set_currentTween
         (Some {| tw_to := targetScale; tw_duration := durationMs (anim b) |}) b.

(** [updateVisualsForState] (lines 351-358). *)
Definition updateVisualsForState (immediate : bool) (b : button) : button :=
  let b := redraw b in
  let b := set_alpha (if isDisabled (state b) then disabledAlpha (anim b) else 1) b in
  let target :=
    match state b with
    | down => downScale (anim b)
    | hover => hoverScale (anim b)
    | _ => baseScale b
    end in
  playScaleTween target immediate b.

(** [setState] (lines 345-349). *)
Definition setState (next : ButtonState) (b : button) : button :=
  if sameState (state b) next then b
  else updateVisualsForState false (set_state next b).

(** The six listeners of the constructor (lines 258-292). *)
Definition pointerover (b : button) : button :=
  if isDisabled (state b) then b
  else emit Emit.over (invoke onOver (setState hover b)).

Definition pointerout (b : button) : button :=
  if isDisabled (state b) then b
  else emit Emit.out (invoke onOut (setState normal b)).

Definition pointerdown (b : button) : button :=
  if isDisabled (state b) then b
  else emit Emit.down (invoke onDown (setState down b)).

Definition pointerup (b : button) : button :=
  if isDisabled (state b) then b
  else emit Emit.up (invoke onUp (setState hover b)).

Definition pointerupoutside (b : button) : button :=
  if isDisabled (state b) then b
  else emit Emit.upoutside (invoke onUp (setState normal b)).

Definition pointertap (b : button) : button :=
  if isDisabled (state b) then b
  else emit Emit.click (invoke onClick b).

(** The constructor (lines 237-296): a fresh container is fully opaque at
    scale 1, a fresh [Graphics] is empty. *)
Definition new (o : GraphicButtonOptions) : button :=
  let b :=
    {| options := o;
       bg := nil;
       state := normal;
       style := o_style o;
       anim := spreadAnim DefaultAnim
                 (orElse (o_animations o)
                    {| Partial.hoverScale := None; Partial.downScale := None;
                       Partial.disabledAlpha := None; Partial.durationMs := None |});
       currentTween := None;
       baseScale := 1;
       callbacksOnly := orElse (o_callbacksOnly o) false;
       alpha := 1;
       scale := 1;
       eventMode := eventStatic;
       cursor := cursorPointer;
       signals := nil |} in
  updateVisualsForState true (redraw b).

(** [setEnabled] (lines 298-303). *)
Definition setEnabled (enabled : bool) (b : button) : button :=
  let b := set_state (if enabled then normal else disabled) b in
  let b := set_eventMode (if enabled then eventStatic else eventNone) b in
  let b := set_cursor (if enabled then cursorPointer else cursorAuto) b in
  updateVisualsForState false b.

(** [setStyle] (lines 316-319). *)
Definition setStyle (given : Partial.GraphicButtonStyle) (b : button) : button :=
  redraw (set_style (spreadStyle (style b) given) b).

(** What can happen to a button once it is built. *)
Inductive PointerEvent :=
| Pointerover | Pointerout | Pointerdown | Pointerup | Pointerupoutside | Pointertap.

Definition listener (e : PointerEvent) : button -> button :=
  match e with
  | Pointerover => pointerover
  | Pointerout => pointerout
  | Pointerdown => pointerdown
  | Pointerup => pointerup
  | Pointerupoutside => pointerupoutside
  | Pointertap => pointertap
  end.

Inductive operation :=
| Pointer (e : PointerEvent)
| SetEnabled (enabled : bool)
| SetStyle (given : Partial.GraphicButtonStyle).

Definition perform (b : button) (op : operation) : button :=
  match op with
  | Pointer e => listener e b
  | SetEnabled enabled => setEnabled enabled b
  | SetStyle given => setStyle given b
  end.

Definition run (ops : list operation) (b : button) : button := fold_left perform ops b.

(** The scale the button is at or is being tweened to. *)
Definition scaleGoal (b : button) : R :=
  match currentTween b with
  | Some tw => tw_to tw
  | None => scale b
  end.

Definition scaleFor (b : button) : R :=
  match state b with
  | down => downScale (anim b)
  | hover => hoverScale (anim b)
  | _ => baseScale b
  end.

(** The button shows its state: the picture is the one a redraw would
    give now, opacity and scale are those of the state, and the stage
    delivers pointer events exactly when the button is not disabled. *)
Record shown (b : button) : Prop := {
  shown_bg : bg b = bg (redraw b);
  shown_alpha : alpha b = if isDisabled (state b) then disabledAlpha (anim b) else 1;
  shown_scale : scaleGoal b = scaleFor b;
  shown_eventMode : eventMode b = if isDisabled (state b) then eventNone else eventStatic;
  shown_cursor : cursor b = if isDisabled (state b) then cursorAuto else cursorPointer
}.

End UIGraphicButton.

(** ** Concrete collaborators used by the examples *)

(** Modelled from the spec: [RoulleteBoard.getAngleForNumber] is not part
    of the sources; pockets are evenly spaced around 2π from a fixed
    reference offset. *)
Definition angleForPocket (pocketCount : Z) (offset : R) (index : Z) : R :=
  offset + IZR index * (2 * PI / IZR pocketCount).

(** Modelled from the spec: the scheduler's easing curve for the blend,
    a cubic in-out from 0 to 1. *)
Definition cubicInOut (p : R) : R :=
  if Rlt_dec p (1 / 2) then (2 * p) ^ 3 / 2 else 1 - (2 * (1 - p)) ^ 3 / 2.

(** A board centred on the 1920 x 1080 stage. *)
Definition stageDimensions : BallPhysics.Dimensions :=
  BallPhysics.calculateDynamicDimensions
    {| BallPhysics.px := 960; BallPhysics.py := 540 |} 270 140.

Definition stageAngles : Z -> R := angleForPocket 37 0.

(** * Vocabulary of the statements *)

(** Modelled from the spec: [WheelSynchronizer] is not part of the
    sources; the wheel turns at the constant [constantWheelSpeed]
    (rotations per second), so after [seconds] its rotation has grown by
    that many turns. *)
Definition wheelRotationAfter (cfg : Config.t) (rotation seconds : R) : R :=
  rotation + Config.constantWheelSpeed cfg * seconds * 2 * PI.

(** Modelled from the spec: the four phases take 20, 30, 30 and 20 % of
    the spin, one after the other; phase 4 is the last fifth. *)
Definition phase4Share : R := 20 / 100.

Definition phase4Length (cfg : Config.t) : R := Config.spinDuration cfg * phase4Share.

(** The wheel rotation predicted for the end of phase 4 from the rotation
    at its start: the wheel's own rotation a phase-4 length later. *)
Definition predictedWheelRotation (cfg : Config.t) (rotation : R) : R :=
  wheelRotationAfter cfg rotation (phase4Length cfg).

(** Modelled from the spec: the angle at which the ball sits on pocket
    [index] while the wheel is at [wheelRotation]: the pocket's world
    angle (local angle plus wheel rotation) referred to the top position
    [-π/2]. *)
Definition pocketAtTop (getAngleForNumber : Z -> R) (index : Z) (wheelRotation : R) : R :=
  getAngleForNumber index + wheelRotation - (- PI / 2).

(** The pocket at the predicted wheel rotation. *)
Definition landingAngle (cfg : Config.t) (getAngleForNumber : Z -> R)
  (index : Z) (rotation : R) : R :=
  pocketAtTop getAngleForNumber index (predictedWheelRotation cfg rotation).

(** The timeline a spin accepted in engine state [s] creates. *)
Definition freshTimeline (cfg : Config.t) (getAngleForNumber : Z -> R)
  (index : Z) (rotation : R) (s : BallPhysics.state) : BallPhysics.Timeline :=
  {| BallPhysics.tl_session := S (BallPhysics.sessions s);
     BallPhysics.tl_start := BallPhysics.clock s;
     BallPhysics.tl_phase4 :=
       BallPhysics.executePhase4_CalculatedLanding cfg getAngleForNumber index rotation;
     BallPhysics.tl_done := 0;
     BallPhysics.tl_complete := false |}.

(** The trajectory engine has been started on [index]: it is spinning, its
    timeline is the fresh one for [index], no synchronisation tween is left. *)
Definition engineStarted (cfg : Config.t) (getAngleForNumber : Z -> R)
  (index : Z) (rotation : R) (before after : BallPhysics.state) : Prop :=
  BallPhysics.isSpinning after = true /\
  BallPhysics.animationTimeline after
  = Some (freshTimeline cfg getAngleForNumber index rotation before) /\
  BallPhysics.ballSyncTween after = None.

(** A remote spin message is accepted in scene state [s]: the countdown is
    stopped, the scene is spinning, the engine has been started on the
    server's index. *)
Definition remoteSpinAccepted (cfg : Config.t) (getAngleForNumber : Z -> R)
  (index : Z) (rotation : R) (s : MainScene.state) : Prop :=
  let s' := MainScene.handleServerSpin cfg getAngleForNumber index rotation s in
  GameUI.isCountdownRunning (MainScene.gameUI s') = false /\
  MainScene.isSpinning s' = true /\
  engineStarted cfg getAngleForNumber index rotation
    (MainScene.ballPhysics s) (MainScene.ballPhysics s').

(** A spin request leaves the game state as it was. *)
Definition gameStateUnchanged (s s' : MainScene.state) : Prop :=
  MainScene.isSpinning s' = MainScene.isSpinning s /\
  MainScene.isServerControlled s' = MainScene.isServerControlled s /\
  GameUI.isCountdownRunning (MainScene.gameUI s')
  = GameUI.isCountdownRunning (MainScene.gameUI s).

(** The scene spinning towards pocket 5. *)
Definition sceneSpinningTo5 : MainScene.state :=
  MainScene.startSpin ROULETTE_CONFIG stageAngles 5 0 (MainScene.init stageDimensions).



(** The engine spinning towards pocket 5, just started. *)
Definition engineSpinningTo5 : BallPhysics.state :=
  BallPhysics.startSpin ROULETTE_CONFIG stageAngles 5 0 (BallPhysics.init stageDimensions).

(** The engine after a whole spin to pocket 5: started, then one frame of
    15 s that reaches the end of the spin. *)
Definition engineLandedOn5 : BallPhysics.state :=
  BallPhysics.run ROULETTE_CONFIG stageDimensions stageAngles cubicInOut
    [BallPhysics.StartSpin 5 0; BallPhysics.Tick 15 0 0]
    (BallPhysics.init stageDimensions).

Module Notions.

Import BallPhysics.

Section Notions.

Variable cfg : Config.t.
Variable dim : Dimensions.
Variable getAngleForNumber : Z -> R.
Variable power2InOut : R -> R.

(** Every position update made between [s0] and [s] comes from a spin
    started after spin number [old]. *)
Definition noWritesUpTo (old : nat) (s0 s : state) : Prop :=
  exists new,
    writes s = new ++ writes s0 /\ Forall (fun w => (old < w_session w)%nat) new.

(** Starting a spin in state [s] cancels what came before: the engine is
    started on the new index and, whatever happens next, no position
    update comes from a spin started up to then. *)
Definition cancelsPrevious (s : state) (index : Z) (rotation : R) : Prop :=
  let s' := startSpin cfg getAngleForNumber index rotation s in
  engineStarted cfg getAngleForNumber index rotation s s' /\
  forall es,
    Forall validEvent es ->
    noWritesUpTo (sessions s) s' (run cfg dim getAngleForNumber power2InOut es s').

(** What the closures of spin [session] may change in a frame: they write
    positions, and the landing schedules the hand-off. *)
Definition frame (session : nat) (s s1 : state) : Prop :=
  isSpinning s1 = isSpinning s /\
  animationTimeline s1 = animationTimeline s /\
  ballSyncTween s1 = ballSyncTween s /\
  clock s1 = clock s /\
  sessions s1 = sessions s /\
  (exists new,
      writes s1 = new ++ writes s /\ Forall (fun w => w_session w = session) new) /\
  (exists nd,
      delayedCalls s1 = delayedCalls s ++ nd /\
      Forall (fun d => d_session d = session /\ d_due d = clock s + 4 / 10) nd).

(** The timeline record after a frame. *)
Definition advanced (tl : Timeline) (done : nat) (complete : bool) : Timeline :=
  {| tl_session := tl_session tl; tl_start := tl_start tl;
     tl_phase4 := tl_phase4 tl; tl_done := done; tl_complete := complete |}.

(** The spin a synchronisation tween belongs to. *)
Definition syncSession (o : option SyncTween) : option nat :=
  match o with
  | Some (Blend session _ _ _ _) => Some session
  | Some (Lock session _ _) => Some session
  | Some Spent => None
  | None => None
  end.

(** Pending hand-offs are due at most 0.4 s from now. *)
Definition dueSoon (s : state) : Prop :=
  Forall (fun d => d_due d <= clock s + 4 / 10) (delayedCalls s).

(** After spin number [old] has been replaced: what is live belongs to
    later spins, and a hand-off left over from a spin up to [old] can only
    be pending while the engine spins on a timeline that ends after the
    hand-off is due. *)
Definition fenced (old : nat) (s : state) : Prop :=
  (old < sessions s)%nat /\
  (forall tl, animationTimeline s = Some tl ->
              (old < tl_session tl)%nat /\ (tl_session tl <= sessions s)%nat /\
              (tl_complete tl = false -> (tl_done tl < 4)%nat)) /\
  (forall session, syncSession (ballSyncTween s) = Some session -> (old < session)%nat) /\
  (forall d, In d (delayedCalls s) -> (d_session d <= old)%nat ->
             isSpinning s = true /\
             forall tl, animationTimeline s = Some tl ->
                        tl_complete tl = false /\
                        d_due d < tl_start tl + Config.spinDuration cfg).

(** Two runs see the same events except for the values of [Math.random()]. *)
Definition sameButRandom (e1 e2 : event) : Prop :=
  match e1, e2 with
  | StartSpin index1 rotation1, StartSpin index2 rotation2 =>
    index1 = index2 /\ rotation1 = rotation2
  | StopAllAnimations, StopAllAnimations => True
  | Tick dt1 rotation1 _, Tick dt2 rotation2 _ => dt1 = dt2 /\ rotation1 = rotation2
  | _, _ => False
  end.

(** Two position updates made by the same closure; they write the same
    point unless the closure is the update of phase 3. *)
Definition sameWrite (w1 w2 : Write) : Prop :=
  w_session w1 = w_session w2 /\
  w_source w1 = w_source w2 /\
  (w_source w1 <> ByPhase3 -> w_pos w1 = w_pos w2).

Definition lastWriteBy (s : state) : option Source :=
  match writes s with
  | w :: _ => Some (w_source w)
  | [] => None
  end.

(** Two engine states agree on everything the landing depends on: all
    fields but the ball position are equal (the timeline with the target
    angle and the delta of phase 4, [currentBallAngle], [ballFinalAngle],
    the tweens, the notifications), the position updates were made by the
    same closures and, phase 3 apart, wrote the same points, and the ball
    is at the same point unless phase 3 was the last to move it. *)
Definition agree (s1 s2 : state) : Prop :=
  isSpinning s1 = isSpinning s2 /\
  animationTimeline s1 = animationTimeline s2 /\
  ballTween s1 = ballTween s2 /\
  ballSyncTween s1 = ballSyncTween s2 /\
  ballFinalAngle s1 = ballFinalAngle s2 /\
  currentBallAngle s1 = currentBallAngle s2 /\
  ballVisible s1 = ballVisible s2 /\
  clock s1 = clock s2 /\
  delayedCalls s1 = delayedCalls s2 /\
  sessions s1 = sessions s2 /\
  notified s1 = notified s2 /\
  warnings s1 = warnings s2 /\
  Forall2 sameWrite (writes s1) (writes s2) /\
  (lastWriteBy s1 <> Some ByPhase3 -> ballPosition s1 = ballPosition s2).

End Notions.

End Notions.

(** ** The life of a spin *)

Module Lifecycle.

Import BallPhysics.

Section Lifecycle.

Variable cfg : Config.t.
Variable getAngleForNumber : Z -> R.

(** [s1] is [s] but for where the ball is: the tracked angle, the
    position and the record of the position updates. *)
Definition moved (s s1 : state) : Prop :=
  isSpinning s1 = isSpinning s /\
  animationTimeline s1 = animationTimeline s /\
  ballTween s1 = ballTween s /\
  ballSyncTween s1 = ballSyncTween s /\
  ballFinalAngle s1 = ballFinalAngle s /\
  ballVisible s1 = ballVisible s /\
  clock s1 = clock s /\
  delayedCalls s1 = delayedCalls s /\
  sessions s1 = sessions s /\
  notified s1 = notified s /\
  warnings s1 = warnings s.

(** The notifications of [n] landings, most recent first: each landing
    tells "ball landed" and then "spin complete", for the same pocket of
    the wheel. *)
Inductive landings : list Notification -> nat -> Prop :=
| landings_none : landings [] 0
| landings_more index l n :
    (0 <= index < Config.pocketCount cfg)%Z ->
    landings l n ->
    landings (SpinComplete index :: BallLanded index :: l) (S n).

(** What the engine keeps true of itself: a synchronisation tween lives
    only while the engine is not spinning and is never a finished blend;
    a timeline is live exactly while the engine spins on it, belongs to
    the last spin started, and carries the landing computed for a pocket
    of the wheel, which is also [ballFinalAngle]; the notifications are
    those of whole landings, fewer than the spins started while one is
    running. *)
Definition sound (s : state) : Prop :=
  (isSpinning s = true -> ballSyncTween s = None) /\
  ballSyncTween s <> Some Spent /\
  (forall tl,
      animationTimeline s = Some tl ->
      isSpinning s = negb (tl_complete tl) /\
      (tl_complete tl = false -> (tl_done tl < 4)%nat) /\
      tl_session tl = sessions s /\
      ballFinalAngle s = targetBallAngle (tl_phase4 tl) /\
      exists index rotation,
        (0 <= index < Config.pocketCount cfg)%Z /\
        tl_phase4 tl
        = executePhase4_CalculatedLanding cfg getAngleForNumber index rotation) /\
  exists n,
    landings (notified s) n /\
    (n <= sessions s)%nat /\
    (isSpinning s = true -> (n < sessions s)%nat).

(** A spin interrupted by [stopAllAnimations]: the flag is still set and
    nothing is left to clear it. *)
Definition interrupted (s : state) : Prop :=
  isSpinning s = true /\ animationTimeline s = None /\ ballSyncTween s = None.

(** A frame of the scheduler: its length, the wheel rotation and the
    value of [Math.random()] in it. *)
Record Frame := { f_dt : R; f_rotation : R; f_random : R }.

Definition frameEvent (f : Frame) : event :=
  Tick (f_dt f) (f_rotation f) (f_random f).

(** The time a run of frames takes. *)
Definition elapsed (fs : list Frame) : R :=
  fold_right (fun f seconds => f_dt f + seconds) 0 fs.

(** The hand-off scheduled by the landing of spin [session] at time [now]. *)
Definition handOff (session : nat) (now : R) (index : Z) : Delayed :=
  {| d_session := session; d_due := now + 4 / 10; d_index := index |}.

Variable dim : Dimensions.

(** The last landing notified is that of pocket [index]. *)
Definition lastLanded (s : state) (index : Z) : Prop :=
  exists rest, notified s = SpinComplete index :: BallLanded index :: rest.

(** What the engine keeps true of the hand-off.  While it spins on a
    timeline, every pending hand-off is due before the timeline ends.
    While it does not spin, at most one hand-off is pending; as long as
    one is, no synchronisation tween runs and the ball rests where it
    landed, on the end radius at [ballFinalAngle]; a blend starts from
    [ballFinalAngle] and, like the follower, aims at the pocket of the
    last landing. *)
Definition tidy (s : state) : Prop :=
  (isSpinning s = true ->
   forall tl d,
     animationTimeline s = Some tl -> In d (delayedCalls s) ->
     d_due d < tl_start tl + Config.spinDuration cfg) /\
  (isSpinning s = false ->
   (length (delayedCalls s) <= 1)%nat /\
   (forall d,
       In d (delayedCalls s) ->
       ballSyncTween s = None /\
       ballPosition s = onCircle dim (ballEndRadius dim) (ballFinalAngle s) /\
       lastLanded s (d_index d)) /\
   (forall session index start local frozen,
       ballSyncTween s = Some (Blend session index start local frozen) ->
       local = getAngleForNumber index /\ frozen = ballFinalAngle s /\
       lastLanded s index) /\
   (forall session index local,
       ballSyncTween s = Some (Lock session index local) ->
       local = getAngleForNumber index /\ lastLanded s index)).

End Lifecycle.

End Lifecycle.

(** The engine after the landing on pocket 5 and a frame of 1 s, in which
    the hand-off comes due: the blend has started. *)
Definition engineBlendingTo5 : BallPhysics.state :=
  BallPhysics.run ROULETTE_CONFIG stageDimensions stageAngles cubicInOut
    [BallPhysics.StartSpin 5 0; BallPhysics.Tick 15 0 0; BallPhysics.Tick 1 0 0]
    (BallPhysics.init stageDimensions).


(** ** The graphic button *)

Module Pressing.

Import UIGraphicButton.

(** What a listener says when the button is not disabled: the callback of
    the options, if it is given, then the call on the emitter, unless the
    button is [callbacksOnly]. *)
Definition callbackOf (e : PointerEvent) : Callback :=
  match e with
  | Pointerover => onOver
  | Pointerout => onOut
  | Pointerdown => onDown
  | Pointerup | Pointerupoutside => onUp
  | Pointertap => onClick
  end.

Definition nameOf (e : PointerEvent) : Emit.name :=
  match e with
  | Pointerover => Emit.over
  | Pointerout => Emit.out
  | Pointerdown => Emit.down
  | Pointerup => Emit.up
  | Pointerupoutside => Emit.upoutside
  | Pointertap => Emit.click
  end.

Definition signalsOf (b : button) (c : Callback) (n : Emit.name) : list Signal :=
  (if o_given (options b) c then [Invoked c] else [])
  ++ (if callbacksOnly b then [] else [Called n]).

(** The taps that count: a button is enabled from its construction until
    [setEnabled(false)] and again from [setEnabled(true)]; a tap counts
    when the button is enabled at that moment. *)
Fixpoint countedTaps (enabled : bool) (ops : list operation) : nat :=
  match ops with
  | nil => 0
  | Pointer Pointertap :: rest =>
      (if enabled then 1 else 0) + countedTaps enabled rest
  | SetEnabled flag :: rest => countedTaps flag rest
  | _ :: rest => countedTaps enabled rest
  end.

Definition isClickCall (s : Signal) : bool :=
  match s with
  | Called Emit.click => true
  | _ => false
  end.

Definition isCall (s : Signal) : bool :=
  match s with
  | Called _ => true
  | Invoked _ => false
  end.

(** A button with a style of its own for every state and every callback. *)
Definition blueStyle : GraphicButtonStyle :=
  {| width := 200; height := 60;
     radius := None;
     fillNormal := 255;
     fillHover := Some 0%Z;
     fillDown := None;
     fillDisabled := Some 8421504%Z;
     stroke := None;
     strokeWidth := Some 2 |}.

Definition quietOptions : GraphicButtonOptions :=
  {| o_style := blueStyle;
     o_animations := None;
     o_callbacksOnly := Some true;
     o_given := fun _ => true |}.

Definition loudOptions : GraphicButtonOptions :=
  {| o_style := blueStyle;
     o_animations := None;
     o_callbacksOnly := None;
     o_given := fun _ => false |}.

(** Hover, press, release and tap; then a tap while disabled and a tap
    after enabling again. *)
Definition pressThenToggle : list operation :=
  [Pointer Pointerover;
   Pointer Pointerdown;
   Pointer Pointerup;
   Pointer Pointertap;
   SetEnabled false;
   Pointer Pointertap;
   SetEnabled true;
   Pointer Pointertap].

End Pressing.

(** * Properties *)

(** ** Angle normalisation *)

Lemma wrapDown_step (d : R) : d > PI -> wrapDown d = wrapDown (d - 2 * PI).
Proof.
  intros H. rewrite (wrapDown_equation_1 d).
  destruct (Rgt_dec d PI); simpl; [reflexivity | lra].
Qed.

Lemma wrapDown_stop (d : R) : d <= PI -> wrapDown d = d.
Proof.
  intros H. rewrite (wrapDown_equation_1 d).
  destruct (Rgt_dec d PI); simpl; [lra | reflexivity].
Qed.

Lemma wrapUp_step (d : R) : d < - PI -> wrapUp d = wrapUp (d + 2 * PI).
Proof.
  intros H. rewrite (wrapUp_equation_1 d).
  destruct (Rlt_dec d (- PI)); simpl; [reflexivity | lra].
Qed.

Lemma wrapUp_stop (d : R) : - PI <= d -> wrapUp d = d.
Proof.
  intros H. rewrite (wrapUp_equation_1 d).
  destruct (Rlt_dec d (- PI)); simpl; [lra | reflexivity].
Qed.

(** The first loop leaves a value at most π, a whole number of turns below
    its input. *)
Lemma wrapDown_spec (d : R) :
  wrapDown d <= PI /\ exists k : nat, wrapDown d = d - 2 * INR k * PI.
Proof.
  funelim (wrapDown d).
  - destruct H as [Hle [k Hk]]. split; [exact Hle |].
    exists (S k). rewrite Hk, S_INR. ring.
  - split; [lra |]. exists 0%nat. simpl. ring.
Qed.

(** The second loop leaves a value at least -π, a whole number of turns
    above its input, and does not cross π from below. *)
Lemma wrapUp_spec (d : R) :
  - PI <= wrapUp d /\ (d <= PI -> wrapUp d <= PI) /\
  exists k : nat, wrapUp d = d + 2 * INR k * PI.
Proof.
  funelim (wrapUp d).
  - destruct H as [Hge [Hle [k Hk]]]. pose proof PI_RGT_0. repeat split.
    + exact Hge.
    + intros _. apply Hle. lra.
    + exists (S k). rewrite Hk, S_INR. ring.
  - repeat split; [lra | tauto |]. exists 0%nat. simpl. ring.
Qed.

Lemma cos_turns_down (x : R) (k : nat) : cos (x - 2 * INR k * PI) = cos x.
Proof.
  rewrite <- (cos_period (x - 2 * INR k * PI) k). f_equal. ring.
Qed.

Lemma sin_turns_down (x : R) (k : nat) : sin (x - 2 * INR k * PI) = sin x.
Proof.
  rewrite <- (sin_period (x - 2 * INR k * PI) k). f_equal. ring.
Qed.

(** The delta of phase 4 lies in [[-2π, 0]] and differs from
    [target - initial] by whole turns. *)
Lemma phase4AngleDiff_spec (initial target : R) :
  - (2 * PI) <= phase4AngleDiff initial target <= 0 /\
  exists k m : nat,
    phase4AngleDiff initial target = target - initial - 2 * INR k * PI + 2 * INR m * PI.
Proof.
  unfold phase4AngleDiff, forceCounterClockwise.
  destruct (wrapDown_spec (target - initial)) as [Hd [k Hk]].
  destruct (wrapUp_spec (wrapDown (target - initial))) as [Hge [Hle [m Hm]]].
  specialize (Hle Hd). pose proof PI_RGT_0.
  destruct (Rgt_dec (wrapUp (wrapDown (target - initial))) 0).
  - split; [lra |]. exists (S k), m. rewrite Hm, Hk, S_INR. ring.
  - split; [lra |]. exists k, m. rewrite Hm, Hk. ring.
Qed.

Lemma cos_phase4AngleDiff (initial target : R) :
  cos (initial + phase4AngleDiff initial target) = cos target.
Proof.
  destruct (phase4AngleDiff_spec initial target) as [_ [k [m E]]]. rewrite E.
  replace (initial + (target - initial - 2 * INR k * PI + 2 * INR m * PI))
    with (target - 2 * INR k * PI + 2 * INR m * PI) by ring.
  now rewrite cos_period, cos_turns_down.
Qed.

Lemma sin_phase4AngleDiff (initial target : R) :
  sin (initial + phase4AngleDiff initial target) = sin target.
Proof.
  destruct (phase4AngleDiff_spec initial target) as [_ [k [m E]]]. rewrite E.
  replace (initial + (target - initial - 2 * INR k * PI + 2 * INR m * PI))
    with (target - 2 * INR k * PI + 2 * INR m * PI) by ring.
  now rewrite sin_period, sin_turns_down.
Qed.

(** A value in [(-π, π]] shifted up by whole turns is brought back by the
    first loop. *)
Lemma wrapDown_turns (x : R) (k : nat) :
  - PI < x <= PI -> wrapDown (x + 2 * INR k * PI) = x.
Proof.
  intros Hx. induction k as [|k IH].
  - simpl. rewrite wrapDown_stop by lra. ring.
  - pose proof PI_RGT_0. pose proof (pos_INR k). rewrite S_INR.
    rewrite wrapDown_step by nra.
    transitivity (wrapDown (x + 2 * INR k * PI)); [f_equal; ring | exact IH].
Qed.

(** *** The loops as they run *)

(** In exact arithmetic the first loop returns, whatever its input, and
    [wrapDown] is the value it returns. *)
Lemma wrapDown_returns (d : R) :
  exists fuel, forall more, Loop.wrapDown (fuel + more) d = Some (wrapDown d).
Proof.
  funelim (wrapDown d).
  - destruct H as [fuel Hf]. exists (S fuel). intros more.
    cbn [Nat.add Loop.wrapDown n_gt n_PI n_sub n_two_PI exactArithmetic].
    destruct (Rgt_dec angleDiff PI); [apply Hf | contradiction].
  - exists 0%nat. intros more. destruct more as [| more];
      cbn [Nat.add Loop.wrapDown n_gt n_PI n_sub n_two_PI exactArithmetic];
      destruct (Rgt_dec angleDiff PI); try contradiction; reflexivity.
Qed.

Lemma wrapUp_returns (d : R) :
  exists fuel, forall more, Loop.wrapUp (fuel + more) d = Some (wrapUp d).
Proof.
  funelim (wrapUp d).
  - destruct H as [fuel Hf]. exists (S fuel). intros more.
    cbn [Nat.add Loop.wrapUp n_lt n_PI n_opp n_add n_two_PI exactArithmetic].
    destruct (Rlt_dec angleDiff (- PI)); [apply Hf | contradiction].
  - exists 0%nat. intros more. destruct more as [| more];
      cbn [Nat.add Loop.wrapUp n_lt n_PI n_opp n_add n_two_PI exactArithmetic];
      destruct (Rlt_dec angleDiff (- PI)); try contradiction; reflexivity.
Qed.

Lemma forceCounterClockwise_exact (d : R) :
  Loop.forceCounterClockwise d = forceCounterClockwise d.
Proof.
  unfold Loop.forceCounterClockwise, forceCounterClockwise.
  cbn [n_gt n_zero n_sub n_two_PI exactArithmetic].
  destruct (Rgt_dec d 0); reflexivity.
Qed.

(** In exact arithmetic the whole delta computation returns, and
    [phase4AngleDiff] is the value it returns. *)
Lemma phase4AngleDiff_returns (initial target : R) :
  exists fuel,
    forall more,
      Loop.phase4AngleDiff (fuel + more) initial target
      = Some (phase4AngleDiff initial target).
Proof.
  destruct (wrapDown_returns (target - initial)) as [f1 H1].
  destruct (wrapUp_returns (wrapDown (target - initial))) as [f2 H2].
  exists (f1 + f2)%nat. intros more. unfold Loop.phase4AngleDiff, phase4AngleDiff.
  cbn [n_sub exactArithmetic].
  rewrite <- Nat.add_assoc, H1.
  replace (f1 + (f2 + more))%nat with (f2 + (f1 + more))%nat by lia.
  rewrite H2, forceCounterClockwise_exact. reflexivity.
Qed.

(** A loop whose body no longer changes its variable runs for ever. *)
Lemma wrapDown_absorbed (A : Type) (number : Number A) (x : A) :
  n_gt x n_PI = true -> n_sub x n_two_PI = x ->
  forall fuel, Loop.wrapDown fuel x = None.
Proof.
  intros Hgt Hsub fuel. induction fuel as [| fuel IH]; cbn [Loop.wrapDown]; rewrite Hgt.
  - reflexivity.
  - rewrite Hsub. exact IH.
Qed.

(** C6, the claim on binary64 at the angles 0 and 1e17: the first loop
    subtracts [2 * Math.PI] from [1e17] and gets [1e17] again, so the
    delta computation never returns and there is no delta to be
    non-positive. *)
Lemma phase4AngleDiff_binary64_never_returns :
  ~ exists fuel angleDiff,
      Loop.phase4AngleDiff fuel 0%float Binary64.hugeRotation = Some angleDiff.
Proof.
  intros (fuel & angleDiff & E). unfold Loop.phase4AngleDiff in E.
  rewrite (wrapDown_absorbed float Binary64.binary64) in E.
  - discriminate E.
  - vm_compute. reflexivity.
  - vm_compute. reflexivity.
Qed.

(** C6 (as amended): in exact arithmetic the two loops return for every
    pair of input angles, and the delta (the difference wrapped by the
    loops, then pushed a full turn down when positive) is non-positive
    and not below a full turn; so is the delta captured by
    [executePhase4_CalculatedLanding] for every pocket and wheel rotation.
    On binary64 the loops return with such a delta for every pair of
    angles that are multiples of a quarter between -100 and 100. *)
Theorem phase4AngleDiff_nonpositive_where_the_loops_return :
  (forall current target : R,
      (exists fuel,
          forall more,
            Loop.phase4AngleDiff (fuel + more) current target
            = Some (phase4AngleDiff current target)) /\
      - (2 * PI) <= phase4AngleDiff current target <= 0) /\
  (forall cfg getAngleForNumber index rotation,
      BallPhysics.angleDiff
        (BallPhysics.executePhase4_CalculatedLanding cfg getAngleForNumber index rotation)
      <= 0) /\
  Binary64.deltaNonpositiveOnGrid = true.
Proof.
  split; [| split].
  - intros current target. split; [apply phase4AngleDiff_returns |].
    apply phase4AngleDiff_spec.
  - intros. cbn. apply phase4AngleDiff_spec.
  - vm_compute. reflexivity.
Qed.

(** ** Landing *)

Lemma easeInOutCubic_1 : BallPhysics.easeInOutCubic 1 = 1.
Proof.
  unfold BallPhysics.easeInOutCubic.
  destruct (Rlt_dec 1 (5 / 10)); [lra | field].
Qed.

Lemma targetBallAngle_landingAngle cfg getAngleForNumber index rotation :
  BallPhysics.targetBallAngle
    (BallPhysics.executePhase4_CalculatedLanding cfg getAngleForNumber index rotation)
  = landingAngle cfg getAngleForNumber index rotation.
Proof. reflexivity. Qed.

(** The update of phase 4 at progress 1 writes the point of the end radius
    at the target angle. *)
Lemma phase4Update_at_end dim (c : BallPhysics.Phase4) (current : R) :
  BallPhysics.angleDiff c
  = phase4AngleDiff (BallPhysics.initialBallAngle c) (BallPhysics.targetBallAngle c) ->
  BallPhysics.u_position (BallPhysics.phase4Update dim c current 1)
  = BallPhysics.onCircle dim (BallPhysics.ballEndRadius dim) (BallPhysics.targetBallAngle c).
Proof.
  intros E. unfold BallPhysics.phase4Update, BallPhysics.place, BallPhysics.onCircle.
  cbn [BallPhysics.u_position]. rewrite easeInOutCubic_1, E.
  replace (phase4AngleDiff (BallPhysics.initialBallAngle c) (BallPhysics.targetBallAngle c) * 1)
    with (phase4AngleDiff (BallPhysics.initialBallAngle c) (BallPhysics.targetBallAngle c))
    by ring.
  rewrite cos_phase4AngleDiff, sin_phase4AngleDiff.
  f_equal; ring.
Qed.

(** When the wheel makes a whole number of turns during phases 1 to 3,
    the landing point computed from the rotation read at the start of the
    spin is the landing point computed from the rotation at the start of
    phase 4, and it is where the pocket is when the spin ends. *)
Lemma landing_point_when_wheel_turns_whole cfg dim getAngleForNumber index rotation
  radius (turns : nat) :
  Config.constantWheelSpeed cfg * (Config.spinDuration cfg * (80 / 100)) = INR turns ->
  BallPhysics.onCircle dim radius
    (landingAngle cfg getAngleForNumber index
       (wheelRotationAfter cfg rotation (Config.spinDuration cfg * (80 / 100))))
  = BallPhysics.onCircle dim radius (landingAngle cfg getAngleForNumber index rotation) /\
  BallPhysics.onCircle dim radius
    (pocketAtTop getAngleForNumber index
       (wheelRotationAfter cfg rotation (Config.spinDuration cfg)))
  = BallPhysics.onCircle dim radius (landingAngle cfg getAngleForNumber index rotation).
Proof.
  intros Hturns.
  unfold BallPhysics.onCircle, landingAngle, pocketAtTop, predictedWheelRotation,
    wheelRotationAfter, phase4Length, phase4Share.
  set (x := getAngleForNumber index
            + (rotation
               + Config.constantWheelSpeed cfg * (Config.spinDuration cfg * (20 / 100))
                 * 2 * PI) - - PI / 2).
  split.
  - replace (getAngleForNumber index
             + (rotation
                + Config.constantWheelSpeed cfg * (Config.spinDuration cfg * (80 / 100))
                  * 2 * PI
                + Config.constantWheelSpeed cfg * (Config.spinDuration cfg * (20 / 100))
                  * 2 * PI) - - PI / 2)
      with (x + 2 * INR turns * PI) by (unfold x; rewrite <- Hturns; ring).
    now rewrite cos_period, sin_period.
  - replace (getAngleForNumber index
             + (rotation
                + Config.constantWheelSpeed cfg * Config.spinDuration cfg * 2 * PI)
             - - PI / 2)
      with (x + 2 * INR turns * PI) by (unfold x; rewrite <- Hturns; field).
    now rewrite cos_period, sin_period.
Qed.

(** With the shipped constants the wheel makes six whole turns during
    phases 1 to 3. *)
Lemma shipped_wheel_turns_whole :
  Config.constantWheelSpeed ROULETTE_CONFIG
  * (Config.spinDuration ROULETTE_CONFIG * (80 / 100)) = INR 6.
Proof. simpl. field. Qed.

(** ** Rotation bookkeeping between phases 3 and 4 *)

(** C7, the claim in binary64 at [ballSpins = 3]: the angle phase 3
    reaches at progress 1 and the angle phase 4 starts from are different
    numbers ([===] is false). *)
Lemma phase3_end_binary64_ballSpins_3 :
  PrimFloat.eqb (Binary64.phase3Angle 3 1) (Binary64.initialBallAngle 3) = false.
Proof. vm_compute. reflexivity. Qed.

(** C7 (as amended): in real arithmetic the angle of phase 3 at progress 1
    is the angle phase 4 starts from, for every [ballSpins]; in binary64
    the two are the same number for the shipped [ballSpins = 8]. *)
Theorem phase3_end_is_phase4_start :
  (forall cfg dim getAngleForNumber index rotation random,
      BallPhysics.u_currentBallAngle (BallPhysics.phase3Update cfg dim random 1)
      = BallPhysics.initialBallAngle
          (BallPhysics.executePhase4_CalculatedLanding cfg getAngleForNumber index rotation)) /\
  PrimFloat.eqb (Binary64.phase3Angle 8 1) (Binary64.initialBallAngle 8) = true.
Proof.
  split.
  - intros. cbn. unfold BallPhysics.phase3Angle. field.
  - vm_compute. reflexivity.
Qed.

(** ** Blending *)

(** C8: for every wheel rotation, the blended angle is the frozen landing
    angle at weight 0 and the pocket's local angle plus the wheel rotation
    of that update at weight 1; the frozen angle of the blend that
    [establishSmoothWheelSync] creates is [ballFinalAngle]. *)
Theorem blendedAngle_endpoints :
  (forall pocketLocalAngle frozenLandingAngle rotation,
      BallPhysics.blendedAngle pocketLocalAngle frozenLandingAngle 0 rotation
      = frozenLandingAngle /\
      BallPhysics.blendedAngle pocketLocalAngle frozenLandingAngle 1 rotation
      = pocketLocalAngle + rotation) /\
  (forall getAngleForNumber session index s,
      BallPhysics.isSpinning s = false ->
      BallPhysics.ballSyncTween
        (BallPhysics.establishSmoothWheelSync getAngleForNumber session index s)
      = Some (BallPhysics.Blend session index (BallPhysics.clock s)
                (getAngleForNumber index) (BallPhysics.ballFinalAngle s))).
Proof.
  split.
  - intros. unfold BallPhysics.blendedAngle. split; ring.
  - intros getAngleForNumber session index s Hs.
    unfold BallPhysics.establishSmoothWheelSync. rewrite Hs. reflexivity.
Qed.

(** ** The per-update clamp of phase 4 *)

Lemma PI_gt_3 : 3 < PI.
Proof. pose proof PI2_3_2. lra. Qed.

(** The angle handed to [cos]/[sin] in phase 4 is the linear interpolation. *)
Lemma phase4_render_is_lerp dim (c : BallPhysics.Phase4) (current progress : R) :
  BallPhysics.u_renderAngle (BallPhysics.phase4Update dim c current progress)
  = BallPhysics.initialBallAngle c + BallPhysics.angleDiff c * progress.
Proof. reflexivity. Qed.

(** The point written in phase 4 lies at that angle; [current], the
    tracked angle, does not enter it. *)
Lemma phase4_position_at_render_angle dim (c : BallPhysics.Phase4) (current progress : R) :
  exists radius bounceHeight,
    BallPhysics.u_position (BallPhysics.phase4Update dim c current progress)
    = BallPhysics.place dim radius
        (BallPhysics.initialBallAngle c + BallPhysics.angleDiff c * progress)
        bounceHeight /\
    forall current',
      BallPhysics.u_position (BallPhysics.phase4Update dim c current' progress)
      = BallPhysics.u_position (BallPhysics.phase4Update dim c current progress).
Proof. eexists _, _. split; reflexivity. Qed.

(** What the clamp does bound: the step of the tracked [currentBallAngle]. *)
Lemma phase4_tracked_step_clamped dim (c : BallPhysics.Phase4) (current progress : R) :
  Rabs (BallPhysics.u_currentBallAngle (BallPhysics.phase4Update dim c current progress)
        - current) <= 4 / 100.
Proof.
  cbn [BallPhysics.phase4Update BallPhysics.u_currentBallAngle].
  set (d := BallPhysics.initialBallAngle c + BallPhysics.angleDiff c * progress - current).
  replace (current + Rmax (- (4 / 100)) (Rmin (4 / 100) d) - current)
    with (Rmax (- (4 / 100)) (Rmin (4 / 100) d)) by ring.
  apply Rabs_le.
  unfold Rmax, Rmin.
  destruct (Rle_dec (4 / 100) d); destruct (Rle_dec _ _); lra.
Qed.

(** C5, the code at wheel rotation 11π/10 and pocket 0: the delta is -π;
    between the updates at progress 0 and 1/60 (a frame of 50 ms) the
    rendered angle moves by π/60 > 0.04 while the tracked, clamped
    [currentBallAngle] moves by exactly 0.04. *)
Theorem phase4_render_step_exceeds_clamp :
  let c :=
    BallPhysics.executePhase4_CalculatedLanding ROULETTE_CONFIG stageAngles 0
      (11 * PI / 10) in
  let first :=
    BallPhysics.phase4Update stageDimensions c (BallPhysics.initialBallAngle c) 0 in
  let second :=
    BallPhysics.phase4Update stageDimensions c
      (BallPhysics.u_currentBallAngle first) (1 / 60) in
  BallPhysics.angleDiff c = - PI /\
  BallPhysics.u_renderAngle first - BallPhysics.u_renderAngle second = PI / 60 /\
  4 / 100 < PI / 60 /\
  BallPhysics.u_currentBallAngle first - BallPhysics.u_currentBallAngle second = 4 / 100.
Proof.
  pose proof PI_gt_3 as Hpi.
  assert (BallPhysics.angleDiff
            (BallPhysics.executePhase4_CalculatedLanding ROULETTE_CONFIG stageAngles 0
               (11 * PI / 10)) = - PI) as Hdiff.
  { cbn. unfold phase4AngleDiff, BallPhysics.phase4Duration, stageAngles, angleForPocket.
    cbn.
    match goal with |- context [wrapDown ?x] =>
      replace x with (PI + 2 * INR 9 * PI) by (simpl; field)
    end.
    rewrite wrapDown_turns by lra.
    rewrite wrapUp_stop by lra.
    unfold forceCounterClockwise.
    destruct (Rgt_dec PI 0); lra. }
  intros c first second.
  assert (BallPhysics.angleDiff c = - PI) as Hc by exact Hdiff.
  clearbody c. subst first second.
  unfold BallPhysics.phase4Update.
  cbn [BallPhysics.u_renderAngle BallPhysics.u_currentBallAngle].
  rewrite Hc.
  split; [reflexivity |]. split; [field |]. split; [lra |].
  set (i := BallPhysics.initialBallAngle c).
  assert (Rmax (- (4 / 100)) (Rmin (4 / 100) (i + - PI * 0 - i)) = 0) as ->.
  { unfold Rmax, Rmin.
    destruct (Rle_dec (4 / 100) _); [lra |]. destruct (Rle_dec _ _); lra. }
  assert (Rmax (- (4 / 100)) (Rmin (4 / 100) (i + - PI * (1 / 60) - (i + 0)))
          = - (4 / 100)) as ->.
  { unfold Rmax, Rmin.
    destruct (Rle_dec (4 / 100) _); [lra |]. destruct (Rle_dec _ _); lra. }
  ring.
Qed.

(** ** The orchestrator and the engine's guard *)

Lemma index_in_range cfg index :
  (0 <= index < Config.pocketCount cfg)%Z ->
  ((index <? 0)%Z || (index >=? Config.pocketCount cfg)%Z) = false.
Proof.
  intros [H0 H1]. apply Z.ltb_ge in H0. rewrite H0, Z.geb_leb.
  apply Z.leb_gt in H1. now rewrite H1.
Qed.

Lemma index_out_of_range cfg index :
  (index < 0 \/ Config.pocketCount cfg <= index)%Z ->
  ((index <? 0)%Z || (index >=? Config.pocketCount cfg)%Z) = true.
Proof.
  intros [H | H].
  - apply Z.ltb_lt in H. now rewrite H.
  - rewrite Z.geb_leb. apply Z.leb_le in H. rewrite H. apply orb_true_r.
Qed.

(** The engine accepts a valid index when it is not spinning. *)
Lemma engine_startSpin_accepted cfg getAngleForNumber index rotation s :
  BallPhysics.isSpinning s = false ->
  (0 <= index < Config.pocketCount cfg)%Z ->
  engineStarted cfg getAngleForNumber index rotation s
    (BallPhysics.startSpin cfg getAngleForNumber index rotation s).
Proof.
  intros Hs Hidx. unfold engineStarted, BallPhysics.startSpin.
  rewrite Hs. cbn [orb]. rewrite (index_in_range cfg index Hidx).
  repeat split.
Qed.

(** The engine turns a spin down while it is spinning or when the index is
    out of range: a warning, and nothing else changes. *)
Lemma engine_startSpin_rejected cfg getAngleForNumber index rotation s :
  BallPhysics.isSpinning s = true \/ (index < 0 \/ Config.pocketCount cfg <= index)%Z ->
  BallPhysics.startSpin cfg getAngleForNumber index rotation s
  = BallPhysics.set_warnings
      (BallPhysics.InvalidWinningIndex index :: BallPhysics.warnings s) s.
Proof.
  intros H. unfold BallPhysics.startSpin.
  destruct H as [H | H].
  - now rewrite H.
  - rewrite <- orb_assoc, (index_out_of_range cfg index H), orb_true_r. reflexivity.
Qed.

Lemma scene_startSpin_ready cfg getAngleForNumber index rotation s :
  MainScene.canSpin s = true ->
  MainScene.startSpin cfg getAngleForNumber index rotation s
  = MainScene.set_ballPhysics
      (BallPhysics.startSpin cfg getAngleForNumber index rotation
         (MainScene.ballPhysics s))
      (MainScene.updateGameState (MainScene.set_isSpinning true s)).
Proof. intros H. unfold MainScene.startSpin. rewrite H. reflexivity. Qed.

Lemma scene_startSpin_busy cfg getAngleForNumber index rotation s :
  MainScene.canSpin s = false ->
  MainScene.startSpin cfg getAngleForNumber index rotation s
  = MainScene.set_warnings (MainScene.CannotStartSpin :: MainScene.warnings s) s.
Proof. intros H. unfold MainScene.startSpin. rewrite H. reflexivity. Qed.

Lemma engine_startSpin_sessions cfg getAngleForNumber index rotation s :
  BallPhysics.isSpinning s = false ->
  (0 <= index < Config.pocketCount cfg)%Z ->
  BallPhysics.sessions (BallPhysics.startSpin cfg getAngleForNumber index rotation s)
  = S (BallPhysics.sessions s).
Proof.
  intros Hs Hidx. unfold BallPhysics.startSpin.
  rewrite Hs. cbn [orb]. rewrite (index_in_range cfg index Hidx). reflexivity.
Qed.

Lemma handleServerSpin_busy cfg getAngleForNumber index rotation s :
  MainScene.isSpinning s = true ->
  MainScene.handleServerSpin cfg getAngleForNumber index rotation s
  = MainScene.set_warnings (MainScene.CannotStartSpin :: MainScene.warnings s)
      (MainScene.set_gameUI (GameUI.stopCountdown (MainScene.gameUI s)) s).
Proof.
  intros Hs. unfold MainScene.handleServerSpin.
  rewrite scene_startSpin_busy; [reflexivity |].
  unfold MainScene.canSpin.
  cbn [MainScene.isSpinning MainScene.set_gameUI]. now rewrite Hs.
Qed.

Lemma sceneSpinningTo5_spec :
  MainScene.isSpinning sceneSpinningTo5 = true /\
  BallPhysics.sessions (MainScene.ballPhysics sceneSpinningTo5) = 1%nat.
Proof.
  unfold sceneSpinningTo5. rewrite scene_startSpin_ready by reflexivity.
  cbn [MainScene.isSpinning MainScene.ballPhysics MainScene.set_ballPhysics
       MainScene.updateGameState MainScene.set_inputController MainScene.set_isSpinning].
  split; [reflexivity |].
  rewrite engine_startSpin_sessions; [reflexivity | reflexivity | simpl; lia].
Qed.

(** C3, the claim at a spinning scene: a remote spin to pocket 7 arriving
    while the scene spins towards pocket 5 is not accepted. *)
Lemma remote_spin_while_spinning_not_accepted :
  ~ remoteSpinAccepted ROULETTE_CONFIG stageAngles 7 0 sceneSpinningTo5.
Proof.
  destruct sceneSpinningTo5_spec as [Hspin Hsessions].
  unfold remoteSpinAccepted, engineStarted. intros [_ [_ [_ [Htl _]]]].
  rewrite (handleServerSpin_busy _ _ _ _ _ Hspin) in Htl.
  cbn [MainScene.ballPhysics MainScene.set_warnings MainScene.set_gameUI] in Htl.
  unfold sceneSpinningTo5 in Htl at 1.
  rewrite scene_startSpin_ready in Htl by reflexivity.
  cbn [MainScene.ballPhysics MainScene.set_ballPhysics] in Htl.
  destruct (engine_startSpin_accepted ROULETTE_CONFIG stageAngles 5 0
              (BallPhysics.init stageDimensions)) as [_ [Hold _]];
    [reflexivity | simpl; lia |].
  cbn [MainScene.init MainScene.ballPhysics MainScene.set_isSpinning
       MainScene.updateGameState MainScene.set_inputController] in Htl.
  rewrite Hold in Htl.
  apply (f_equal (fun o => match o with
                           | Some tl => BallPhysics.tl_session tl
                           | None => 0%nat
                           end)) in Htl.
  unfold freshTimeline in Htl. cbn [BallPhysics.tl_session] in Htl.
  rewrite Hsessions in Htl. discriminate Htl.
Qed.

(** C3 (as amended): a remote spin message with a valid index always stops
    the countdown; when neither the scene nor the engine is spinning it is
    accepted; when the scene is spinning the request is turned down with a
    warning and the engine is left as it was. *)
Theorem handleServerSpin_accepted_unless_spinning
  cfg getAngleForNumber index rotation (s : MainScene.state) :
  (0 <= index < Config.pocketCount cfg)%Z ->
  let s' := MainScene.handleServerSpin cfg getAngleForNumber index rotation s in
  GameUI.isCountdownRunning (MainScene.gameUI s') = false /\
  (MainScene.isSpinning s = false ->
   BallPhysics.isSpinning (MainScene.ballPhysics s) = false ->
   remoteSpinAccepted cfg getAngleForNumber index rotation s) /\
  (MainScene.isSpinning s = true ->
   MainScene.isSpinning s' = true /\
   MainScene.ballPhysics s' = MainScene.ballPhysics s /\
   MainScene.warnings s' = MainScene.CannotStartSpin :: MainScene.warnings s).
Proof.
  intros Hidx s'. subst s'. unfold remoteSpinAccepted, MainScene.handleServerSpin.
  split; [| split].
  - unfold MainScene.startSpin. destruct (negb _); reflexivity.
  - intros Hs He.
    rewrite scene_startSpin_ready
      by (unfold MainScene.canSpin; cbn; rewrite Hs; reflexivity).
    cbn. repeat split; try reflexivity; try apply engine_startSpin_accepted; assumption.
  - intros Hs.
    rewrite scene_startSpin_busy
      by (unfold MainScene.canSpin; cbn; rewrite Hs; reflexivity).
    cbn. rewrite Hs. repeat split.
Qed.

Lemma handleServerSpin_accepted_unless_spinning_witness :
  remoteSpinAccepted ROULETTE_CONFIG stageAngles 7 0 (MainScene.init stageDimensions).
Proof.
  apply (handleServerSpin_accepted_unless_spinning ROULETTE_CONFIG stageAngles 7 0
           (MainScene.init stageDimensions)).
  - simpl. lia.
  - reflexivity.
  - reflexivity.
Defined.

(** A slip next to the guard: [stopAllAnimations] leaves the engine's own
    [isSpinning] set, so a remote spin that follows a round start which
    interrupted a spin marks the scene spinning while the engine turns it
    down and nothing is animated. *)
Lemma remote_spin_after_interrupted_spin cfg getAngleForNumber index rotation
  (s : MainScene.state) :
  MainScene.isSpinning s = true ->
  BallPhysics.isSpinning (MainScene.ballPhysics s) = true ->
  MainScene.isSpinning
    (MainScene.handleServerSpin cfg getAngleForNumber index rotation
       (MainScene.handleRoundStart s)) = true /\
  MainScene.ballPhysics
    (MainScene.handleServerSpin cfg getAngleForNumber index rotation
       (MainScene.handleRoundStart s))
  = BallPhysics.set_warnings
      (BallPhysics.InvalidWinningIndex index
         :: BallPhysics.warnings (MainScene.ballPhysics s))
      (BallPhysics.stopAllAnimations (MainScene.ballPhysics s)).
Proof.
  intros Hs He. unfold MainScene.handleRoundStart, MainScene.handleServerSpin.
  rewrite Hs.
  rewrite scene_startSpin_ready by reflexivity.
  cbn [MainScene.isSpinning MainScene.ballPhysics MainScene.set_ballPhysics
       MainScene.set_gameUI MainScene.updateGameState MainScene.set_inputController
       MainScene.set_isSpinning].
  split; [reflexivity |].
  rewrite engine_startSpin_rejected by (left; exact He). reflexivity.
Qed.

(** C4, the code at index 37 on an idle scene: the engine turns the spin
    down with a warning and starts nothing, but the scene has already
    marked itself spinning and told the input controller so; it can no
    longer spin. *)
Theorem out_of_range_spin_marks_scene_spinning :
  let s := MainScene.init stageDimensions in
  let s' := MainScene.handleServerSpin ROULETTE_CONFIG stageAngles 37 0 s in
  MainScene.isSpinning s = false /\
  MainScene.isSpinning s' = true /\
  MainScene.gs_isSpinning (MainScene.inputController s') = true /\
  MainScene.canSpin s' = false /\
  ~ gameStateUnchanged s s' /\
  MainScene.ballPhysics s'
  = BallPhysics.set_warnings [BallPhysics.InvalidWinningIndex 37] (MainScene.ballPhysics s).
Proof.
  cbv zeta. unfold MainScene.handleServerSpin.
  rewrite scene_startSpin_ready by reflexivity.
  rewrite engine_startSpin_rejected by (right; right; simpl; lia).
  repeat split.
  intros [H _]. discriminate H.
Qed.

(** ** The public [spin] operation *)







(** ** A whole spin *)

Lemma Rleb_true (a b : R) : a <= b -> BallPhysics.Rleb a b = true.
Proof. intros H. unfold BallPhysics.Rleb. destruct (Rle_dec a b); [reflexivity | contradiction]. Qed.

(** The state an accepted spin leaves, field by field. *)
Lemma engine_startSpin_state cfg getAngleForNumber index rotation (s : BallPhysics.state) :
  BallPhysics.isSpinning s = false ->
  (0 <= index < Config.pocketCount cfg)%Z ->
  BallPhysics.startSpin cfg getAngleForNumber index rotation s
  = {| BallPhysics.isSpinning := true;
       BallPhysics.animationTimeline :=
         Some (freshTimeline cfg getAngleForNumber index rotation s);
       BallPhysics.ballTween := Some (S (BallPhysics.sessions s));
       BallPhysics.ballSyncTween := None;
       BallPhysics.ballFinalAngle := landingAngle cfg getAngleForNumber index rotation;
       BallPhysics.currentBallAngle := 0;
       BallPhysics.ballVisible := true;
       BallPhysics.ballPosition := BallPhysics.ballPosition s;
       BallPhysics.clock := BallPhysics.clock s;
       BallPhysics.delayedCalls := BallPhysics.delayedCalls s;
       BallPhysics.sessions := S (BallPhysics.sessions s);
       BallPhysics.writes := BallPhysics.writes s;
       BallPhysics.notified := BallPhysics.notified s;
       BallPhysics.warnings := BallPhysics.warnings s |}.
Proof.
  intros Hidle Hidx. unfold BallPhysics.startSpin. rewrite Hidle. cbn [orb].
  rewrite (index_in_range cfg index Hidx). reflexivity.
Qed.

(** End to end: a spin accepted by an engine with no pending hand-off, then
    one frame that reaches the end of the spin: every phase renders its
    last update, the ball is snapped on the landing point, the engine
    stops spinning, and "ball landed" then "spin complete" are notified. *)
Lemma spin_runs_to_landing cfg dim getAngleForNumber power2InOut
  index rotation dt rotation' random (s : BallPhysics.state) :
  BallPhysics.isSpinning s = false ->
  BallPhysics.delayedCalls s = [] ->
  (0 <= index < Config.pocketCount cfg)%Z ->
  0 < Config.spinDuration cfg <= dt ->
  let s' :=
    BallPhysics.tick cfg dim getAngleForNumber power2InOut dt rotation' random
      (BallPhysics.startSpin cfg getAngleForNumber index rotation s) in
  BallPhysics.ballPosition s'
  = BallPhysics.onCircle dim (BallPhysics.ballEndRadius dim)
      (landingAngle cfg getAngleForNumber index rotation) /\
  BallPhysics.currentBallAngle s' = landingAngle cfg getAngleForNumber index rotation /\
  BallPhysics.isSpinning s' = false /\
  BallPhysics.notified s'
  = BallPhysics.SpinComplete index :: BallPhysics.BallLanded index :: BallPhysics.notified s.
Proof.
  intros Hidle Hnone Hidx [Hpos Hdt]. cbv zeta.
  rewrite (engine_startSpin_state cfg getAngleForNumber index rotation s Hidle Hidx).
  rewrite Hnone.
  unfold BallPhysics.tick, BallPhysics.fireDelayed. cbn.
  unfold BallPhysics.tickTimeline. cbn.
  set (D := Config.spinDuration cfg) in *.
  set (t := BallPhysics.clock s + dt - BallPhysics.clock s).
  assert (D <= t) as Ht by (unfold t; lra).
  unfold BallPhysics.runPhase. cbn.
  rewrite !Rleb_true by lra. cbn.
  repeat split.
Qed.

(** ** Spin sessions *)

Module Sessions.

Import BallPhysics Notions.

Section Sessions.

Variable cfg : Config.t.
Variable dim : Dimensions.
Variable getAngleForNumber : Z -> R.
Variable power2InOut : R -> R.

(** The delay of the synchronisation hand-off is shorter than a spin. *)
Hypothesis delay_lt_spin : 4 / 10 < Config.spinDuration cfg.

Lemma frame_refl session s : frame session s s.
Proof.
  repeat split; try reflexivity.
  - exists []. split; [reflexivity | constructor].
  - exists []. split; [now rewrite app_nil_r | constructor].
Qed.

Lemma frame_trans session s s1 s2 :
  frame session s s1 -> frame session s1 s2 -> frame session s s2.
Proof.
  intros (A1 & A2 & A3 & A4 & A5 & (n1 & W1 & F1) & (d1 & D1 & G1))
         (B1 & B2 & B3 & B4 & B5 & (n2 & W2 & F2) & (d2 & D2 & G2)).
  repeat split; try congruence.
  - exists (n2 ++ n1). split.
    + rewrite W2, W1. now rewrite app_assoc.
    + apply Forall_app. split; assumption.
  - exists (d1 ++ d2). split.
    + rewrite D2, D1. now rewrite app_assoc.
    + apply Forall_app. split; [assumption |].
      rewrite A4 in G2. exact G2.
Qed.

Lemma frame_applyUpdate session src u s :
  frame session s (applyUpdate session src u s).
Proof.
  repeat split; try reflexivity.
  - eexists [_]. split; [reflexivity |]. constructor; [reflexivity | constructor].
  - exists []. split; [cbn; now rewrite app_nil_r | constructor].
Qed.

Lemma frame_phase4OnComplete session c s :
  frame session s (phase4OnComplete dim session c s).
Proof.
  repeat split; try reflexivity.
  - eexists [_]. split; [reflexivity |]. constructor; [reflexivity | constructor].
  - eexists [_]. split; [reflexivity |]. constructor; [| constructor].
    split; reflexivity.
Qed.

(** A phase tween either leaves the count of finished phases alone or, on
    the frame that reaches its end, makes it its own number. *)
Lemma runPhase_frame session k start dur update complete t s done :
  (forall p s, frame session s (update p s)) ->
  (forall s, frame session s (complete s)) ->
  frame session s (fst (runPhase k start dur update complete t (s, done))) /\
  (snd (runPhase k start dur update complete t (s, done)) = done \/
   snd (runPhase k start dur update complete t (s, done)) = k /\
   S done = k /\ start + dur <= t).
Proof.
  intros Hu Hc. unfold runPhase.
  destruct (Nat.eqb_spec (S done) k) as [Hk | Hk]; cbn [andb].
  - destruct (Rleb start t); cbn [fst snd].
    + unfold Rleb. destruct (Rle_dec (start + dur) t) as [Hend | Hend]; cbn [fst snd].
      * split; [| right; auto].
        eapply frame_trans; [apply Hu | apply Hc].
      * split; [apply Hu | left; reflexivity].
    + split; [apply frame_refl | left; reflexivity].
  - split; [apply frame_refl | left; reflexivity].
Qed.

(** One frame of a running timeline: its closures act within [frame]; if
    the frame finishes the last phase, the timeline's end has been
    reached and [onSpinComplete] runs. *)
Lemma tickTimeline_running random s tl :
  animationTimeline s = Some tl ->
  tl_complete tl = false ->
  exists s1 done,
    frame (tl_session tl) s s1 /\
    (done = tl_done tl \/ (tl_done tl < done <= 4)%nat) /\
    (done = 4%nat -> (tl_done tl < 4)%nat ->
     tl_start tl + Config.spinDuration cfg <= clock s) /\
    tickTimeline cfg dim random s
    = if (done =? 4)%nat
      then onSpinComplete (winningIndex (tl_phase4 tl))
             (set_animationTimeline (Some (advanced tl done true)) s1)
      else set_animationTimeline (Some (advanced tl done false)) s1.
Proof.
  intros Htl Hrun. unfold tickTimeline. rewrite Htl, Hrun.
  set (D := Config.spinDuration cfg).
  set (t := clock s - tl_start tl).
  set (session := tl_session tl).
  set (c := tl_phase4 tl).
  set (u1 := fun p s => applyUpdate session ByPhase1 (phase1Update cfg dim p) s).
  set (u2 := fun p s => applyUpdate session ByPhase2 (phase2Update cfg dim p) s).
  set (u3 := fun p s => applyUpdate session ByPhase3 (phase3Update cfg dim random p) s).
  set (u4 := fun p s =>
               applyUpdate session ByPhase4 (phase4Update dim c (currentBallAngle s) p) s).
  set (idle := fun s : state => s).
  assert (forall p s, frame session s (u1 p s)) as F1 by (intros; apply frame_applyUpdate).
  assert (forall p s, frame session s (u2 p s)) as F2 by (intros; apply frame_applyUpdate).
  assert (forall p s, frame session s (u3 p s)) as F3 by (intros; apply frame_applyUpdate).
  assert (forall p s, frame session s (u4 p s)) as F4 by (intros; apply frame_applyUpdate).
  assert (forall s, frame session s (idle s)) as Fi by (intros; apply frame_refl).
  pose proof (frame_phase4OnComplete session c) as Fc.
  destruct (runPhase_frame session 1 0 (D * (20 / 100)) u1 idle t s (tl_done tl) F1 Fi)
    as [G1 K1].
  destruct (runPhase 1 0 (D * (20 / 100)) u1 idle t (s, tl_done tl)) as [s1 d1].
  destruct (runPhase_frame session 2 (D * (20 / 100)) (D * (30 / 100)) u2 idle t s1 d1 F2 Fi)
    as [G2 K2].
  destruct (runPhase 2 (D * (20 / 100)) (D * (30 / 100)) u2 idle t (s1, d1)) as [s2 d2].
  destruct (runPhase_frame session 3 (D * (50 / 100)) (D * (30 / 100)) u3 idle t s2 d2 F3 Fi)
    as [G3 K3].
  destruct (runPhase 3 (D * (50 / 100)) (D * (30 / 100)) u3 idle t (s2, d2)) as [s3 d3].
  destruct (runPhase_frame session 4 (D * (80 / 100)) (D * (20 / 100)) u4
              (phase4OnComplete dim session c) t s3 d3 F4 Fc) as [G4 K4].
  destruct (runPhase 4 (D * (80 / 100)) (D * (20 / 100)) u4
              (phase4OnComplete dim session c) t (s3, d3)) as [s4 d4].
  cbn [fst snd] in *.
  exists s4, d4. split; [| split; [| split]].
  - eapply frame_trans; [| exact G4].
    eapply frame_trans; [| exact G3].
    eapply frame_trans; [exact G1 | exact G2].
  - lia.
  - intros E4 Hlt. subst t.
    destruct K4 as [K4 | (_ & _ & Hend)]; [| lra].
    destruct K3 as [K3 | (K3 & _ & _)]; [| lia].
    destruct K2 as [K2 | (K2 & _ & _)]; [| lia].
    destruct K1 as [K1 | (K1 & _ & _)]; lia.
  - reflexivity.
Qed.

(** Firing the due hand-offs touches [ballSyncTween] and the list of
    pending calls only; a blend is created only when the engine is not
    spinning, for one of the due calls. *)
Lemma fireDelayed_fold (l : list Delayed) (s : state) :
  let s1 :=
    fold_left
      (fun s d => establishSmoothWheelSync getAngleForNumber (d_session d) (d_index d) s)
      l s in
  isSpinning s1 = isSpinning s /\
  animationTimeline s1 = animationTimeline s /\
  clock s1 = clock s /\
  sessions s1 = sessions s /\
  writes s1 = writes s /\
  delayedCalls s1 = delayedCalls s /\
  (ballSyncTween s1 = ballSyncTween s \/
   isSpinning s = false /\
   exists d, In d l /\ syncSession (ballSyncTween s1) = Some (d_session d)).
Proof.
  revert s. induction l as [| d l IH]; intros s; cbn [fold_left].
  - repeat split; try reflexivity. left; reflexivity.
  - specialize (IH (establishSmoothWheelSync getAngleForNumber (d_session d) (d_index d) s)).
    cbv zeta in IH. cbv zeta.
    set (s1 := fold_left _ l _) in *.
    destruct IH as (I1 & I2 & I3 & I4 & I5 & I6 & I7).
    unfold establishSmoothWheelSync in I1, I2, I3, I4, I5, I6, I7.
    assert (isSpinning s = true \/ isSpinning s = false) as [Hspin | Hspin]
      by (destruct (isSpinning s); auto);
      rewrite Hspin in I1, I2, I3, I4, I5, I6, I7.
    + repeat split; try congruence.
      destruct I7 as [I7 | (I7 & _)]; [left; exact I7 | congruence].
    + cbn in I1, I2, I3, I4, I5, I6.
      repeat split; try congruence. right. split; [exact Hspin |].
      destruct I7 as [I7 | (_ & d' & Hin & Hd')].
      * exists d. split; [left; reflexivity |]. rewrite I7. reflexivity.
      * exists d'. split; [right; exact Hin | exact Hd'].
Qed.

Lemma fireDelayed_spec (s : state) :
  let s1 := fireDelayed getAngleForNumber s in
  isSpinning s1 = isSpinning s /\
  animationTimeline s1 = animationTimeline s /\
  clock s1 = clock s /\
  sessions s1 = sessions s /\
  writes s1 = writes s /\
  delayedCalls s1 = filter (fun d => negb (isDue (clock s) d)) (delayedCalls s) /\
  (ballSyncTween s1 = ballSyncTween s \/
   isSpinning s = false /\
   exists d, In d (delayedCalls s) /\ syncSession (ballSyncTween s1) = Some (d_session d)).
Proof.
  unfold fireDelayed.
  destruct (fireDelayed_fold (filter (isDue (clock s)) (delayedCalls s))
              (set_delayedCalls
                 (filter (fun d => negb (isDue (clock s) d)) (delayedCalls s)) s))
    as (I1 & I2 & I3 & I4 & I5 & I6 & I7).
  cbn in I1, I2, I3, I4, I5, I6, I7. cbv zeta.
  repeat split; try assumption.
  destruct I7 as [I7 | (I7 & d & Hin & Hd)]; [left; exact I7 | right].
  split; [exact I7 |]. exists d. split; [| exact Hd].
  apply filter_In in Hin. tauto.
Qed.

(** A frame of the synchronisation tween: positions are written in the
    name of the tween's spin, and the tween stays with that spin or ends. *)
Lemma tickSync_spec rotation (s : state) :
  let s1 := tickSync dim getAngleForNumber power2InOut rotation s in
  isSpinning s1 = isSpinning s /\
  animationTimeline s1 = animationTimeline s /\
  clock s1 = clock s /\
  sessions s1 = sessions s /\
  delayedCalls s1 = delayedCalls s /\
  (exists new,
      writes s1 = new ++ writes s /\
      Forall (fun w => syncSession (ballSyncTween s) = Some (w_session w)) new) /\
  (syncSession (ballSyncTween s1) = None \/
   syncSession (ballSyncTween s1) = syncSession (ballSyncTween s)).
Proof.
  unfold tickSync.
  destruct (ballSyncTween s) as [[session index start local frozen | session index local |] |]
    eqn:Hsync.
  - unfold establishPermanentWheelSync.
    destruct (Rleb (start + 2) (clock s)); [destruct (isSpinning s) eqn:Hspin |];
      cbn; rewrite ?Hspin, ?Hsync; repeat split; try reflexivity;
      try (eexists [_]; split; [reflexivity | repeat constructor]); auto.
  - destruct (isSpinning s) eqn:Hspin; cbn; rewrite ?Hspin, ?Hsync;
      repeat split; try reflexivity;
      try (exists []; split; [reflexivity | constructor]);
      try (eexists [_]; split; [reflexivity | repeat constructor]); auto.
  - cbn. rewrite Hsync. repeat split; try reflexivity; auto.
    exists []. split; [reflexivity | constructor].
  - cbn. rewrite Hsync. repeat split; try reflexivity; auto.
    exists []. split; [reflexivity | constructor].
Qed.

(** One frame of the timeline, field by field. *)
Lemma tickTimeline_summary random (s : state) :
  let s2 := tickTimeline cfg dim random s in
  clock s2 = clock s /\
  sessions s2 = sessions s /\
  ballSyncTween s2 = ballSyncTween s /\
  (s2 = s /\
   (animationTimeline s = None \/
    exists tl, animationTimeline s = Some tl /\ tl_complete tl = true)
   \/
   exists tl done new nd,
     animationTimeline s = Some tl /\ tl_complete tl = false /\
     writes s2 = new ++ writes s /\
     Forall (fun w => w_session w = tl_session tl) new /\
     delayedCalls s2 = delayedCalls s ++ nd /\
     Forall (fun d => d_session d = tl_session tl /\ d_due d = clock s + 4 / 10) nd /\
     (done = tl_done tl \/ (tl_done tl < done <= 4)%nat) /\
     (done = 4%nat /\
      ((tl_done tl < 4)%nat -> tl_start tl + Config.spinDuration cfg <= clock s) /\
      isSpinning s2 = false /\
      animationTimeline s2 = Some (advanced tl 4 true)
      \/
      done <> 4%nat /\
      isSpinning s2 = isSpinning s /\
      animationTimeline s2 = Some (advanced tl done false))).
Proof.
  cbv zeta.
  destruct (animationTimeline s) as [tl |] eqn:Htl.
  2:{ unfold tickTimeline. rewrite Htl. repeat split. left. split; auto. }
  destruct (tl_complete tl) eqn:Hc.
  { unfold tickTimeline. rewrite Htl, Hc. repeat split. left. split; eauto. }
  destruct (tickTimeline_running random s tl Htl Hc)
    as (s1 & done & (A1 & A2 & A3 & A4 & A5 & (new & W & FW) & (nd & DC & FD))
        & Hdone & Hend & E).
  rewrite E.
  destruct (Nat.eqb_spec done 4) as [H4 | H4].
  - cbn. repeat split; try assumption.
    right. exists tl, done, new, nd. repeat split; try assumption.
    left. subst done. repeat split. intros Hlt. now apply Hend.
  - cbn. repeat split; try assumption.
    right. exists tl, done, new, nd. repeat split; try assumption.
    right. repeat split; assumption.
Qed.

Lemma startSpin_cases index rotation (s : state) :
  let s' := startSpin cfg getAngleForNumber index rotation s in
  clock s' = clock s /\
  delayedCalls s' = delayedCalls s /\
  writes s' = writes s /\
  (s' = set_warnings (InvalidWinningIndex index :: warnings s) s
   \/
   isSpinning s = false /\
   isSpinning s' = true /\
   sessions s' = S (sessions s) /\
   animationTimeline s' = Some (freshTimeline cfg getAngleForNumber index rotation s) /\
   ballSyncTween s' = None).
Proof.
  cbv zeta. unfold startSpin.
  destruct (isSpinning s) eqn:Hs; cbn [orb].
  - repeat split. left. reflexivity.
  - destruct ((index <? 0)%Z || (index >=? Config.pocketCount cfg)%Z).
    + repeat split. left. reflexivity.
    + repeat split. right. repeat split.
Qed.

Lemma dueSoon_step (s : state) (e : event) :
  validEvent e -> dueSoon s ->
  dueSoon (step cfg dim getAngleForNumber power2InOut s e).
Proof.
  unfold dueSoon. intros Hv Hs. destruct e as [index rotation | | dt rotation random].
  - cbn [step].
    destruct (startSpin_cases index rotation s) as (C & D & _). now rewrite C, D.
  - exact Hs.
  - cbn [step]. unfold tick. destruct Hv as [Hdt _].
    set (s0 := set_clock (clock s + dt) s).
    destruct (fireDelayed_spec s0) as (_ & _ & C1 & _ & _ & D1 & _).
    set (s1 := fireDelayed getAngleForNumber s0) in *.
    destruct (tickTimeline_summary random s1) as (C2 & _ & _ & T).
    set (s2 := tickTimeline cfg dim random s1) in *.
    destruct (tickSync_spec rotation s2) as (_ & _ & C3 & _ & D3 & _).
    rewrite C3, D3, C2, C1. cbn [s0 clock set_clock].
    assert (Forall (fun d => d_due d <= clock s + dt + 4 / 10) (delayedCalls s1)) as H1.
    { rewrite D1. apply Forall_forall. intros d Hin.
      apply filter_In in Hin. destruct Hin as [Hin _].
      cbn [s0 delayedCalls set_clock] in Hin.
      rewrite Forall_forall in Hs. specialize (Hs d Hin). lra. }
    destruct T as [(E & _) | (tl & done & new & nd & _ & _ & _ & _ & D2 & F2 & _)].
    + rewrite E. exact H1.
    + rewrite D2. apply Forall_app. split; [exact H1 |].
      eapply Forall_impl; [| exact F2]. cbn beta. intros d [_ Hd].
      rewrite Hd, C1. cbn [s0 clock set_clock]. lra.
Qed.

Lemma reachable_dueSoon (s : state) :
  reachable cfg dim getAngleForNumber power2InOut s -> dueSoon s.
Proof.
  induction 1 as [| s e _ IH Hv].
  - constructor.
  - now apply dueSoon_step.
Qed.

Lemma noWritesUpTo_refl old (s s' : state) : writes s' = writes s -> noWritesUpTo old s s'.
Proof. intros E. exists []. split; [exact E | constructor]. Qed.

Lemma noWritesUpTo_trans old (s s1 s2 : state) :
  noWritesUpTo old s s1 -> noWritesUpTo old s1 s2 -> noWritesUpTo old s s2.
Proof.
  intros (n1 & W1 & F1) (n2 & W2 & F2). exists (n2 ++ n1). split.
  - rewrite W2, W1. now rewrite app_assoc.
  - apply Forall_app. split; assumption.
Qed.

Lemma fenced_fireDelayed old (s : state) :
  fenced cfg old s ->
  let s1 := fireDelayed getAngleForNumber s in
  fenced cfg old s1 /\ writes s1 = writes s /\ clock s1 = clock s /\
  forall d, In d (delayedCalls s1) -> clock s1 < d_due d.
Proof.
  intros (J0 & J1 & J2 & J3). cbv zeta.
  destruct (fireDelayed_spec s) as (A1 & A2 & A3 & A4 & A5 & A6 & A7).
  set (s1 := fireDelayed getAngleForNumber s) in *.
  assert (forall d, In d (delayedCalls s1) ->
                    In d (delayedCalls s) /\ clock s < d_due d) as Hpending.
  { intros d Hin. rewrite A6 in Hin. apply filter_In in Hin.
    destruct Hin as [Hin Hnot]. split; [exact Hin |].
    unfold isDue, Rleb in Hnot. destruct (Rle_dec (d_due d) (clock s)); [discriminate | lra]. }
  split; [| split; [exact A5 | split; [exact A3 |]]].
  - unfold fenced. rewrite A1, A2, A4. repeat split.
    + exact J0.
    + apply J1; assumption.
    + apply J1; assumption.
    + apply J1; assumption.
    + intros session Hsession.
      destruct A7 as [A7 | (Hidle & d & Hin & Hd)].
      * apply J2. now rewrite <- A7.
      * rewrite Hd in Hsession. injection Hsession as <-.
        destruct (Nat.le_gt_cases (d_session d) old) as [Hold | Hnew]; [| exact Hnew].
        destruct (J3 d Hin Hold) as [Hspin _]. congruence.
    + apply (J3 d); [apply Hpending |]; assumption.
    + apply (J3 d); [apply Hpending | |]; assumption.
    + apply (J3 d); [apply Hpending | |]; assumption.
  - intros d Hin. rewrite A3. now apply Hpending.
Qed.

Lemma fenced_tickTimeline old random (s : state) :
  fenced cfg old s ->
  (forall d, In d (delayedCalls s) -> clock s < d_due d) ->
  let s2 := tickTimeline cfg dim random s in
  fenced cfg old s2 /\ noWritesUpTo old s s2.
Proof.
  intros J Hpending. pose proof J as (J0 & J1 & J2 & J3). cbv zeta.
  destruct (tickTimeline_summary random s) as (C & S2 & Y & T).
  set (s2 := tickTimeline cfg dim random s) in *.
  destruct T as [(E & _) |
                 (tl & done & new & nd & Htl & Hrun & W & FW & D & FD & Hdone & Hcase)].
  { rewrite E. split; [exact J | now apply noWritesUpTo_refl]. }
  destruct (J1 tl Htl) as (Hnew & Hle & Hlt). specialize (Hlt Hrun).
  assert (forall d, In d nd -> (d_session d <= old)%nat -> False) as Hnd.
  { intros d Hin Hold. rewrite Forall_forall in FD.
    destruct (FD d Hin) as [Hd _]. lia. }
  split.
  2:{ exists new. split; [exact W |].
      eapply Forall_impl; [| exact FW]. cbn beta. intros w Hw. lia. }
  unfold fenced. rewrite S2, Y.
  destruct Hcase as [(H4 & Hend & Hspin & Htl2) | (H4 & Hspin & Htl2)];
    rewrite Hspin, Htl2; (split; [exact J0 |]); (split; [| split; [exact J2 |]]).
  - intros tl' E. injection E as <-. cbn. repeat split; try assumption. discriminate.
  - intros d Hin Hold. rewrite D in Hin. apply in_app_or in Hin.
    destruct Hin as [Hin | Hin]; [| destruct (Hnd d Hin Hold)].
    destruct (J3 d Hin Hold) as [_ Hdue]. destruct (Hdue tl Htl) as [_ Hbefore].
    specialize (Hpending d Hin). specialize (Hend Hlt). lra.
  - intros tl' E. injection E as <-. cbn. repeat split; try assumption.
    intros _. lia.
  - intros d Hin Hold. rewrite D in Hin. apply in_app_or in Hin.
    destruct Hin as [Hin | Hin]; [| destruct (Hnd d Hin Hold)].
    destruct (J3 d Hin Hold) as [Hs Hdue]. split; [exact Hs |].
    intros tl' E. injection E as <-. cbn. split; [reflexivity |].
    now apply Hdue.
Qed.

Lemma fenced_tickSync old rotation (s : state) :
  fenced cfg old s ->
  let s3 := tickSync dim getAngleForNumber power2InOut rotation s in
  fenced cfg old s3 /\ noWritesUpTo old s s3.
Proof.
  intros (J0 & J1 & J2 & J3). cbv zeta.
  destruct (tickSync_spec rotation s) as (A1 & A2 & A3 & A4 & A5 & (new & W & FW) & A7).
  set (s3 := tickSync dim getAngleForNumber power2InOut rotation s) in *.
  split.
  - unfold fenced. rewrite A1, A2, A4, A5. repeat split; try assumption.
    + apply J1; assumption.
    + apply J1; assumption.
    + apply J1; assumption.
    + intros session Hsession. destruct A7 as [A7 | A7]; [congruence |].
      apply J2. now rewrite <- A7.
    + apply (J3 d); assumption.
    + apply (J3 d); assumption.
    + apply (J3 d); assumption.
  - exists new. split; [exact W |].
    eapply Forall_impl; [| exact FW]. cbn beta. intros w Hw. now apply J2.
Qed.

(** Once a spin has replaced spin number [old], every event keeps the
    fence and writes nothing in the name of a spin up to [old]. *)
Lemma fenced_step old (s : state) (e : event) :
  validEvent e -> fenced cfg old s ->
  fenced cfg old (step cfg dim getAngleForNumber power2InOut s e) /\
  noWritesUpTo old s (step cfg dim getAngleForNumber power2InOut s e).
Proof.
  intros Hv J. destruct e as [index rotation | | dt rotation random]; cbn [step].
  - destruct (startSpin_cases index rotation s) as (_ & D & W & Hcase).
    split; [| now apply noWritesUpTo_refl].
    destruct Hcase as [E | (Hidle & Hspin & Hsessions & Htl & Hsync)].
    + rewrite E. exact J.
    + destruct J as (J0 & J1 & J2 & J3).
      unfold fenced. rewrite D, Hspin, Hsessions, Htl, Hsync.
      split; [lia |]. split; [| split].
      * intros tl E. injection E as <-. cbn. repeat split; lia.
      * intros session E. discriminate E.
      * intros d Hin Hold. destruct (J3 d Hin Hold) as [Hs _]. congruence.
  - split; [| now apply noWritesUpTo_refl].
    destruct J as (J0 & J1 & J2 & J3).
    split; [exact J0 |]. split; [| split].
    + intros tl E. discriminate E.
    + intros session E. discriminate E.
    + intros d Hin Hold. destruct (J3 d Hin Hold) as [Hs _].
      split; [exact Hs |]. intros tl E. discriminate E.
  - unfold tick.
    assert (fenced cfg old (set_clock (clock s + dt) s)) as J' by exact J.
    set (s0 := set_clock (clock s + dt) s) in *.
    destruct (fenced_fireDelayed old s0 J') as (K1 & W1 & _ & P1).
    set (s1 := fireDelayed getAngleForNumber s0) in *.
    destruct (fenced_tickTimeline old random s1 K1 P1) as (K2 & W2).
    set (s2 := tickTimeline cfg dim random s1) in *.
    destruct (fenced_tickSync old rotation s2 K2) as (K3 & W3).
    split; [exact K3 |].
    eapply noWritesUpTo_trans; [| exact W3].
    eapply noWritesUpTo_trans; [| exact W2].
    apply noWritesUpTo_refl. exact W1.
Qed.

Lemma fenced_run old (es : list event) (s : state) :
  Forall validEvent es -> fenced cfg old s ->
  noWritesUpTo old s (run cfg dim getAngleForNumber power2InOut es s).
Proof.
  revert s. induction es as [| e es IH]; intros s Hv J.
  - now apply noWritesUpTo_refl.
  - inversion Hv as [| ? ? He Hes]; subst.
    destruct (fenced_step old s e He J) as [J' W].
    eapply noWritesUpTo_trans; [exact W |].
    apply IH; assumption.
Qed.

(** An accepted spin fences off everything before it. *)
Lemma startSpin_fences index rotation (s : state) :
  dueSoon s ->
  isSpinning s = false ->
  (0 <= index < Config.pocketCount cfg)%Z ->
  fenced cfg (sessions s) (startSpin cfg getAngleForNumber index rotation s).
Proof.
  intros Hdue Hidle Hidx.
  destruct (startSpin_cases index rotation s) as (C & D & _ & Hcase).
  destruct (engine_startSpin_accepted cfg getAngleForNumber index rotation s Hidle Hidx)
    as (Hspin & Htl & Hsync).
  pose proof (engine_startSpin_sessions cfg getAngleForNumber index rotation s Hidle Hidx)
    as Hsessions.
  unfold fenced. rewrite D, Hspin, Hsessions, Htl, Hsync.
  split; [lia |]. split; [| split].
  - intros tl E. injection E as <-. cbn. repeat split; lia.
  - intros session E. discriminate E.
  - intros d Hin _. split; [reflexivity |].
    intros tl E. injection E as <-. cbn. split; [reflexivity |].
    unfold dueSoon in Hdue. rewrite Forall_forall in Hdue.
    specialize (Hdue d Hin). lra.
Qed.

(** While its first phase is running, a live timeline writes a position
    on every frame. *)
Lemma tickTimeline_phase1_writes random (s : state) (tl : Timeline) :
  animationTimeline s = Some tl ->
  tl_complete tl = false ->
  tl_done tl = 0%nat ->
  tl_start tl <= clock s ->
  exists new w,
    writes (tickTimeline cfg dim random s) = new ++ w :: writes s /\
    w_session w = tl_session tl /\ w_source w = ByPhase1.
Proof.
  intros Htl Hrun Hdone Hstart. unfold tickTimeline. rewrite Htl, Hrun, Hdone.
  set (D := Config.spinDuration cfg).
  set (t := clock s - tl_start tl).
  set (session := tl_session tl).
  set (c := tl_phase4 tl).
  set (u1 := fun p s => applyUpdate session ByPhase1 (phase1Update cfg dim p) s).
  set (u2 := fun p s => applyUpdate session ByPhase2 (phase2Update cfg dim p) s).
  set (u3 := fun p s => applyUpdate session ByPhase3 (phase3Update cfg dim random p) s).
  set (u4 := fun p s =>
               applyUpdate session ByPhase4 (phase4Update dim c (currentBallAngle s) p) s).
  set (idle := fun s : state => s).
  assert (forall p s, frame session s (u2 p s)) as F2 by (intros; apply frame_applyUpdate).
  assert (forall p s, frame session s (u3 p s)) as F3 by (intros; apply frame_applyUpdate).
  assert (forall p s, frame session s (u4 p s)) as F4 by (intros; apply frame_applyUpdate).
  assert (forall s, frame session s (idle s)) as Fi by (intros; apply frame_refl).
  pose proof (frame_phase4OnComplete session c) as Fc.
  assert (exists s1 d1 w,
             runPhase 1 0 (D * (20 / 100)) u1 idle t (s, 0%nat) = (s1, d1) /\
             writes s1 = w :: writes s /\
             w_session w = session /\ w_source w = ByPhase1) as (s1 & d1 & w & E1 & W1 & Hw).
  { unfold runPhase. cbn [Nat.eqb andb].
    assert (Rleb 0 t = true) as ->
      by (unfold Rleb, t; destruct (Rle_dec 0 (clock s - tl_start tl)); [reflexivity | lra]).
    destruct (Rleb (0 + D * (20 / 100)) t); eexists _, _, _;
      (split; [reflexivity |]); cbn; auto. }
  rewrite E1.
  destruct (runPhase_frame session 2 (D * (20 / 100)) (D * (30 / 100)) u2 idle t s1 d1 F2 Fi)
    as [G2 _].
  destruct (runPhase 2 (D * (20 / 100)) (D * (30 / 100)) u2 idle t (s1, d1)) as [s2 d2].
  destruct (runPhase_frame session 3 (D * (50 / 100)) (D * (30 / 100)) u3 idle t s2 d2 F3 Fi)
    as [G3 _].
  destruct (runPhase 3 (D * (50 / 100)) (D * (30 / 100)) u3 idle t (s2, d2)) as [s3 d3].
  destruct (runPhase_frame session 4 (D * (80 / 100)) (D * (20 / 100)) u4
              (phase4OnComplete dim session c) t s3 d3 F4 Fc) as [G4 _].
  destruct (runPhase 4 (D * (80 / 100)) (D * (20 / 100)) u4
              (phase4OnComplete dim session c) t (s3, d3)) as [s4 d4].
  cbn [fst snd] in *.
  assert (frame session s1 s4) as G
    by (eapply frame_trans; [eapply frame_trans; [exact G2 | exact G3] | exact G4]).
  destruct G as (_ & _ & _ & _ & _ & (new & W & _) & _).
  exists new, w. split; [| exact Hw].
  destruct (d4 =? 4)%nat; cbn; rewrite W, W1; reflexivity.
Qed.

(** A spin requested while the engine is spinning is turned down, and the
    running timeline goes on writing positions. *)
Lemma busy_engine_does_not_cancel index rotation (s : state) (tl : Timeline) :
  isSpinning s = true ->
  animationTimeline s = Some tl ->
  tl_complete tl = false ->
  tl_done tl = 0%nat ->
  tl_start tl <= clock s ->
  (tl_session tl <= sessions s)%nat ->
  startSpin cfg getAngleForNumber index rotation s
  = set_warnings (InvalidWinningIndex index :: warnings s) s /\
  ~ cancelsPrevious cfg dim getAngleForNumber power2InOut s index rotation.
Proof.
  intros Hspin Htl Hrun Hdone Hstart Hsession.
  assert (startSpin cfg getAngleForNumber index rotation s
          = set_warnings (InvalidWinningIndex index :: warnings s) s) as E
    by (apply engine_startSpin_rejected; left; exact Hspin).
  split; [exact E |].
  unfold cancelsPrevious. rewrite E. intros [_ Hwrites].
  specialize (Hwrites [Tick 1 0 0]).
  destruct Hwrites as (new' & W' & F').
  { constructor; [cbn; lra | constructor]. }
  cbn [run fold_left step] in W'. unfold tick in W'.
  set (s' := set_warnings (InvalidWinningIndex index :: warnings s) s) in *.
  set (s0 := set_clock (clock s' + 1) s') in *.
  destruct (fireDelayed_spec s0) as (_ & A2 & A3 & _ & A5 & _).
  set (s1 := fireDelayed getAngleForNumber s0) in *.
  destruct (tickTimeline_phase1_writes 0 s1 tl) as (new2 & w & W2 & Hw & _).
  { rewrite A2. exact Htl. }
  { exact Hrun. }
  { exact Hdone. }
  { rewrite A3. cbn. lra. }
  set (s2 := tickTimeline cfg dim 0 s1) in *.
  destruct (tickSync_spec 0 s2) as (_ & _ & _ & _ & _ & (new3 & W3 & _) & _).
  rewrite W3, W2, A5 in W'. cbn [s0 s' writes set_clock set_warnings] in W'.
  assert (new' = new3 ++ new2 ++ [w]) as ->.
  { apply (app_inv_tail (writes s)). rewrite <- W'.
    rewrite <- !app_assoc. reflexivity. }
  rewrite !Forall_app in F'. destruct F' as (_ & _ & Fw).
  inversion Fw as [| ? ? Hlt _]; subst. lia.
Qed.

(** C2 (as amended): from a state the engine can reach, a spin to a valid
    pocket requested while the engine is spinning is turned down (a
    warning, nothing else changes, the previous session goes on); requested
    when the engine is not spinning (landed, blending, locked or idle) it
    starts the engine on the new pocket, and from then on no position
    update ever comes from a spin started before. *)
Theorem startSpin_cancels_previous_once_landed (s : state) (index : Z) (rotation : R) :
  reachable cfg dim getAngleForNumber power2InOut s ->
  (0 <= index < Config.pocketCount cfg)%Z ->
  (isSpinning s = true ->
   startSpin cfg getAngleForNumber index rotation s
   = set_warnings (InvalidWinningIndex index :: warnings s) s) /\
  (isSpinning s = false -> cancelsPrevious cfg dim getAngleForNumber power2InOut s index rotation).
Proof.
  intros Hreach Hidx. split.
  - intros Hspin. apply engine_startSpin_rejected. left. exact Hspin.
  - intros Hidle. split.
    + now apply engine_startSpin_accepted.
    + intros es Hes. apply fenced_run; [exact Hes |].
      apply startSpin_fences; [now apply reachable_dueSoon | exact Hidle | exact Hidx].
Qed.

End Sessions.

End Sessions.

(** C2, the claim at an engine in its first phase: a spin to pocket 7
    requested while the engine spins towards pocket 5 changes nothing but
    the warnings, and does not cancel the running session. *)
Lemma new_spin_mid_phase_does_not_cancel :
  BallPhysics.startSpin ROULETTE_CONFIG stageAngles 7 0 engineSpinningTo5
  = BallPhysics.set_warnings [BallPhysics.InvalidWinningIndex 7] engineSpinningTo5 /\
  ~ Notions.cancelsPrevious ROULETTE_CONFIG stageDimensions stageAngles cubicInOut
      engineSpinningTo5 7 0.
Proof.
  destruct (engine_startSpin_accepted ROULETTE_CONFIG stageAngles 5 0
              (BallPhysics.init stageDimensions)) as (Hspin & Htl & _);
    [reflexivity | simpl; lia |].
  pose proof (engine_startSpin_sessions ROULETTE_CONFIG stageAngles 5 0
                (BallPhysics.init stageDimensions) eq_refl) as Hsessions.
  destruct (Sessions.startSpin_cases ROULETTE_CONFIG stageAngles 5 0
              (BallPhysics.init stageDimensions)) as (Hclock & _ & _ & Hcase).
  assert (BallPhysics.warnings engineSpinningTo5 = []) as Hwarn.
  { destruct Hcase as [E | _]; [| reflexivity].
    unfold engineSpinningTo5 in Hspin. rewrite E in Hspin. discriminate Hspin. }
  fold engineSpinningTo5 in Hspin, Htl, Hsessions, Hclock.
  destruct (Sessions.busy_engine_does_not_cancel ROULETTE_CONFIG stageDimensions
              stageAngles cubicInOut 7 0 engineSpinningTo5 _ Hspin Htl)
    as [E Hnot].
  - reflexivity.
  - reflexivity.
  - cbn [freshTimeline BallPhysics.tl_start]. rewrite Hclock. cbn. lra.
  - cbn [freshTimeline BallPhysics.tl_session]. rewrite Hsessions; [lia | simpl; lia].
  - rewrite Hwarn in E. split; [exact E | exact Hnot].
Qed.

Lemma engineLandedOn5_not_spinning : BallPhysics.isSpinning engineLandedOn5 = false.
Proof.
  unfold engineLandedOn5. cbn [BallPhysics.run fold_left BallPhysics.step].
  apply (spin_runs_to_landing ROULETTE_CONFIG stageDimensions stageAngles cubicInOut
           5 0 15 0 0 (BallPhysics.init stageDimensions)).
  - reflexivity.
  - reflexivity.
  - simpl. lia.
  - simpl. lra.
Qed.

Lemma startSpin_cancels_previous_once_landed_witness :
  Notions.cancelsPrevious ROULETTE_CONFIG stageDimensions stageAngles cubicInOut
    engineLandedOn5 7 0.
Proof.
  apply (Sessions.startSpin_cancels_previous_once_landed ROULETTE_CONFIG stageDimensions
           stageAngles cubicInOut).
  - simpl. lra.
  - unfold engineLandedOn5. cbn [BallPhysics.run fold_left].
    apply BallPhysics.reachable_step;
      [apply BallPhysics.reachable_step; [apply BallPhysics.reachable_init | exact I] |].
    simpl. lra.
  - simpl. lia.
  - exact engineLandedOn5_not_spinning.
Defined.

(** ** The random source and the landing *)

Module Determinism.

Import BallPhysics Notions.

Section Determinism.

Variable cfg : Config.t.
Variable dim : Dimensions.
Variable getAngleForNumber : Z -> R.
Variable power2InOut : R -> R.

Lemma sameWrite_refl w : sameWrite w w.
Proof. repeat split. Qed.

Lemma agree_refl s : agree s s.
Proof.
  repeat split.
  induction (writes s); constructor; [apply sameWrite_refl | assumption].
Qed.

Ltac agree_fields :=
  unfold agree, lastWriteBy in *;
  repeat match goal with H : _ /\ _ |- _ => destruct H end;
  cbn in *; repeat split; try congruence; auto.

Lemma agree_set_clock v s1 s2 :
  agree s1 s2 -> agree (set_clock v s1) (set_clock v s2).
Proof. intros H. agree_fields. Qed.

Lemma agree_set_delayedCalls v s1 s2 :
  agree s1 s2 -> agree (set_delayedCalls v s1) (set_delayedCalls v s2).
Proof. intros H. agree_fields. Qed.

Lemma agree_set_animationTimeline v s1 s2 :
  agree s1 s2 -> agree (set_animationTimeline v s1) (set_animationTimeline v s2).
Proof. intros H. agree_fields. Qed.

Lemma agree_set_ballSyncTween v s1 s2 :
  agree s1 s2 -> agree (set_ballSyncTween v s1) (set_ballSyncTween v s2).
Proof. intros H. agree_fields. Qed.

Lemma agree_onSpinComplete index s1 s2 :
  agree s1 s2 -> agree (onSpinComplete index s1) (onSpinComplete index s2).
Proof. intros H. agree_fields. Qed.

Lemma agree_stopAllAnimations s1 s2 :
  agree s1 s2 -> agree (stopAllAnimations s1) (stopAllAnimations s2).
Proof. intros H. agree_fields. Qed.

(** Two position updates keep the states in agreement when they come from
    the same closure with the same tracked angle and, phase 3 apart, the
    same point. *)
Lemma agree_applyUpdate session src (u1 u2 : Update) s1 s2 :
  u_currentBallAngle u1 = u_currentBallAngle u2 ->
  (src <> ByPhase3 -> u_position u1 = u_position u2) ->
  agree s1 s2 ->
  agree (applyUpdate session src u1 s1) (applyUpdate session src u2 s2).
Proof.
  intros Hangle Hpos H. agree_fields.
  - constructor; [| assumption]. repeat split; cbn; auto.
  - intros Hsrc. apply Hpos. congruence.
Qed.

Lemma agree_setPosition session src p s1 s2 :
  agree s1 s2 ->
  agree (setPosition session src p s1) (setPosition session src p s2).
Proof.
  intros H. agree_fields.
  constructor; [| assumption]. repeat split.
Qed.

Lemma agree_phase4OnComplete session c s1 s2 :
  agree s1 s2 ->
  agree (phase4OnComplete dim session c s1) (phase4OnComplete dim session c s2).
Proof.
  intros H. agree_fields.
  constructor; [| assumption]. repeat split.
Qed.

Lemma agree_establishSmoothWheelSync session index s1 s2 :
  agree s1 s2 ->
  agree (establishSmoothWheelSync getAngleForNumber session index s1)
        (establishSmoothWheelSync getAngleForNumber session index s2).
Proof.
  intros H. unfold establishSmoothWheelSync.
  assert (isSpinning s1 = isSpinning s2) as E1 by apply H.
  assert (clock s1 = clock s2) as E2 by apply H.
  assert (ballFinalAngle s1 = ballFinalAngle s2) as E3 by apply H.
  rewrite E1, E2, E3. destruct (isSpinning s2); [exact H |].
  now apply agree_set_ballSyncTween.
Qed.

Lemma agree_establishPermanentWheelSync session index s1 s2 :
  agree s1 s2 ->
  agree (establishPermanentWheelSync getAngleForNumber session index s1)
        (establishPermanentWheelSync getAngleForNumber session index s2).
Proof.
  intros H. unfold establishPermanentWheelSync.
  assert (isSpinning s1 = isSpinning s2) as E1 by apply H.
  rewrite E1. destruct (isSpinning s2); now apply agree_set_ballSyncTween.
Qed.

Lemma agree_fireDelayed s1 s2 :
  agree s1 s2 ->
  agree (fireDelayed getAngleForNumber s1) (fireDelayed getAngleForNumber s2).
Proof.
  intros H. unfold fireDelayed.
  assert (clock s1 = clock s2) as E1 by apply H.
  assert (delayedCalls s1 = delayedCalls s2) as E2 by apply H.
  rewrite E1, E2.
  set (pending := filter (fun d => negb (isDue (clock s2) d)) (delayedCalls s2)).
  pose proof (agree_set_delayedCalls pending s1 s2 H) as H0.
  revert H0. generalize (set_delayedCalls pending s1) (set_delayedCalls pending s2).
  induction (filter (isDue (clock s2)) (delayedCalls s2)) as [| d l IH];
    intros t1 t2 Ht; cbn [fold_left].
  - exact Ht.
  - apply IH. now apply agree_establishSmoothWheelSync.
Qed.

Lemma agree_runPhase k start dur
  (update1 update2 : R -> state -> state) (complete : state -> state) t done s1 s2 :
  (forall p t1 t2, agree t1 t2 -> agree (update1 p t1) (update2 p t2)) ->
  (forall t1 t2, agree t1 t2 -> agree (complete t1) (complete t2)) ->
  agree s1 s2 ->
  agree (fst (runPhase k start dur update1 complete t (s1, done)))
        (fst (runPhase k start dur update2 complete t (s2, done))) /\
  snd (runPhase k start dur update1 complete t (s1, done))
  = snd (runPhase k start dur update2 complete t (s2, done)).
Proof.
  intros Hu Hc H. unfold runPhase.
  destruct ((S done =? k)%nat && Rleb start t); [| split; [exact H | reflexivity]].
  destruct (Rleb (start + dur) t); cbn [fst snd]; split; auto.
Qed.

(** A frame of the timeline keeps two runs in agreement whatever
    [Math.random()] returned in each. *)
Lemma agree_tickTimeline random1 random2 s1 s2 :
  agree s1 s2 ->
  agree (tickTimeline cfg dim random1 s1) (tickTimeline cfg dim random2 s2).
Proof.
  intros H. unfold tickTimeline.
  assert (animationTimeline s1 = animationTimeline s2) as E1 by apply H.
  assert (clock s1 = clock s2) as E2 by apply H.
  rewrite E1, E2.
  destruct (animationTimeline s2) as [tl |]; [| exact H].
  destruct (tl_complete tl); [exact H |].
  set (D := Config.spinDuration cfg).
  set (t := clock s2 - tl_start tl).
  set (session := tl_session tl).
  set (c := tl_phase4 tl).
  set (u1 := fun p s => applyUpdate session ByPhase1 (phase1Update cfg dim p) s).
  set (u2 := fun p s => applyUpdate session ByPhase2 (phase2Update cfg dim p) s).
  set (u3 := fun random p s =>
               applyUpdate session ByPhase3 (phase3Update cfg dim random p) s).
  set (u4 := fun p s =>
               applyUpdate session ByPhase4 (phase4Update dim c (currentBallAngle s) p) s).
  set (idle := fun s : state => s).
  change (fun p s => applyUpdate session ByPhase3 (phase3Update cfg dim random1 p) s)
    with (u3 random1).
  change (fun p s => applyUpdate session ByPhase3 (phase3Update cfg dim random2 p) s)
    with (u3 random2).
  assert (forall t1 t2, agree t1 t2 -> agree (idle t1) (idle t2)) as Hi by auto.
  destruct (agree_runPhase 1 0 (D * (20 / 100)) u1 u1 idle t (tl_done tl) s1 s2)
    as [G1 K1]; auto.
  { intros p t1 t2 Ht. apply agree_applyUpdate; auto. }
  destruct (runPhase 1 0 (D * (20 / 100)) u1 idle t (s1, tl_done tl)) as [a1 d1].
  destruct (runPhase 1 0 (D * (20 / 100)) u1 idle t (s2, tl_done tl)) as [b1 e1].
  cbn [fst snd] in G1, K1. subst e1.
  destruct (agree_runPhase 2 (D * (20 / 100)) (D * (30 / 100)) u2 u2 idle t d1 a1 b1)
    as [G2 K2]; auto.
  { intros p t1 t2 Ht. apply agree_applyUpdate; auto. }
  destruct (runPhase 2 (D * (20 / 100)) (D * (30 / 100)) u2 idle t (a1, d1)) as [a2 d2].
  destruct (runPhase 2 (D * (20 / 100)) (D * (30 / 100)) u2 idle t (b1, d1)) as [b2 e2].
  cbn [fst snd] in G2, K2. subst e2.
  destruct (agree_runPhase 3 (D * (50 / 100)) (D * (30 / 100)) (u3 random1) (u3 random2)
              idle t d2 a2 b2) as [G3 K3]; auto.
  { intros p t1 t2 Ht. apply agree_applyUpdate; auto. congruence. }
  destruct (runPhase 3 (D * (50 / 100)) (D * (30 / 100)) (u3 random1) idle t (a2, d2))
    as [a3 d3].
  destruct (runPhase 3 (D * (50 / 100)) (D * (30 / 100)) (u3 random2) idle t (b2, d2))
    as [b3 e3].
  cbn [fst snd] in G3, K3. subst e3.
  destruct (agree_runPhase 4 (D * (80 / 100)) (D * (20 / 100)) u4 u4
              (phase4OnComplete dim session c) t d3 a3 b3) as [G4 K4]; auto.
  { intros p t1 t2 Ht. unfold u4.
    assert (currentBallAngle t1 = currentBallAngle t2) as -> by apply Ht.
    apply agree_applyUpdate; auto. }
  { intros t1 t2 Ht. now apply agree_phase4OnComplete. }
  destruct (runPhase 4 (D * (80 / 100)) (D * (20 / 100)) u4
              (phase4OnComplete dim session c) t (a3, d3)) as [a4 d4].
  destruct (runPhase 4 (D * (80 / 100)) (D * (20 / 100)) u4
              (phase4OnComplete dim session c) t (b3, d3)) as [b4 e4].
  cbn [fst snd] in G4, K4. subst e4.
  destruct (d4 =? 4)%nat.
  - apply agree_onSpinComplete. now apply agree_set_animationTimeline.
  - now apply agree_set_animationTimeline.
Qed.

Lemma agree_tickSync rotation s1 s2 :
  agree s1 s2 ->
  agree (tickSync dim getAngleForNumber power2InOut rotation s1)
        (tickSync dim getAngleForNumber power2InOut rotation s2).
Proof.
  intros H. unfold tickSync.
  assert (ballSyncTween s1 = ballSyncTween s2) as E1 by apply H.
  assert (clock s1 = clock s2) as E2 by apply H.
  assert (isSpinning s1 = isSpinning s2) as E3 by apply H.
  rewrite E1, E2, E3.
  destruct (ballSyncTween s2) as [[session index start local frozen | session index local |] |].
  - destruct (Rleb (start + 2) (clock s2)).
    + apply agree_establishPermanentWheelSync. now apply agree_setPosition.
    + now apply agree_setPosition.
  - destruct (isSpinning s2).
    + now apply agree_set_ballSyncTween.
    + now apply agree_setPosition.
  - exact H.
  - exact H.
Qed.

Lemma agree_startSpin index rotation s1 s2 :
  agree s1 s2 ->
  agree (startSpin cfg getAngleForNumber index rotation s1)
        (startSpin cfg getAngleForNumber index rotation s2).
Proof.
  intros H. unfold startSpin.
  assert (isSpinning s1 = isSpinning s2) as E1 by apply H.
  rewrite E1.
  destruct (isSpinning s2 || (index <? 0)%Z || (index >=? Config.pocketCount cfg)%Z);
    agree_fields.
Qed.

Lemma agree_step e1 e2 s1 s2 :
  sameButRandom e1 e2 -> agree s1 s2 ->
  agree (step cfg dim getAngleForNumber power2InOut s1 e1)
        (step cfg dim getAngleForNumber power2InOut s2 e2).
Proof.
  intros He H.
  destruct e1 as [i1 r1 | | dt1 r1 x1], e2 as [i2 r2 | | dt2 r2 x2];
    cbn in He; try contradiction; cbn [step].
  - destruct He as [-> ->]. now apply agree_startSpin.
  - now apply agree_stopAllAnimations.
  - destruct He as [-> ->]. unfold tick.
    assert (clock s1 = clock s2) as -> by apply H.
    apply agree_tickSync, agree_tickTimeline, agree_fireDelayed, agree_set_clock, H.
Qed.

Lemma agree_run es1 es2 s1 s2 :
  Forall2 sameButRandom es1 es2 -> agree s1 s2 ->
  agree (run cfg dim getAngleForNumber power2InOut es1 s1)
        (run cfg dim getAngleForNumber power2InOut es2 s2).
Proof.
  intros Hes. revert s1 s2. induction Hes as [| e1 e2 es1 es2 He _ IH]; intros s1 s2 H.
  - exact H.
  - cbn [run fold_left]. apply IH. now apply agree_step.
Qed.

(** C9: two runs of the engine from the same state, with the same spin
    requests, wheel rotations and frame times, but arbitrary values of the
    random source, agree after every event on the data of phase 4 (target
    angle and delta, in the timeline), on the tracked angle and on every
    position written by phase 4 and by the landing snap; only positions
    written by phase 3 may differ. *)
Theorem landing_independent_of_random (s : state) (es1 es2 : list event) :
  Forall2 sameButRandom es1 es2 ->
  agree (run cfg dim getAngleForNumber power2InOut es1 s)
        (run cfg dim getAngleForNumber power2InOut es2 s).
Proof. intros Hes. apply agree_run; [exact Hes | apply agree_refl]. Qed.

End Determinism.

End Determinism.

Lemma landing_independent_of_random_witness :
  Notions.agree
    (BallPhysics.run ROULETTE_CONFIG stageDimensions stageAngles cubicInOut
       [BallPhysics.StartSpin 5 0; BallPhysics.Tick 13 0 (1 / 4)]
       (BallPhysics.init stageDimensions))
    (BallPhysics.run ROULETTE_CONFIG stageDimensions stageAngles cubicInOut
       [BallPhysics.StartSpin 5 0; BallPhysics.Tick 13 0 (3 / 4)]
       (BallPhysics.init stageDimensions)).
Proof.
  apply (Determinism.landing_independent_of_random ROULETTE_CONFIG stageDimensions
           stageAngles cubicInOut).
  repeat constructor.
Defined.

(** ** The life of a spin *)

Module Landing.

Import BallPhysics Notions Lifecycle.

Section Landing.

Variable cfg : Config.t.
Variable dim : Dimensions.
Variable getAngleForNumber : Z -> R.
Variable power2InOut : R -> R.

Lemma moved_refl (s : state) : moved s s.
Proof. repeat split. Qed.

Lemma moved_trans (s s1 s2 : state) : moved s s1 -> moved s1 s2 -> moved s s2.
Proof. unfold moved. intuition congruence. Qed.

Lemma moved_applyUpdate session src u (s : state) : moved s (applyUpdate session src u s).
Proof. repeat split. Qed.

(** A phase tween without [onComplete] moves the ball at most; it is
    counted as finished on the frame that reaches its end. *)
Lemma runPhase_moved k start dur update t (s : state) done :
  (forall p s, moved s (update p s)) ->
  moved s (fst (runPhase k start dur update (fun s => s) t (s, done))) /\
  (snd (runPhase k start dur update (fun s => s) t (s, done)) = done /\
   (S done = k -> 0 <= dur -> t < start + dur)
   \/
   snd (runPhase k start dur update (fun s => s) t (s, done)) = k /\ S done = k).
Proof.
  intros Hu. unfold runPhase, Rleb.
  destruct (Nat.eqb_spec (S done) k) as [Hk | Hk]; cbn [andb].
  - destruct (Rle_dec start t) as [Hstart | Hstart]; cbn [fst snd].
    + destruct (Rle_dec (start + dur) t) as [Hend | Hend]; cbn [fst snd].
      * split; [apply Hu | right; auto].
      * split; [apply Hu | left; split; [reflexivity | intros; lra]].
    + split; [apply moved_refl | left; split; [reflexivity | intros; lra]].
  - split; [apply moved_refl | left; split; [reflexivity | intros; contradiction]].
Qed.

(** The last phase tween: it moves the ball, or it reaches its end and
    runs its [onComplete] after the last update. *)
Lemma runPhase_last start dur update complete t (s : state) done :
  (forall p s, moved s (update p s)) ->
  moved s (fst (runPhase 4 start dur update complete t (s, done))) /\
  snd (runPhase 4 start dur update complete t (s, done)) = done /\
  (done = 3%nat -> 0 <= dur -> t < start + dur)
  \/
  exists m,
    moved s m /\
    runPhase 4 start dur update complete t (s, done) = (complete m, 4%nat) /\
    done = 3%nat /\ start + dur <= t.
Proof.
  intros Hu. unfold runPhase, Rleb.
  destruct (Nat.eqb_spec (S done) 4) as [Hk | Hk]; cbn [andb].
  - destruct (Rle_dec start t) as [Hstart | Hstart]; cbn [fst snd].
    + destruct (Rle_dec (start + dur) t) as [Hend | Hend]; cbn [fst snd].
      * right. eexists. split; [apply Hu |]. split; [reflexivity |]. split; [lia | exact Hend].
      * left. split; [apply Hu |]. split; [reflexivity | intros; lra].
    + left. split; [apply moved_refl |]. split; [reflexivity | intros; lra].
  - left. split; [apply moved_refl |]. split; [reflexivity | intros; lia].
Qed.

(** One frame of a running timeline, in full: either the ball moves, the
    count of finished phases may grow and the end of the spin has not
    been reached, or the frame has reached the end of the spin and runs
    the landing and [onSpinComplete]. *)
Lemma tickTimeline_cases random (s : state) (tl : Timeline) :
  animationTimeline s = Some tl ->
  tl_complete tl = false ->
  (tl_done tl < 4)%nat ->
  (exists m done,
      moved s m /\ (tl_done tl <= done < 4)%nat /\
      (0 <= Config.spinDuration cfg -> clock s < tl_start tl + Config.spinDuration cfg) /\
      tickTimeline cfg dim random s
      = set_animationTimeline (Some (advanced tl done false)) m)
  \/
  (exists m,
      moved s m /\
      tl_start tl + Config.spinDuration cfg <= clock s /\
      tickTimeline cfg dim random s
      = onSpinComplete (winningIndex (tl_phase4 tl))
          (set_animationTimeline (Some (advanced tl 4 true))
             (phase4OnComplete dim (tl_session tl) (tl_phase4 tl) m))).
Proof.
  intros Htl Hrun Hlt. unfold tickTimeline. rewrite Htl, Hrun.
  set (D := Config.spinDuration cfg).
  set (t := clock s - tl_start tl).
  set (session := tl_session tl).
  set (c := tl_phase4 tl).
  set (u1 := fun p s => applyUpdate session ByPhase1 (phase1Update cfg dim p) s).
  set (u2 := fun p s => applyUpdate session ByPhase2 (phase2Update cfg dim p) s).
  set (u3 := fun p s => applyUpdate session ByPhase3 (phase3Update cfg dim random p) s).
  set (u4 := fun p s =>
               applyUpdate session ByPhase4 (phase4Update dim c (currentBallAngle s) p) s).
  assert (forall p s, moved s (u1 p s)) as F1 by (intros; apply moved_applyUpdate).
  assert (forall p s, moved s (u2 p s)) as F2 by (intros; apply moved_applyUpdate).
  assert (forall p s, moved s (u3 p s)) as F3 by (intros; apply moved_applyUpdate).
  assert (forall p s, moved s (u4 p s)) as F4 by (intros; apply moved_applyUpdate).
  destruct (runPhase_moved 1 0 (D * (20 / 100)) u1 t s (tl_done tl) F1) as [G1 K1].
  destruct (runPhase 1 0 (D * (20 / 100)) u1 (fun s => s) t (s, tl_done tl)) as [s1 d1].
  destruct (runPhase_moved 2 (D * (20 / 100)) (D * (30 / 100)) u2 t s1 d1 F2) as [G2 K2].
  destruct (runPhase 2 (D * (20 / 100)) (D * (30 / 100)) u2 (fun s => s) t (s1, d1))
    as [s2 d2].
  destruct (runPhase_moved 3 (D * (50 / 100)) (D * (30 / 100)) u3 t s2 d2 F3) as [G3 K3].
  destruct (runPhase 3 (D * (50 / 100)) (D * (30 / 100)) u3 (fun s => s) t (s2, d2))
    as [s3 d3].
  cbn [fst snd] in *.
  assert (moved s s3) as G
    by (eapply moved_trans; [eapply moved_trans; [exact G1 | exact G2] | exact G3]).
  assert (tl_done tl <= d3 < 4)%nat as Hd3 by lia.
  destruct (runPhase_last (D * (80 / 100)) (D * (20 / 100)) u4
              (phase4OnComplete dim session c) t s3 d3 F4)
    as [(G4 & K4 & L4) | (m & Gm & E4 & Hd & Hend)].
  - destruct (runPhase 4 (D * (80 / 100)) (D * (20 / 100)) u4
                (phase4OnComplete dim session c) t (s3, d3)) as [s4 d4].
    cbn [fst snd] in *. subst d4.
    left. exists s4, d3. split; [eapply moved_trans; eassumption |].
    split; [exact Hd3 |]. split.
    + intros HD. destruct (Rlt_dec t D) as [Ht | Ht]; [unfold t in Ht; lra | exfalso].
      assert (1 <= d1)%nat as H1.
      { destruct K1 as [[E1 L1] | [E1 _]]; [| lia].
        destruct (Nat.eq_dec (S (tl_done tl)) 1) as [e | ne]; [| lia].
        specialize (L1 e). lra. }
      assert (2 <= d2)%nat as H2.
      { destruct K2 as [[E2 L2] | [E2 _]]; [| lia].
        destruct (Nat.eq_dec (S d1) 2) as [e | ne]; [| lia].
        specialize (L2 e). lra. }
      assert (3 <= d3)%nat as H3.
      { destruct K3 as [[E3 L3] | [E3 _]]; [| lia].
        destruct (Nat.eq_dec (S d2) 3) as [e | ne]; [| lia].
        specialize (L3 e). lra. }
      assert (d3 = 3%nat) as e by lia. specialize (L4 e). lra.
    + destruct (Nat.eqb_spec d3 4) as [H4 | H4]; [lia | reflexivity].
  - rewrite E4. cbn [Nat.eqb].
    right. exists m. split; [eapply moved_trans; eassumption |].
    split; [unfold t in Hend; lra | reflexivity].
Qed.

(** The hand-offs that are due: while the engine spins they return early,
    otherwise the last of them leaves its blend. *)
Lemma establish_fold (l : list Delayed) (s : state) :
  fold_left
    (fun s d => establishSmoothWheelSync getAngleForNumber (d_session d) (d_index d) s)
    l s = s
  \/
  isSpinning s = false /\
  exists d,
    In d l /\
    fold_left
      (fun s d => establishSmoothWheelSync getAngleForNumber (d_session d) (d_index d) s)
      l s
    = set_ballSyncTween
        (Some (Blend (d_session d) (d_index d) (clock s)
                 (getAngleForNumber (d_index d)) (ballFinalAngle s))) s.
Proof.
  revert s. induction l as [| d l IH]; intros s; cbn [fold_left].
  - left. reflexivity.
  - assert (isSpinning s = true \/ isSpinning s = false) as [Hspin | Hspin]
      by (destruct (isSpinning s); auto).
    + assert (establishSmoothWheelSync getAngleForNumber (d_session d) (d_index d) s = s)
        as -> by (unfold establishSmoothWheelSync; now rewrite Hspin).
      destruct (IH s) as [E | (Hidle & _)]; [left; exact E | congruence].
    + assert (establishSmoothWheelSync getAngleForNumber (d_session d) (d_index d) s
              = set_ballSyncTween
                  (Some (Blend (d_session d) (d_index d) (clock s)
                           (getAngleForNumber (d_index d)) (ballFinalAngle s))) s)
        as -> by (unfold establishSmoothWheelSync; now rewrite Hspin).
      right. split; [exact Hspin |].
      match goal with
      | |- context [fold_left _ l ?x] => destruct (IH x) as [E | (_ & d' & Hin & E)]
      end.
      * exists d. split; [left; reflexivity | exact E].
      * exists d'. split; [right; exact Hin | rewrite E; reflexivity].
Qed.

Lemma fireDelayed_cases (s : state) :
  fireDelayed getAngleForNumber s
  = set_delayedCalls (filter (fun d => negb (isDue (clock s) d)) (delayedCalls s)) s
  \/
  isSpinning s = false /\
  exists d,
    In d (delayedCalls s) /\ d_due d <= clock s /\
    fireDelayed getAngleForNumber s
    = set_ballSyncTween
        (Some (Blend (d_session d) (d_index d) (clock s)
                 (getAngleForNumber (d_index d)) (ballFinalAngle s)))
        (set_delayedCalls
           (filter (fun d => negb (isDue (clock s) d)) (delayedCalls s)) s).
Proof.
  unfold fireDelayed.
  destruct (establish_fold (filter (isDue (clock s)) (delayedCalls s))
              (set_delayedCalls
                 (filter (fun d => negb (isDue (clock s) d)) (delayedCalls s)) s))
    as [E | (Hidle & d & Hin & E)].
  - left. exact E.
  - right. split; [exact Hidle |]. exists d.
    apply filter_In in Hin. destruct Hin as [Hin Hdue].
    split; [exact Hin |]. split; [| exact E].
    unfold isDue, Rleb in Hdue. destruct (Rle_dec (d_due d) (clock s)); [assumption | discriminate].
Qed.

(** *** What every reachable state satisfies *)

Lemma sound_same (s s' : state) :
  isSpinning s' = isSpinning s ->
  animationTimeline s' = animationTimeline s ->
  ballSyncTween s' = ballSyncTween s ->
  ballFinalAngle s' = ballFinalAngle s ->
  sessions s' = sessions s ->
  notified s' = notified s ->
  sound cfg getAngleForNumber s -> sound cfg getAngleForNumber s'.
Proof. unfold sound. intros -> -> -> -> -> ->. exact (fun H => H). Qed.

Lemma sound_moved (s m : state) :
  moved s m -> sound cfg getAngleForNumber s -> sound cfg getAngleForNumber m.
Proof.
  intros (M1 & M2 & _ & M4 & M5 & _ & _ & _ & M9 & M10 & _).
  now apply sound_same.
Qed.

Lemma sound_sync_idle (s : state) (v : option SyncTween) :
  isSpinning s = false -> v <> Some Spent ->
  sound cfg getAngleForNumber s -> sound cfg getAngleForNumber (set_ballSyncTween v s).
Proof.
  intros Hidle Hv (J1 & J2 & J3 & J4). unfold sound.
  cbn [isSpinning animationTimeline ballSyncTween ballFinalAngle sessions notified
       set_ballSyncTween].
  split; [rewrite Hidle; discriminate |]. split; [exact Hv |]. split; assumption.
Qed.

Lemma sound_init : sound cfg getAngleForNumber (init dim).
Proof.
  unfold sound. cbn. split; [reflexivity |]. split; [discriminate |]. split.
  - intros tl E. discriminate E.
  - exists 0%nat. split; [constructor |]. split; [lia | discriminate].
Qed.

Lemma sound_startSpin index rotation (s : state) :
  sound cfg getAngleForNumber s ->
  sound cfg getAngleForNumber (startSpin cfg getAngleForNumber index rotation s).
Proof.
  intros J.
  assert (isSpinning s = true \/ (index < 0 \/ Config.pocketCount cfg <= index)%Z \/
          isSpinning s = false /\ (0 <= index < Config.pocketCount cfg)%Z)
    as [H | [H | [Hidle Hidx]]] by (destruct (isSpinning s); lia).
  - rewrite engine_startSpin_rejected by (left; exact H). exact J.
  - rewrite engine_startSpin_rejected by (right; exact H). exact J.
  - rewrite (engine_startSpin_state cfg getAngleForNumber index rotation s Hidle Hidx).
    destruct J as (_ & _ & _ & n & Hn & Hle & _).
    unfold sound.
    cbn [isSpinning animationTimeline ballSyncTween ballFinalAngle sessions notified].
    split; [reflexivity |]. split; [discriminate |]. split.
    + intros tl E. injection E as <-.
      cbn [freshTimeline tl_complete tl_done tl_session tl_phase4 negb].
      split; [reflexivity |]. split; [intros _; lia |]. split; [reflexivity |].
      split; [reflexivity |]. exists index, rotation. split; [exact Hidx | reflexivity].
    + exists n. split; [exact Hn |]. split; [lia | intros _; lia].
Qed.

Lemma sound_stopAllAnimations (s : state) :
  sound cfg getAngleForNumber s -> sound cfg getAngleForNumber (stopAllAnimations s).
Proof.
  intros (_ & _ & _ & J4). unfold sound, stopAllAnimations.
  cbn [isSpinning animationTimeline ballSyncTween ballFinalAngle sessions notified
       set_ballSyncTween set_ballTween set_animationTimeline].
  split; [reflexivity |]. split; [discriminate |]. split; [| exact J4].
  intros tl E. discriminate E.
Qed.

Lemma sound_fireDelayed (s : state) :
  sound cfg getAngleForNumber s -> sound cfg getAngleForNumber (fireDelayed getAngleForNumber s).
Proof.
  intros J. destruct (fireDelayed_cases s) as [E | (Hidle & d & _ & _ & E)]; rewrite E.
  - exact J.
  - apply sound_sync_idle; [exact Hidle | discriminate | exact J].
Qed.

Lemma sound_tickTimeline random (s : state) :
  sound cfg getAngleForNumber s -> sound cfg getAngleForNumber (tickTimeline cfg dim random s).
Proof.
  intros J.
  destruct (animationTimeline s) as [tl |] eqn:Htl.
  2:{ unfold tickTimeline. now rewrite Htl. }
  destruct (tl_complete tl) eqn:Hc.
  { unfold tickTimeline. now rewrite Htl, Hc. }
  pose proof J as (J1 & J2 & J3 & n & Hn & Hle & Hlt).
  destruct (J3 tl Htl) as (Hspin & Hdone & Hsession & Hfinal & index & rotation & Hidx & Hc4).
  rewrite Hc in Hspin. cbn [negb] in Hspin. specialize (Hdone Hc).
  destruct (tickTimeline_cases random s tl Htl Hc Hdone)
    as [(m & done & Gm & Hd & _ & E) | (m & Gm & _ & E)]; rewrite E;
    destruct Gm as (M1 & M2 & _ & M4 & M5 & _ & _ & _ & M9 & M10 & _).
  - unfold sound.
    cbn [isSpinning animationTimeline ballSyncTween ballFinalAngle sessions notified
         set_animationTimeline].
    rewrite M1, M4, M5, M9, M10.
    split; [exact J1 |]. split; [exact J2 |]. split.
    + intros tl' E'. injection E' as <-.
      cbn [advanced tl_complete tl_done tl_session tl_phase4 negb].
      split; [exact Hspin |]. split; [intros _; lia |]. split; [exact Hsession |].
      split; [exact Hfinal |]. exists index, rotation. split; assumption.
    + exists n. split; [exact Hn |]. split; [exact Hle | exact Hlt].
  - unfold sound, onSpinComplete, phase4OnComplete, applyUpdate, setPosition.
    cbn [isSpinning animationTimeline ballSyncTween ballFinalAngle sessions notified
         set_animationTimeline set_notified set_isSpinning set_delayedCalls set_writes
         set_ballPosition set_currentBallAngle].
    rewrite M4, M5, M9, M10.
    split; [discriminate |]. split; [exact J2 |]. split.
    + intros tl' E'. injection E' as <-.
      cbn [advanced tl_complete tl_done tl_session tl_phase4 negb].
      split; [reflexivity |]. split; [discriminate |]. split; [exact Hsession |].
      split; [exact Hfinal |]. exists index, rotation. split; assumption.
    + exists (S n). split.
      * rewrite Hc4. cbn [winningIndex executePhase4_CalculatedLanding].
        constructor; assumption.
      * specialize (Hlt Hspin). split; [lia | discriminate].
Qed.

Lemma sound_tickSync rotation (s : state) :
  sound cfg getAngleForNumber s ->
  sound cfg getAngleForNumber (tickSync dim getAngleForNumber power2InOut rotation s).
Proof.
  intros J. pose proof J as (J1 & _). unfold tickSync.
  destruct (ballSyncTween s) as [[session index start local frozen | session index local |] |]
    eqn:Hsync; [| | exact J | exact J].
  - assert (isSpinning s = false) as Hidle
      by (destruct (isSpinning s); [specialize (J1 eq_refl); discriminate | reflexivity]).
    assert (sound cfg getAngleForNumber
              (setPosition session ByBlend
                 (onCircle dim (ballEndRadius dim)
                    (blendedAngle local frozen
                       (power2InOut (Rmin 1 ((clock s - start) / 2))) rotation)) s)) as J'
      by (apply (sound_same s); [reflexivity .. | exact J]).
    destruct (Rleb (start + 2) (clock s)); [| exact J'].
    unfold establishPermanentWheelSync.
    cbn [isSpinning setPosition set_writes set_ballPosition]. rewrite Hidle.
    apply sound_sync_idle; [exact Hidle | discriminate | exact J'].
  - assert (isSpinning s = false) as Hidle
      by (destruct (isSpinning s); [specialize (J1 eq_refl); discriminate | reflexivity]).
    rewrite Hidle. apply (sound_same s); [reflexivity .. | exact J].
Qed.

Lemma sound_step (s : state) (e : event) :
  sound cfg getAngleForNumber s ->
  sound cfg getAngleForNumber (step cfg dim getAngleForNumber power2InOut s e).
Proof.
  intros J. destruct e as [index rotation | | dt rotation random]; cbn [step].
  - now apply sound_startSpin.
  - now apply sound_stopAllAnimations.
  - unfold tick. apply sound_tickSync, sound_tickTimeline, sound_fireDelayed.
    exact J.
Qed.

Lemma reachable_sound (s : state) :
  reachable cfg dim getAngleForNumber power2InOut s -> sound cfg getAngleForNumber s.
Proof.
  induction 1 as [| s e _ IH _]; [apply sound_init | now apply sound_step].
Qed.

Lemma run_sound (es : list event) (s : state) :
  sound cfg getAngleForNumber s ->
  sound cfg getAngleForNumber (run cfg dim getAngleForNumber power2InOut es s).
Proof.
  revert s. induction es as [| e es IH]; intros s J; [exact J |].
  cbn [run fold_left]. apply IH. now apply sound_step.
Qed.

(** *** Frames of a spinning engine *)

(** A frame of an interrupted engine: hand-offs that are due return
    early, and nothing else is left to run. *)
Lemma tick_interrupted dt rotation random (s : state) :
  interrupted s ->
  tick cfg dim getAngleForNumber power2InOut dt rotation random s
  = set_delayedCalls
      (filter (fun d => negb (isDue (clock s + dt) d)) (delayedCalls s))
      (set_clock (clock s + dt) s).
Proof.
  intros (Hspin & Htl & Hsync). unfold tick.
  destruct (fireDelayed_cases (set_clock (clock s + dt) s)) as [E | (Hidle & _)].
  2:{ cbn [isSpinning set_clock] in Hidle. congruence. }
  rewrite E. cbn [clock delayedCalls set_clock].
  unfold tickTimeline. cbn [animationTimeline set_delayedCalls set_clock]. rewrite Htl.
  unfold tickSync. cbn [ballSyncTween set_delayedCalls set_clock]. rewrite Hsync.
  reflexivity.
Qed.

Lemma interrupted_step (s : state) (e : event) :
  interrupted s ->
  interrupted (step cfg dim getAngleForNumber power2InOut s e) /\
  writes (step cfg dim getAngleForNumber power2InOut s e) = writes s /\
  ballPosition (step cfg dim getAngleForNumber power2InOut s e) = ballPosition s /\
  notified (step cfg dim getAngleForNumber power2InOut s e) = notified s /\
  sessions (step cfg dim getAngleForNumber power2InOut s e) = sessions s.
Proof.
  intros J. pose proof J as (Hspin & Htl & Hsync).
  destruct e as [index rotation | | dt rotation random]; cbn [step].
  - rewrite engine_startSpin_rejected by (left; exact Hspin).
    repeat split; assumption.
  - repeat split. exact Hspin.
  - rewrite tick_interrupted by exact J. repeat split; assumption.
Qed.

(** A frame of an engine that spins on a live timeline. *)
Lemma tick_spinning dt rotation random (s : state) (tl : Timeline) :
  isSpinning s = true ->
  ballSyncTween s = None ->
  animationTimeline s = Some tl ->
  tl_complete tl = false ->
  (tl_done tl < 4)%nat ->
  (exists m done,
      moved
        (set_delayedCalls
           (filter (fun d => negb (isDue (clock s + dt) d)) (delayedCalls s))
           (set_clock (clock s + dt) s)) m /\
      (tl_done tl <= done < 4)%nat /\
      (0 <= Config.spinDuration cfg ->
       clock s + dt < tl_start tl + Config.spinDuration cfg) /\
      tick cfg dim getAngleForNumber power2InOut dt rotation random s
      = set_animationTimeline (Some (advanced tl done false)) m)
  \/
  (exists m,
      moved
        (set_delayedCalls
           (filter (fun d => negb (isDue (clock s + dt) d)) (delayedCalls s))
           (set_clock (clock s + dt) s)) m /\
      tl_start tl + Config.spinDuration cfg <= clock s + dt /\
      tick cfg dim getAngleForNumber power2InOut dt rotation random s
      = onSpinComplete (winningIndex (tl_phase4 tl))
          (set_animationTimeline (Some (advanced tl 4 true))
             (phase4OnComplete dim (tl_session tl) (tl_phase4 tl) m))).
Proof.
  intros Hspin Hsync Htl Hrun Hdone. unfold tick.
  destruct (fireDelayed_cases (set_clock (clock s + dt) s)) as [E | (Hidle & _)].
  2:{ cbn [isSpinning set_clock] in Hidle. congruence. }
  rewrite E. cbn [clock delayedCalls set_clock].
  set (s1 := set_delayedCalls _ _).
  destruct (tickTimeline_cases random s1 tl Htl Hrun Hdone)
    as [(m & done & Gm & Hd & Hbefore & E2) | (m & Gm & Hend & E2)]; rewrite E2;
    pose proof Gm as (M1 & _ & _ & M4 & _).
  - left. exists m, done.
    split; [exact Gm |]. split; [exact Hd |]. split; [exact Hbefore |].
    unfold tickSync. cbn [ballSyncTween set_animationTimeline].
    rewrite M4. cbn [s1 ballSyncTween set_delayedCalls set_clock]. rewrite Hsync.
    reflexivity.
  - right. exists m. split; [exact Gm |]. split; [exact Hend |].
    unfold tickSync, onSpinComplete, phase4OnComplete, applyUpdate, setPosition.
    cbn [ballSyncTween set_animationTimeline set_notified set_isSpinning set_delayedCalls
         set_writes set_ballPosition set_currentBallAngle].
    rewrite M4. cbn [s1 ballSyncTween set_delayedCalls set_clock]. rewrite Hsync.
    reflexivity.
Qed.

(** X10: in every state the engine reaches, a synchronisation tween
    exists only while the engine is not spinning, so the [isSpinning]
    guards inside [establishPermanentWheelSync] and inside the follower's
    [onUpdate] are never taken ([ballSyncTween] is never left on a
    finished blend); and a timeline is live exactly while the engine
    spins on it. *)
Theorem synchronisation_only_while_idle (s : state) :
  reachable cfg dim getAngleForNumber power2InOut s ->
  (isSpinning s = true -> ballSyncTween s = None) /\
  ballSyncTween s <> Some Spent /\
  (forall tl, animationTimeline s = Some tl ->
              isSpinning s = negb (tl_complete tl) /\ tl_session tl = sessions s).
Proof.
  intros Hreach. destruct (reachable_sound s Hreach) as (J1 & J2 & J3 & _).
  split; [exact J1 |]. split; [exact J2 |].
  intros tl Htl. destruct (J3 tl Htl) as (H1 & _ & H3 & _). split; assumption.
Qed.

(** X11: whatever the engine is asked to do, its notifications are those
    of whole landings: "ball landed" and then "spin complete", each pair
    for one pocket of the wheel, never more pairs than accepted spins,
    and one fewer at least while a spin is running. *)
Theorem notifications_are_whole_landings (s : state) :
  reachable cfg dim getAngleForNumber power2InOut s ->
  exists n,
    landings cfg (notified s) n /\
    (n <= sessions s)%nat /\
    (isSpinning s = true -> (n < sessions s)%nat).
Proof.
  intros Hreach. destruct (reachable_sound s Hreach) as (_ & _ & _ & J4). exact J4.
Qed.

(** X12: [stopAllAnimations] called during a spin leaves [isSpinning]
    set with nothing left to clear it: whatever follows (frames, spin
    requests, further stops), the engine stays not ready, accepts no spin,
    never moves the ball and notifies nothing. *)
Theorem interrupted_spin_never_recovers (s : state) (es : list event) :
  isSpinning s = true ->
  isSpinning (run cfg dim getAngleForNumber power2InOut es (stopAllAnimations s)) = true /\
  sessions (run cfg dim getAngleForNumber power2InOut es (stopAllAnimations s)) = sessions s /\
  writes (run cfg dim getAngleForNumber power2InOut es (stopAllAnimations s)) = writes s /\
  ballPosition (run cfg dim getAngleForNumber power2InOut es (stopAllAnimations s))
  = ballPosition s /\
  notified (run cfg dim getAngleForNumber power2InOut es (stopAllAnimations s)) = notified s.
Proof.
  intros Hspin.
  assert (interrupted (stopAllAnimations s)) as J by (repeat split; exact Hspin).
  change (sessions s) with (sessions (stopAllAnimations s)).
  change (writes s) with (writes (stopAllAnimations s)).
  change (ballPosition s) with (ballPosition (stopAllAnimations s)).
  change (notified s) with (notified (stopAllAnimations s)).
  generalize dependent (stopAllAnimations s). clear s Hspin.
  induction es as [| e es IH]; intros s J.
  - destruct J as (Hspin & _). repeat split. exact Hspin.
  - cbn [run fold_left].
    destruct (interrupted_step s e J) as (J' & W & P & N & S').
    destruct (IH _ J') as (I1 & I2 & I3 & I4 & I5).
    unfold run in I1, I2, I3, I4, I5.
    repeat split; congruence.
Qed.

(** X14: a spin lasts [spinDuration] seconds whatever the frame pacing:
    while the engine spins on a timeline, a frame before the end of the
    timeline leaves it spinning, and the first frame at or after the end
    completes the spin, however many phases it has to catch up with. *)
Theorem spin_lasts_spinDuration dt rotation' random (s : state) (tl : Timeline) :
  0 <= Config.spinDuration cfg ->
  reachable cfg dim getAngleForNumber power2InOut s ->
  isSpinning s = true ->
  animationTimeline s = Some tl ->
  isSpinning (tick cfg dim getAngleForNumber power2InOut dt rotation' random s)
  = negb (Rleb (tl_start tl + Config.spinDuration cfg) (clock s + dt)).
Proof.
  intros HD Hreach Hspin Htl.
  destruct (reachable_sound s Hreach) as (J1 & _ & J3 & _).
  specialize (J1 Hspin).
  destruct (J3 tl Htl) as (Hlive & Hdone & _).
  rewrite Hspin in Hlive.
  assert (tl_complete tl = false) as Hrun by (destruct (tl_complete tl); [discriminate | reflexivity]).
  specialize (Hdone Hrun).
  unfold Rleb.
  destruct (tick_spinning dt rotation' random s tl Hspin J1 Htl Hrun Hdone)
    as [(m & done & (M1 & _) & _ & Hbefore & E) | (m & _ & Hend & E)]; rewrite E.
  - specialize (Hbefore HD).
    destruct (Rle_dec (tl_start tl + Config.spinDuration cfg) (clock s + dt)); [lra |].
    cbn [isSpinning set_animationTimeline negb]. rewrite M1. exact Hspin.
  - destruct (Rle_dec (tl_start tl + Config.spinDuration cfg) (clock s + dt)); [| lra].
    reflexivity.
Qed.

(** *** A whole spin *)

Lemma Rleb_false (a b : R) : b < a -> Rleb a b = false.
Proof. intros H. unfold Rleb. destruct (Rle_dec a b); [lra | reflexivity]. Qed.

Lemma run_cons (e : event) (es : list event) (s : state) :
  run cfg dim getAngleForNumber power2InOut (e :: es) s
  = run cfg dim getAngleForNumber power2InOut es
      (step cfg dim getAngleForNumber power2InOut s e).
Proof. reflexivity. Qed.

Lemma run_app (es1 es2 : list event) (s : state) :
  run cfg dim getAngleForNumber power2InOut (es1 ++ es2) s
  = run cfg dim getAngleForNumber power2InOut es2
      (run cfg dim getAngleForNumber power2InOut es1 s).
Proof. unfold run. apply fold_left_app. Qed.

Lemma elapsed_nonneg (fs : list Frame) :
  Forall (fun f => 0 < f_dt f) fs -> 0 <= elapsed fs.
Proof.
  induction 1 as [| f fs Hf _ IH]; cbn [elapsed fold_right]; [lra |].
  fold (elapsed fs). lra.
Qed.

(** Frames that stay before the end of the timeline leave the engine
    spinning on it and notify nothing. *)
Lemma frames_before_the_end (tl : Timeline) (fs : list Frame) (s : state) :
  isSpinning s = true ->
  ballSyncTween s = None ->
  (exists done, (done < 4)%nat /\ animationTimeline s = Some (advanced tl done false)) ->
  Forall (fun f => 0 < f_dt f) fs ->
  clock s + elapsed fs < tl_start tl + Config.spinDuration cfg ->
  isSpinning (run cfg dim getAngleForNumber power2InOut (map frameEvent fs) s) = true /\
  ballSyncTween (run cfg dim getAngleForNumber power2InOut (map frameEvent fs) s) = None /\
  (exists done,
      (done < 4)%nat /\
      animationTimeline (run cfg dim getAngleForNumber power2InOut (map frameEvent fs) s)
      = Some (advanced tl done false)) /\
  clock (run cfg dim getAngleForNumber power2InOut (map frameEvent fs) s)
  = clock s + elapsed fs /\
  notified (run cfg dim getAngleForNumber power2InOut (map frameEvent fs) s) = notified s.
Proof.
  revert s. induction fs as [| f fs IH]; intros s Hspin Hsync (done & Hdone & Htl) Hfs Hend.
  - cbn [map run fold_left elapsed fold_right].
    split; [exact Hspin |]. split; [exact Hsync |]. split; [eauto |].
    split; [lra | reflexivity].
  - inversion Hfs as [| ? ? Hf Hrest]; subst.
    cbn [elapsed fold_right] in Hend. fold (elapsed fs) in Hend.
    pose proof (elapsed_nonneg fs Hrest) as Hpos.
    cbn [map]. rewrite run_cons.
    change (frameEvent f) with (Tick (f_dt f) (f_rotation f) (f_random f)). cbn [step].
    destruct (tick_spinning (f_dt f) (f_rotation f) (f_random f) s
                (advanced tl done false) Hspin Hsync Htl eq_refl Hdone)
      as [(m & done' & Gm & Hd' & _ & E) | (m & _ & Hlate & _)].
    2:{ cbn [advanced tl_start] in Hlate. lra. }
    destruct Gm as (M1 & _ & _ & M4 & _ & _ & M7 & _ & _ & M10 & _).
    cbn [isSpinning ballSyncTween clock notified set_delayedCalls set_clock]
      in M1, M4, M7, M10.
    rewrite E.
    destruct (IH (set_animationTimeline
                    (Some (advanced (advanced tl done false) done' false)) m))
      as (I1 & I2 & I3 & I4 & I5).
    + cbn [isSpinning set_animationTimeline]. congruence.
    + cbn [ballSyncTween set_animationTimeline]. congruence.
    + exists done'. split; [lia | reflexivity].
    + exact Hrest.
    + cbn [clock set_animationTimeline]. rewrite M7. lra.
    + split; [exact I1 |]. split; [exact I2 |]. split; [exact I3 |].
      cbn [clock notified set_animationTimeline] in I4, I5.
      cbn [elapsed fold_right]. fold (elapsed fs).
      split; [rewrite I4, M7; lra | congruence].
Qed.

(** From the start of a spin to its end: frames that stay short of
    [spinDuration] leave the engine spinning and notify nothing; the
    first frame that reaches it snaps the ball on the landing point and
    notifies the landing and the end of the spin. *)
Lemma whole_spin index rotation (s : state) (fs : list Frame) (f : Frame) :
  isSpinning s = false ->
  (0 <= index < Config.pocketCount cfg)%Z ->
  0 <= Config.spinDuration cfg ->
  Forall (fun f => 0 < f_dt f) fs ->
  elapsed fs < Config.spinDuration cfg ->
  Config.spinDuration cfg <= elapsed fs + f_dt f ->
  isSpinning
    (run cfg dim getAngleForNumber power2InOut (map frameEvent fs)
       (startSpin cfg getAngleForNumber index rotation s)) = true /\
  notified
    (run cfg dim getAngleForNumber power2InOut (map frameEvent fs)
       (startSpin cfg getAngleForNumber index rotation s)) = notified s /\
  isSpinning
    (run cfg dim getAngleForNumber power2InOut (map frameEvent (fs ++ [f]))
       (startSpin cfg getAngleForNumber index rotation s)) = false /\
  ballPosition
    (run cfg dim getAngleForNumber power2InOut (map frameEvent (fs ++ [f]))
       (startSpin cfg getAngleForNumber index rotation s))
  = onCircle dim (ballEndRadius dim) (landingAngle cfg getAngleForNumber index rotation) /\
  currentBallAngle
    (run cfg dim getAngleForNumber power2InOut (map frameEvent (fs ++ [f]))
       (startSpin cfg getAngleForNumber index rotation s))
  = landingAngle cfg getAngleForNumber index rotation /\
  notified
    (run cfg dim getAngleForNumber power2InOut (map frameEvent (fs ++ [f]))
       (startSpin cfg getAngleForNumber index rotation s))
  = SpinComplete index :: BallLanded index :: notified s.
Proof.
  intros Hidle Hidx HD Hfs Hshort Hreach.
  pose proof (engine_startSpin_state cfg getAngleForNumber index rotation s Hidle Hidx) as E0.
  set (s0 := startSpin cfg getAngleForNumber index rotation s) in *.
  set (tl := freshTimeline cfg getAngleForNumber index rotation s).
  assert (isSpinning s0 = true) as Hspin0 by (rewrite E0; reflexivity).
  assert (ballSyncTween s0 = None) as Hsync0 by (rewrite E0; reflexivity).
  assert (animationTimeline s0 = Some (advanced tl 0 false)) as Htl0
    by (rewrite E0; reflexivity).
  assert (clock s0 = clock s) as Hclock0 by (rewrite E0; reflexivity).
  assert (notified s0 = notified s) as Hnotified0 by (rewrite E0; reflexivity).
  destruct (frames_before_the_end tl fs s0 Hspin0 Hsync0) as (I1 & I2 & (done & Hdone & I3) & I4 & I5).
  { exists 0%nat. split; [lia | exact Htl0]. }
  { exact Hfs. }
  { rewrite Hclock0. cbn [tl freshTimeline tl_start]. lra. }
  split; [exact I1 |]. split; [congruence |].
  rewrite map_app, run_app. cbn [map].
  change (frameEvent f) with (Tick (f_dt f) (f_rotation f) (f_random f)).
  rewrite run_cons. cbn [step run fold_left].
  set (s1 := run cfg dim getAngleForNumber power2InOut (map frameEvent fs) s0) in *.
  destruct (tick_spinning (f_dt f) (f_rotation f) (f_random f) s1
              (advanced tl done false) I1 I2 I3 eq_refl Hdone)
    as [(m & done' & _ & _ & Hbefore & _) | (m & Gm & _ & E)].
  { specialize (Hbefore HD). cbn [advanced tl tl_start freshTimeline] in Hbefore.
    rewrite I4, Hclock0 in Hbefore. lra. }
  destruct Gm as (_ & _ & _ & _ & _ & _ & _ & _ & _ & M10 & _).
  cbn [notified set_delayedCalls set_clock] in M10.
  rewrite E. unfold onSpinComplete, phase4OnComplete, applyUpdate, setPosition.
  cbn [isSpinning ballPosition currentBallAngle notified
       set_animationTimeline set_notified set_isSpinning set_delayedCalls set_writes
       set_ballPosition set_currentBallAngle
       phase4Complete u_position u_currentBallAngle advanced tl_phase4 tl freshTimeline
       winningIndex executePhase4_CalculatedLanding].
  rewrite M10, I5, Hnotified0.
  split; [reflexivity |]. split; [reflexivity |]. split; reflexivity.
Qed.

(** Phase 4 spans the last [phase4Length] seconds of the timeline: once
    the first three phases are done, a frame at timeline time [t] in that
    span renders the update of phase 4 at progress
    [(t - (spinDuration - phase4Length)) / phase4Length]. *)
Lemma tickTimeline_in_phase4 random (s : state) (tl : Timeline) :
  animationTimeline s = Some tl ->
  tl_complete tl = false ->
  tl_done tl = 3%nat ->
  0 < Config.spinDuration cfg ->
  Config.spinDuration cfg - phase4Length cfg <= clock s - tl_start tl
  < Config.spinDuration cfg ->
  tickTimeline cfg dim random s
  = set_animationTimeline (Some (advanced tl 3 false))
      (applyUpdate (tl_session tl) ByPhase4
         (phase4Update dim (tl_phase4 tl) (currentBallAngle s)
            ((clock s - tl_start tl - (Config.spinDuration cfg - phase4Length cfg))
             / phase4Length cfg)) s).
Proof.
  intros Htl Hrun Hdone HD Ht. unfold tickTimeline. rewrite Htl, Hrun, Hdone.
  unfold phase4Length, phase4Share in *.
  set (D := Config.spinDuration cfg) in *.
  set (t := clock s - tl_start tl) in *.
  unfold runPhase. cbn [Nat.eqb andb].
  rewrite (Rleb_true (D * (80 / 100)) t) by lra.
  rewrite (Rleb_false (D * (80 / 100) + D * (20 / 100)) t) by lra.
  cbn [Nat.eqb].
  assert (Rmin 1 ((t - D * (80 / 100)) / (D * (20 / 100)))
          = (t - (D - D * (20 / 100))) / (D * (20 / 100))) as ->.
  { replace ((t - D * (80 / 100)) / (D * (20 / 100)))
      with ((t - (D - D * (20 / 100))) / (D * (20 / 100))) by (field; lra).
    apply Rmin_right. apply Rlt_le.
    apply Rmult_lt_reg_r with (D * (20 / 100)); [lra |].
    unfold Rdiv. rewrite Rmult_assoc, Rinv_l by lra. lra. }
  reflexivity.
Qed.

(** *** The hand-off *)

(** The delay of the synchronisation hand-off is shorter than a spin. *)
Hypothesis delay_lt_spin : 4 / 10 < Config.spinDuration cfg.

Lemma nothing_in (A : Type) (l : list A) : (forall a, In a l -> False) -> l = [].
Proof.
  destruct l as [| a l]; [reflexivity |].
  intros H. destruct (H a). left. reflexivity.
Qed.

Lemma filter_at_most_one (A : Type) (f : A -> bool) (l : list A) :
  (length l <= 1)%nat -> (length (filter f l) <= 1)%nat.
Proof.
  destruct l as [| a [| b l]]; cbn; try lia.
  destruct (f a); cbn; lia.
Qed.

Lemma only_one (A : Type) (a : A) (l : list A) :
  (length l <= 1)%nat -> In a l -> l = [a].
Proof.
  destruct l as [| b [| c l]]; cbn; intros Hl H.
  - destruct H.
  - destruct H as [-> | []]. reflexivity.
  - lia.
Qed.

(** The timeline of an engine that does not spin has nothing to render. *)
Lemma tickTimeline_idle random (s : state) :
  sound cfg getAngleForNumber s -> isSpinning s = false ->
  tickTimeline cfg dim random s = s.
Proof.
  intros (_ & _ & J3 & _) Hidle. unfold tickTimeline.
  destruct (animationTimeline s) as [tl |] eqn:Htl; [| reflexivity].
  destruct (J3 tl eq_refl) as (Hlive & _). rewrite Hidle in Hlive.
  destruct (tl_complete tl); [reflexivity | discriminate].
Qed.

(** A frame of the synchronisation tween of an engine that does not spin:
    it writes positions and, at most, turns the blend into the follower
    of the same pocket. *)
Lemma tickSync_idle rotation (s : state) :
  isSpinning s = false ->
  isSpinning (tickSync dim getAngleForNumber power2InOut rotation s) = false /\
  animationTimeline (tickSync dim getAngleForNumber power2InOut rotation s)
  = animationTimeline s /\
  delayedCalls (tickSync dim getAngleForNumber power2InOut rotation s) = delayedCalls s /\
  ballFinalAngle (tickSync dim getAngleForNumber power2InOut rotation s) = ballFinalAngle s /\
  notified (tickSync dim getAngleForNumber power2InOut rotation s) = notified s /\
  (ballSyncTween s = None ->
   tickSync dim getAngleForNumber power2InOut rotation s = s) /\
  (ballSyncTween (tickSync dim getAngleForNumber power2InOut rotation s) = ballSyncTween s
   \/
   exists session index start local frozen,
     ballSyncTween s = Some (Blend session index start local frozen) /\
     ballSyncTween (tickSync dim getAngleForNumber power2InOut rotation s)
     = Some (Lock session index (getAngleForNumber index))).
Proof.
  intros Hidle. unfold tickSync.
  destruct (ballSyncTween s) as [[session index start local frozen | session index local |] |]
    eqn:Hsync.
  - unfold establishPermanentWheelSync.
    cbn [isSpinning setPosition set_writes set_ballPosition]. rewrite Hidle.
    destruct (Rleb (start + 2) (clock s)); cbn; rewrite ?Hidle, ?Hsync;
      (repeat split; [discriminate |]).
    + right. exists session, index, start, local, frozen. split; reflexivity.
    + left. reflexivity.
  - rewrite Hidle. cbn. rewrite Hidle, Hsync.
    repeat split; [discriminate | left; reflexivity].
  - rewrite Hidle, Hsync. repeat split. left. reflexivity.
  - rewrite Hidle, Hsync. repeat split. left. reflexivity.
Qed.

Lemma tidy_init : tidy cfg getAngleForNumber dim (init dim).
Proof.
  split; [discriminate |]. intros _. cbn.
  split; [lia |]. split; [intros d [] |]. split; intros; discriminate.
Qed.

Lemma tidy_startSpin index rotation (s : state) :
  dueSoon s -> tidy cfg getAngleForNumber dim s ->
  tidy cfg getAngleForNumber dim (startSpin cfg getAngleForNumber index rotation s).
Proof.
  intros Hdue J.
  assert (isSpinning s = true \/ (index < 0 \/ Config.pocketCount cfg <= index)%Z \/
          isSpinning s = false /\ (0 <= index < Config.pocketCount cfg)%Z)
    as [H | [H | [Hidle Hidx]]] by (destruct (isSpinning s); lia).
  - rewrite engine_startSpin_rejected by (left; exact H). exact J.
  - rewrite engine_startSpin_rejected by (right; exact H). exact J.
  - rewrite (engine_startSpin_state cfg getAngleForNumber index rotation s Hidle Hidx).
    split; [| discriminate].
    cbn [isSpinning animationTimeline delayedCalls]. intros _ tl d E Hin.
    injection E as <-. cbn [freshTimeline tl_start].
    unfold dueSoon in Hdue. rewrite Forall_forall in Hdue. specialize (Hdue d Hin). lra.
Qed.

Lemma tidy_stopAllAnimations (s : state) :
  tidy cfg getAngleForNumber dim s -> tidy cfg getAngleForNumber dim (stopAllAnimations s).
Proof.
  intros (J1 & J2). unfold tidy, stopAllAnimations.
  cbn [isSpinning animationTimeline ballSyncTween ballFinalAngle ballPosition delayedCalls
       set_ballSyncTween set_ballTween set_animationTimeline].
  split; [intros _ tl d E; discriminate E |].
  intros Hidle. destruct (J2 Hidle) as (L & A & _).
  split; [exact L |]. split; [| split; intros; discriminate].
  intros d Hin. destruct (A d Hin) as (_ & P & N). repeat split; assumption.
Qed.

Lemma tidy_tick dt rotation random (s : state) :
  sound cfg getAngleForNumber s ->
  tidy cfg getAngleForNumber dim s ->
  tidy cfg getAngleForNumber dim
    (tick cfg dim getAngleForNumber power2InOut dt rotation random s).
Proof.
  intros Hsound (J1 & J2).
  assert (isSpinning s = true \/ isSpinning s = false) as [Hspin | Hidle]
    by (destruct (isSpinning s); auto).
  - (* the engine spins *)
    pose proof Hsound as (S1 & _ & S3 & _). specialize (S1 Hspin). specialize (J1 Hspin).
    destruct (animationTimeline s) as [tl |] eqn:Htl.
    2:{ rewrite tick_interrupted by (repeat split; assumption).
        split.
        - intros _ tl d E.
          cbn [animationTimeline set_delayedCalls set_clock] in E. congruence.
        - cbn [isSpinning set_delayedCalls set_clock]. congruence. }
    destruct (S3 tl eq_refl) as (Hlive & Hdone & _ & Hfinal & _).
    rewrite Hspin in Hlive.
    assert (tl_complete tl = false) as Hrun
      by (destruct (tl_complete tl); [discriminate | reflexivity]).
    specialize (Hdone Hrun).
    destruct (tick_spinning dt rotation random s tl Hspin S1 Htl Hrun Hdone)
      as [(m & done & Gm & _ & _ & E) | (m & Gm & Hend & E)]; rewrite E;
      destruct Gm as (M1 & _ & _ & M4 & M5 & _ & _ & M8 & _ & M10 & _);
      cbn [isSpinning animationTimeline ballSyncTween ballFinalAngle delayedCalls notified
           set_delayedCalls set_clock] in M1, M4, M5, M8, M10.
    + split.
      * cbn [isSpinning animationTimeline delayedCalls set_animationTimeline].
        intros _ tl' d E' Hin. injection E' as <-. cbn [advanced tl_start].
        rewrite M8 in Hin. apply filter_In in Hin. destruct Hin as [Hin _].
        now apply (J1 tl d).
      * cbn [isSpinning set_animationTimeline]. congruence.
    + assert (delayedCalls m = []) as Hnone.
      { rewrite M8. apply nothing_in. intros d Hin.
        apply filter_In in Hin. destruct Hin as [Hin Hnot].
        specialize (J1 tl d eq_refl Hin).
        unfold isDue, Rleb in Hnot.
        destruct (Rle_dec (d_due d) (clock s + dt)); [discriminate | lra]. }
      unfold tidy, onSpinComplete, phase4OnComplete, applyUpdate, setPosition.
      cbn [isSpinning animationTimeline ballSyncTween ballFinalAngle ballPosition
           delayedCalls notified lastLanded
           set_animationTimeline set_notified set_isSpinning set_delayedCalls set_writes
           set_ballPosition set_currentBallAngle phase4Complete u_position].
      split; [discriminate |]. intros _.
      rewrite Hnone, M4, M5, S1, Hfinal. cbn [app length].
      split; [lia |]. split; [| split; intros; discriminate].
      intros d [<- | []]. cbn [d_index].
      split; [reflexivity |]. split; [reflexivity |].
      unfold lastLanded.
      cbn [notified set_animationTimeline set_notified set_isSpinning set_delayedCalls
           set_writes set_ballPosition set_currentBallAngle].
      eexists. reflexivity.
  - (* the engine does not spin *)
    destruct (J2 Hidle) as (L & A & B & C).
    unfold tick.
    set (s0 := set_clock (clock s + dt) s).
    assert (sound cfg getAngleForNumber (fireDelayed getAngleForNumber s0)) as Hsound1
      by (apply sound_fireDelayed; exact Hsound).
    assert (exists s1,
               fireDelayed getAngleForNumber s0 = s1 /\
               isSpinning s1 = false /\
               ballFinalAngle s1 = ballFinalAngle s /\
               notified s1 = notified s /\
               (length (delayedCalls s1) <= 1)%nat /\
               (forall d, In d (delayedCalls s1) ->
                          ballSyncTween s1 = None /\
                          ballPosition s1 = onCircle dim (ballEndRadius dim) (ballFinalAngle s) /\
                          lastLanded s (d_index d)) /\
               (forall session index start local frozen,
                   ballSyncTween s1 = Some (Blend session index start local frozen) ->
                   local = getAngleForNumber index /\ frozen = ballFinalAngle s /\
                   lastLanded s index) /\
               (forall session index local,
                   ballSyncTween s1 = Some (Lock session index local) ->
                   local = getAngleForNumber index /\ lastLanded s index))
      as (s1 & E1 & Hidle1 & F1 & N1 & L1 & A1 & B1 & C1).
    { destruct (fireDelayed_cases s0) as [E | (_ & d & Hin & Hdue & E)];
        cbn [s0 clock delayedCalls ballFinalAngle set_clock] in *;
        eexists; (split; [exact E |]);
        cbn [isSpinning ballFinalAngle notified delayedCalls ballSyncTween ballPosition
             set_ballSyncTween set_delayedCalls set_clock].
      - split; [exact Hidle |]. split; [reflexivity |]. split; [reflexivity |].
        split; [now apply filter_at_most_one |]. split; [| split; assumption].
        intros d Hin. apply filter_In in Hin. destruct Hin as [Hin _]. now apply A.
      - destruct (A d Hin) as (_ & _ & N).
        rewrite (only_one _ d _ L Hin). cbn [filter].
        assert (isDue (clock s + dt) d = true) as ->
          by (unfold isDue; now apply Rleb_true).
        cbn [negb length].
        split; [exact Hidle |]. split; [reflexivity |]. split; [reflexivity |].
        split; [lia |]. split; [intros d' [] |]. split.
        + intros session index start local frozen E'. injection E' as <- <- _ <- <-.
          repeat split. exact N.
        + intros; discriminate. }
    rewrite E1 in *.
    rewrite (tickTimeline_idle random s1 Hsound1 Hidle1).
    destruct (tickSync_idle rotation s1 Hidle1) as (T1 & _ & T3 & T4 & T5 & T6 & T7).
    split; [congruence |]. intros _.
    unfold lastLanded in *. rewrite T3, T4, T5, F1, N1.
    split; [exact L1 |].
    split.
    { intros d Hin. destruct (A1 d Hin) as (Hnone & P & N).
      rewrite (T6 Hnone). repeat split; assumption. }
    destruct T7 as [T7 | (session & index & start & local & frozen & Hblend & Hlock)].
    { rewrite T7. split; assumption. }
    rewrite Hlock. split; [intros; discriminate |].
    intros session' index' local' E'. injection E' as <- <- <-.
    split; [reflexivity |].
    destruct (B1 _ _ _ _ _ Hblend) as (_ & _ & N). exact N.
Qed.

Lemma reachable_tidy (s : state) :
  reachable cfg dim getAngleForNumber power2InOut s -> tidy cfg getAngleForNumber dim s.
Proof.
  induction 1 as [| s e Hreach IH Hv]; [apply tidy_init |].
  destruct e as [index rotation | | dt rotation random]; cbn [step].
  - apply tidy_startSpin; [| exact IH].
    exact (Sessions.reachable_dueSoon cfg dim getAngleForNumber power2InOut s Hreach).
  - now apply tidy_stopAllAnimations.
  - apply tidy_tick; [| exact IH]. now apply reachable_sound.
Qed.

(** The frame that ends a spin, for an engine in a sound state. *)
Lemma tick_lands dt rotation' random (s : state) :
  sound cfg getAngleForNumber s ->
  isSpinning s = true ->
  isSpinning (tick cfg dim getAngleForNumber power2InOut dt rotation' random s) = false ->
  exists tl index rotation,
    animationTimeline s = Some tl /\
    (0 <= index < Config.pocketCount cfg)%Z /\
    tl_phase4 tl = executePhase4_CalculatedLanding cfg getAngleForNumber index rotation /\
    ballPosition (tick cfg dim getAngleForNumber power2InOut dt rotation' random s)
    = onCircle dim (ballEndRadius dim) (landingAngle cfg getAngleForNumber index rotation) /\
    currentBallAngle (tick cfg dim getAngleForNumber power2InOut dt rotation' random s)
    = landingAngle cfg getAngleForNumber index rotation /\
    ballFinalAngle (tick cfg dim getAngleForNumber power2InOut dt rotation' random s)
    = landingAngle cfg getAngleForNumber index rotation /\
    notified (tick cfg dim getAngleForNumber power2InOut dt rotation' random s)
    = SpinComplete index :: BallLanded index :: notified s /\
    ballSyncTween (tick cfg dim getAngleForNumber power2InOut dt rotation' random s) = None /\
    In (handOff (tl_session tl) (clock s + dt) index)
       (delayedCalls (tick cfg dim getAngleForNumber power2InOut dt rotation' random s)).
Proof.
  intros (J1 & _ & J3 & _) Hspin Hends.
  specialize (J1 Hspin).
  destruct (animationTimeline s) as [tl |] eqn:Htl.
  2:{ rewrite tick_interrupted in Hends by (repeat split; assumption).
      cbn [isSpinning set_delayedCalls set_clock] in Hends. congruence. }
  destruct (J3 tl eq_refl) as (Hlive & Hdone & _ & Hfinal & index & rotation & Hidx & Hc).
  rewrite Hspin in Hlive.
  assert (tl_complete tl = false) as Hrun by (destruct (tl_complete tl); [discriminate | reflexivity]).
  specialize (Hdone Hrun).
  destruct (tick_spinning dt rotation' random s tl Hspin J1 Htl Hrun Hdone)
    as [(m & done & (M1 & _) & _ & _ & E) | (m & Gm & _ & E)].
  { rewrite E in Hends. cbn [isSpinning set_animationTimeline] in Hends.
    rewrite M1 in Hends. cbn [isSpinning set_delayedCalls set_clock] in Hends. congruence. }
  exists tl, index, rotation. split; [reflexivity |]. split; [exact Hidx |].
  split; [exact Hc |].
  destruct Gm as (_ & _ & _ & M4 & M5 & _ & M7 & M8 & _ & M10 & _).
  rewrite E. unfold onSpinComplete, phase4OnComplete, applyUpdate, setPosition.
  cbn [ballPosition currentBallAngle ballFinalAngle notified ballSyncTween delayedCalls clock
       set_animationTimeline set_notified set_isSpinning set_delayedCalls set_writes
       set_ballPosition set_currentBallAngle set_clock
       phase4Complete u_position u_currentBallAngle] in *.
  rewrite M4, M5, M7, M10, Hfinal, Hc.
  cbn [winningIndex executePhase4_CalculatedLanding].
  rewrite !targetBallAngle_landingAngle.
  repeat split; try assumption.
  apply in_or_app. right. left. reflexivity.
Qed.

(** A frame advances the clock by its length. *)
Lemma tick_clock dt rotation random (s : state) :
  clock (tick cfg dim getAngleForNumber power2InOut dt rotation random s) = clock s + dt.
Proof.
  unfold tick.
  destruct (Sessions.tickSync_spec dim getAngleForNumber power2InOut rotation
              (tickTimeline cfg dim random
                 (fireDelayed getAngleForNumber (set_clock (clock s + dt) s))))
    as (_ & _ & C3 & _).
  destruct (Sessions.tickTimeline_summary cfg dim random
              (fireDelayed getAngleForNumber (set_clock (clock s + dt) s)))
    as (C2 & _).
  destruct (Sessions.fireDelayed_spec getAngleForNumber (set_clock (clock s + dt) s))
    as (_ & _ & C1 & _).
  rewrite C3, C2, C1. reflexivity.
Qed.

(** The frame in which the pending hand-off of an engine that does not
    spin comes due. *)
Lemma tick_hands_off dt rotation random (s : state) (d : Delayed) :
  power2InOut 0 = 0 ->
  sound cfg getAngleForNumber s ->
  tidy cfg getAngleForNumber dim s ->
  isSpinning s = false ->
  In d (delayedCalls s) ->
  d_due d <= clock s + dt ->
  lastLanded s (d_index d) /\
  ballPosition s = onCircle dim (ballEndRadius dim) (ballFinalAngle s) /\
  ballPosition (tick cfg dim getAngleForNumber power2InOut dt rotation random s)
  = ballPosition s /\
  ballSyncTween (tick cfg dim getAngleForNumber power2InOut dt rotation random s)
  = Some (Blend (d_session d) (d_index d) (clock s + dt)
            (getAngleForNumber (d_index d)) (ballFinalAngle s)) /\
  delayedCalls (tick cfg dim getAngleForNumber power2InOut dt rotation random s) = [] /\
  isSpinning (tick cfg dim getAngleForNumber power2InOut dt rotation random s) = false.
Proof.
  intros Hease Hsound (_ & J2) Hidle Hin Hdue.
  destruct (J2 Hidle) as (L & A & _). destruct (A d Hin) as (Hnone & P & N).
  pose proof (only_one _ d _ L Hin) as Hone.
  split; [exact N |]. split; [exact P |].
  unfold tick, fireDelayed. cbn [clock delayedCalls set_clock]. rewrite Hone.
  cbn [filter].
  assert (isDue (clock s + dt) d = true) as -> by (unfold isDue; now apply Rleb_true).
  cbn [negb fold_left]. unfold establishSmoothWheelSync.
  cbn [isSpinning clock ballFinalAngle set_delayedCalls set_clock]. rewrite Hidle.
  set (s1 := set_ballSyncTween _ _).
  assert (sound cfg getAngleForNumber s1) as Hsound1
    by (apply sound_sync_idle; [exact Hidle | discriminate | exact Hsound]).
  rewrite (tickTimeline_idle random s1 Hsound1 Hidle).
  unfold tickSync.
  cbn [s1 ballSyncTween clock set_ballSyncTween set_delayedCalls set_clock].
  replace ((clock s + dt - (clock s + dt)) / 2) with 0 by field.
  assert (Rmin 1 0 = 0) as -> by (unfold Rmin; destruct (Rle_dec 1 0); lra).
  rewrite Hease.
  assert (Rleb (clock s + dt + 2) (clock s + dt) = false) as ->
    by (unfold Rleb; destruct (Rle_dec (clock s + dt + 2) (clock s + dt)); [lra | reflexivity]).
  cbn [ballPosition ballSyncTween delayedCalls isSpinning setPosition set_writes
       set_ballPosition set_ballSyncTween set_delayedCalls set_clock].
  split; [| repeat split; exact Hidle].
  rewrite P. f_equal. unfold blendedAngle. ring.
Qed.

(** A frame of the blend of an engine in a sound state. *)
Lemma tick_blend dt rotation random (s : state) session index start local frozen :
  sound cfg getAngleForNumber s ->
  tidy cfg getAngleForNumber dim s ->
  ballSyncTween s = Some (Blend session index start local frozen) ->
  isSpinning (tick cfg dim getAngleForNumber power2InOut dt rotation random s) = false /\
  ballPosition (tick cfg dim getAngleForNumber power2InOut dt rotation random s)
  = onCircle dim (ballEndRadius dim)
      (blendedAngle (getAngleForNumber index) (ballFinalAngle s)
         (power2InOut (Rmin 1 ((clock s + dt - start) / 2))) rotation) /\
  ballSyncTween (tick cfg dim getAngleForNumber power2InOut dt rotation random s)
  = if Rleb (start + 2) (clock s + dt)
    then Some (Lock session index (getAngleForNumber index))
    else Some (Blend session index start local frozen).
Proof.
  intros Hsound (_ & J2) Hsync.
  pose proof Hsound as (S1 & _).
  assert (isSpinning s = false) as Hidle
    by (destruct (isSpinning s); [specialize (S1 eq_refl); congruence | reflexivity]).
  destruct (J2 Hidle) as (_ & A & B & _).
  destruct (B _ _ _ _ _ Hsync) as (-> & -> & _).
  assert (delayedCalls s = []) as Hnone.
  { apply nothing_in. intros d Hin. destruct (A d Hin) as (Hn & _). congruence. }
  unfold tick, fireDelayed. cbn [clock delayedCalls set_clock]. rewrite Hnone.
  cbn [filter fold_left].
  set (s1 := set_delayedCalls _ _).
  rewrite (tickTimeline_idle random s1 Hsound Hidle).
  unfold tickSync. cbn [s1 ballSyncTween clock set_delayedCalls set_clock]. rewrite Hsync.
  unfold establishPermanentWheelSync.
  cbn [isSpinning setPosition set_writes set_ballPosition].
  change (isSpinning s1) with (isSpinning s). rewrite Hidle.
  destruct (Rleb (start + 2) (clock s + dt)); repeat split;
    first [exact Hidle | exact Hsync].
Qed.


(** X13: whenever a frame ends a spin, the ball is on the landing point
    of the pocket and wheel rotation the spin was started with: on the end
    radius, at the pocket's angle carried by the predicted wheel rotation;
    the tracked angle is that angle, "ball landed" and "spin complete" are
    notified for that pocket, no synchronisation tween is running yet, and
    the hand-off is scheduled 0.4 s later. *)
Theorem spin_ends_on_its_pocket dt rotation' random (s : state) :
  reachable cfg dim getAngleForNumber power2InOut s ->
  isSpinning s = true ->
  isSpinning (tick cfg dim getAngleForNumber power2InOut dt rotation' random s) = false ->
  exists tl index rotation,
    animationTimeline s = Some tl /\
    (0 <= index < Config.pocketCount cfg)%Z /\
    tl_phase4 tl = executePhase4_CalculatedLanding cfg getAngleForNumber index rotation /\
    ballPosition (tick cfg dim getAngleForNumber power2InOut dt rotation' random s)
    = onCircle dim (ballEndRadius dim) (landingAngle cfg getAngleForNumber index rotation) /\
    currentBallAngle (tick cfg dim getAngleForNumber power2InOut dt rotation' random s)
    = landingAngle cfg getAngleForNumber index rotation /\
    ballFinalAngle (tick cfg dim getAngleForNumber power2InOut dt rotation' random s)
    = landingAngle cfg getAngleForNumber index rotation /\
    notified (tick cfg dim getAngleForNumber power2InOut dt rotation' random s)
    = SpinComplete index :: BallLanded index :: notified s /\
    ballSyncTween (tick cfg dim getAngleForNumber power2InOut dt rotation' random s) = None /\
    In (handOff (tl_session tl) (clock s + dt) index)
       (delayedCalls (tick cfg dim getAngleForNumber power2InOut dt rotation' random s)).
Proof.
  intros Hreach. apply tick_lands. now apply reachable_sound.
Qed.


(** X15: the frame in which the hand-off comes due does not move the
    ball: from any state the engine reaches without spinning, the blend
    created by a due hand-off starts from [ballFinalAngle], which is where
    the ball has rested since it landed, aims at the pocket of the last
    landing notified, and its first update (easing 0 at 0) writes the
    point the ball is on; nothing is left pending. *)
Theorem hand_off_starts_where_the_ball_landed dt rotation random (s : state) (d : Delayed) :
  power2InOut 0 = 0 ->
  reachable cfg dim getAngleForNumber power2InOut s ->
  isSpinning s = false ->
  In d (delayedCalls s) ->
  d_due d <= clock s + dt ->
  lastLanded s (d_index d) /\
  ballPosition s = onCircle dim (ballEndRadius dim) (ballFinalAngle s) /\
  ballPosition (tick cfg dim getAngleForNumber power2InOut dt rotation random s)
  = ballPosition s /\
  ballSyncTween (tick cfg dim getAngleForNumber power2InOut dt rotation random s)
  = Some (Blend (d_session d) (d_index d) (clock s + dt)
            (getAngleForNumber (d_index d)) (ballFinalAngle s)) /\
  delayedCalls (tick cfg dim getAngleForNumber power2InOut dt rotation random s) = [] /\
  isSpinning (tick cfg dim getAngleForNumber power2InOut dt rotation random s) = false.
Proof.
  intros Hease Hreach.
  apply tick_hands_off; [exact Hease | now apply reachable_sound | now apply reachable_tidy].
Qed.

(** X16: a blend the engine has reached runs undisturbed: each frame
    writes the ball on the end radius at the angle blended between
    [ballFinalAngle] and the pocket's angle on the turning wheel, and the
    frame that reaches two seconds replaces the blend by the follower of
    the same pocket; with easing 1 at 1 that frame writes the point the
    follower will keep the ball on. *)
Theorem blend_ends_in_the_follower dt rotation random (s : state)
  session index start local frozen :
  power2InOut 1 = 1 ->
  reachable cfg dim getAngleForNumber power2InOut s ->
  ballSyncTween s = Some (Blend session index start local frozen) ->
  ballPosition (tick cfg dim getAngleForNumber power2InOut dt rotation random s)
  = onCircle dim (ballEndRadius dim)
      (blendedAngle (getAngleForNumber index) (ballFinalAngle s)
         (power2InOut (Rmin 1 ((clock s + dt - start) / 2))) rotation) /\
  (clock s + dt < start + 2 ->
   ballSyncTween (tick cfg dim getAngleForNumber power2InOut dt rotation random s)
   = Some (Blend session index start local frozen)) /\
  (start + 2 <= clock s + dt ->
   ballSyncTween (tick cfg dim getAngleForNumber power2InOut dt rotation random s)
   = Some (Lock session index (getAngleForNumber index)) /\
   ballPosition (tick cfg dim getAngleForNumber power2InOut dt rotation random s)
   = onCircle dim (ballEndRadius dim)
       (synchronizedAngle (getAngleForNumber index) rotation)).
Proof.
  intros Hease Hreach Hsync.
  destruct (tick_blend dt rotation random s session index start local frozen
              (reachable_sound s Hreach) (reachable_tidy s Hreach) Hsync)
    as (_ & P & Y).
  split; [exact P |]. unfold Rleb in Y.
  destruct (Rle_dec (start + 2) (clock s + dt)) as [Hend | Hend].
  - split; [intros; lra |]. intros _. split; [exact Y |].
    rewrite P. f_equal.
    assert (Rmin 1 ((clock s + dt - start) / 2) = 1) as ->.
    { unfold Rmin. destruct (Rle_dec 1 ((clock s + dt - start) / 2)); lra. }
    rewrite Hease. unfold blendedAngle, synchronizedAngle. ring.
  - split; [intros _; exact Y | intros; lra].
Qed.


End Landing.

End Landing.

(** *** The engine of the stage through a spin to pocket 5 *)

Lemma cubicInOut_0 : cubicInOut 0 = 0.
Proof. unfold cubicInOut. destruct (Rlt_dec 0 (1 / 2)); [field | lra]. Qed.

Lemma cubicInOut_1 : cubicInOut 1 = 1.
Proof. unfold cubicInOut. destruct (Rlt_dec 1 (1 / 2)); [lra | field]. Qed.

Lemma reachable_tick cfg dim getAngleForNumber power2InOut dt rotation random s :
  BallPhysics.reachable cfg dim getAngleForNumber power2InOut s ->
  0 < dt -> 0 <= random < 1 ->
  BallPhysics.reachable cfg dim getAngleForNumber power2InOut
    (BallPhysics.tick cfg dim getAngleForNumber power2InOut dt rotation random s).
Proof.
  intros H Hdt Hr.
  exact (BallPhysics.reachable_step cfg dim getAngleForNumber power2InOut s
           (BallPhysics.Tick dt rotation random) H (conj Hdt Hr)).
Qed.

Lemma engineLandedOn5_eq :
  engineLandedOn5
  = BallPhysics.tick ROULETTE_CONFIG stageDimensions stageAngles cubicInOut 15 0 0
      engineSpinningTo5.
Proof.
  unfold engineLandedOn5, engineSpinningTo5.
  cbn [BallPhysics.run fold_left BallPhysics.step]. reflexivity.
Qed.

Lemma engineBlendingTo5_eq :
  engineBlendingTo5
  = BallPhysics.tick ROULETTE_CONFIG stageDimensions stageAngles cubicInOut 1 0 0
      engineLandedOn5.
Proof.
  unfold engineBlendingTo5, engineLandedOn5.
  cbn [BallPhysics.run fold_left BallPhysics.step]. reflexivity.
Qed.


Lemma engineSpinningTo5_spec :
  BallPhysics.reachable ROULETTE_CONFIG stageDimensions stageAngles cubicInOut
    engineSpinningTo5 /\
  BallPhysics.isSpinning engineSpinningTo5 = true /\
  BallPhysics.animationTimeline engineSpinningTo5
  = Some (freshTimeline ROULETTE_CONFIG stageAngles 5 0 (BallPhysics.init stageDimensions)) /\
  BallPhysics.clock engineSpinningTo5 = 0.
Proof.
  split.
  - exact (BallPhysics.reachable_step ROULETTE_CONFIG stageDimensions stageAngles cubicInOut
             (BallPhysics.init stageDimensions) (BallPhysics.StartSpin 5 0)
             (BallPhysics.reachable_init _ _ _ _) I).
  - unfold engineSpinningTo5.
    rewrite engine_startSpin_state by (try reflexivity; simpl; lia).
    repeat split.
Qed.

Lemma engineLandedOn5_spec :
  BallPhysics.reachable ROULETTE_CONFIG stageDimensions stageAngles cubicInOut
    engineLandedOn5 /\
  BallPhysics.isSpinning engineLandedOn5 = false /\
  BallPhysics.clock engineLandedOn5 = 15 /\
  In (Lifecycle.handOff 1 15 5) (BallPhysics.delayedCalls engineLandedOn5).
Proof.
  destruct engineSpinningTo5_spec as (Hreach & Hspin & Htl & Hclock).
  pose proof engineLandedOn5_eq as E.
  pose proof engineLandedOn5_not_spinning as Hidle.
  split; [| split; [exact Hidle | split]].
  - rewrite E. apply reachable_tick; [exact Hreach | lra | lra].
  - rewrite E, Landing.tick_clock, Hclock. lra.
  - rewrite E in Hidle |- *.
    destruct (Landing.tick_lands ROULETTE_CONFIG stageDimensions stageAngles cubicInOut
                15 0 0 engineSpinningTo5
                (Landing.reachable_sound _ _ _ _ _ Hreach) Hspin Hidle)
      as (tl & index & rotation & Htl' & _ & Hc & _ & _ & _ & _ & _ & Hin).
    rewrite Htl in Htl'. injection Htl' as <-.
    apply (f_equal BallPhysics.winningIndex) in Hc.
    cbn [BallPhysics.winningIndex BallPhysics.executePhase4_CalculatedLanding
         freshTimeline BallPhysics.tl_phase4] in Hc.
    subst index. rewrite Hclock in Hin.
    cbn [freshTimeline BallPhysics.tl_session BallPhysics.sessions BallPhysics.init] in Hin.
    replace (0 + 15) with 15 in Hin by lra. exact Hin.
Qed.

Lemma engineBlendingTo5_spec :
  BallPhysics.reachable ROULETTE_CONFIG stageDimensions stageAngles cubicInOut
    engineBlendingTo5 /\
  BallPhysics.clock engineBlendingTo5 = 16 /\
  BallPhysics.ballSyncTween engineBlendingTo5
  = Some (BallPhysics.Blend 1 5 16 (stageAngles 5)
            (BallPhysics.ballFinalAngle engineLandedOn5)).
Proof.
  destruct engineLandedOn5_spec as (Hreach & Hidle & Hclock & Hin).
  pose proof engineBlendingTo5_eq as E.
  split; [| split].
  - rewrite E. apply reachable_tick; [exact Hreach | lra | lra].
  - rewrite E, Landing.tick_clock, Hclock. lra.
  - rewrite E.
    destruct (Landing.tick_hands_off ROULETTE_CONFIG stageDimensions stageAngles cubicInOut
                1 0 0 engineLandedOn5 (Lifecycle.handOff 1 15 5) cubicInOut_0
                (Landing.reachable_sound _ _ _ _ _ Hreach))
      as (_ & _ & _ & Y & _).
    + apply (Landing.reachable_tidy ROULETTE_CONFIG stageDimensions stageAngles cubicInOut);
        [simpl; lra | exact Hreach].
    + exact Hidle.
    + exact Hin.
    + rewrite Hclock. cbn [Lifecycle.handOff BallPhysics.d_due]. lra.
    + rewrite Y, Hclock. cbn [Lifecycle.handOff BallPhysics.d_session BallPhysics.d_index].
      replace (15 + 1) with 16 by lra. reflexivity.
Qed.


Lemma synchronisation_only_while_idle_witness :
  BallPhysics.ballSyncTween engineSpinningTo5 = None.
Proof.
  destruct engineSpinningTo5_spec as (Hreach & Hspin & _).
  exact (proj1 (Landing.synchronisation_only_while_idle ROULETTE_CONFIG stageDimensions
                  stageAngles cubicInOut engineSpinningTo5 Hreach) Hspin).
Defined.

Lemma notifications_are_whole_landings_witness :
  exists n,
    Lifecycle.landings ROULETTE_CONFIG (BallPhysics.notified engineLandedOn5) n /\
    (n <= BallPhysics.sessions engineLandedOn5)%nat /\
    (BallPhysics.isSpinning engineLandedOn5 = true ->
     (n < BallPhysics.sessions engineLandedOn5)%nat).
Proof.
  exact (Landing.notifications_are_whole_landings ROULETTE_CONFIG stageDimensions
           stageAngles cubicInOut engineLandedOn5 (proj1 engineLandedOn5_spec)).
Defined.

Lemma interrupted_spin_never_recovers_witness :
  BallPhysics.isSpinning
    (BallPhysics.run ROULETTE_CONFIG stageDimensions stageAngles cubicInOut
       [BallPhysics.StartSpin 7 0; BallPhysics.Tick 15 0 0]
       (BallPhysics.stopAllAnimations engineSpinningTo5)) = true.
Proof.
  exact (proj1 (Landing.interrupted_spin_never_recovers ROULETTE_CONFIG stageDimensions
                  stageAngles cubicInOut engineSpinningTo5
                  [BallPhysics.StartSpin 7 0; BallPhysics.Tick 15 0 0]
                  (proj1 (proj2 engineSpinningTo5_spec)))).
Defined.

Lemma spin_ends_on_its_pocket_witness :
  exists tl index rotation,
    BallPhysics.animationTimeline engineSpinningTo5 = Some tl /\
    (0 <= index < Config.pocketCount ROULETTE_CONFIG)%Z /\
    BallPhysics.tl_phase4 tl
    = BallPhysics.executePhase4_CalculatedLanding ROULETTE_CONFIG stageAngles index rotation /\
    BallPhysics.ballPosition
      (BallPhysics.tick ROULETTE_CONFIG stageDimensions stageAngles cubicInOut 15 0 0
         engineSpinningTo5)
    = BallPhysics.onCircle stageDimensions (BallPhysics.ballEndRadius stageDimensions)
        (landingAngle ROULETTE_CONFIG stageAngles index rotation) /\
    BallPhysics.currentBallAngle
      (BallPhysics.tick ROULETTE_CONFIG stageDimensions stageAngles cubicInOut 15 0 0
         engineSpinningTo5)
    = landingAngle ROULETTE_CONFIG stageAngles index rotation /\
    BallPhysics.ballFinalAngle
      (BallPhysics.tick ROULETTE_CONFIG stageDimensions stageAngles cubicInOut 15 0 0
         engineSpinningTo5)
    = landingAngle ROULETTE_CONFIG stageAngles index rotation /\
    BallPhysics.notified
      (BallPhysics.tick ROULETTE_CONFIG stageDimensions stageAngles cubicInOut 15 0 0
         engineSpinningTo5)
    = BallPhysics.SpinComplete index :: BallPhysics.BallLanded index
      :: BallPhysics.notified engineSpinningTo5 /\
    BallPhysics.ballSyncTween
      (BallPhysics.tick ROULETTE_CONFIG stageDimensions stageAngles cubicInOut 15 0 0
         engineSpinningTo5) = None /\
    In (Lifecycle.handOff (BallPhysics.tl_session tl)
          (BallPhysics.clock engineSpinningTo5 + 15) index)
       (BallPhysics.delayedCalls
          (BallPhysics.tick ROULETTE_CONFIG stageDimensions stageAngles cubicInOut 15 0 0
             engineSpinningTo5)).
Proof.
  apply (Landing.spin_ends_on_its_pocket ROULETTE_CONFIG stageDimensions stageAngles
           cubicInOut 15 0 0 engineSpinningTo5).
  - exact (proj1 engineSpinningTo5_spec).
  - exact (proj1 (proj2 engineSpinningTo5_spec)).
  - rewrite <- engineLandedOn5_eq. exact (proj1 (proj2 engineLandedOn5_spec)).
Defined.

Lemma spin_lasts_spinDuration_witness :
  BallPhysics.isSpinning
    (BallPhysics.tick ROULETTE_CONFIG stageDimensions stageAngles cubicInOut 1 0 0
       engineSpinningTo5)
  = negb
      (BallPhysics.Rleb
         (BallPhysics.tl_start
            (freshTimeline ROULETTE_CONFIG stageAngles 5 0 (BallPhysics.init stageDimensions))
          + Config.spinDuration ROULETTE_CONFIG)
         (BallPhysics.clock engineSpinningTo5 + 1)).
Proof.
  apply (Landing.spin_lasts_spinDuration ROULETTE_CONFIG stageDimensions stageAngles
           cubicInOut 1 0 0 engineSpinningTo5).
  - simpl. lra.
  - exact (proj1 engineSpinningTo5_spec).
  - exact (proj1 (proj2 engineSpinningTo5_spec)).
  - exact (proj1 (proj2 (proj2 engineSpinningTo5_spec))).
Defined.

Lemma hand_off_starts_where_the_ball_landed_witness :
  BallPhysics.ballPosition
    (BallPhysics.tick ROULETTE_CONFIG stageDimensions stageAngles cubicInOut 1 0 0
       engineLandedOn5)
  = BallPhysics.ballPosition engineLandedOn5.
Proof.
  destruct engineLandedOn5_spec as (Hreach & Hidle & Hclock & Hin).
  apply (Landing.hand_off_starts_where_the_ball_landed ROULETTE_CONFIG stageDimensions
           stageAngles cubicInOut ltac:(simpl; lra) 1 0 0 engineLandedOn5
           (Lifecycle.handOff 1 15 5) cubicInOut_0 Hreach Hidle Hin).
  rewrite Hclock. cbn [Lifecycle.handOff BallPhysics.d_due]. lra.
Defined.

Lemma blend_ends_in_the_follower_witness :
  BallPhysics.ballPosition
    (BallPhysics.tick ROULETTE_CONFIG stageDimensions stageAngles cubicInOut 2 0 0
       engineBlendingTo5)
  = BallPhysics.onCircle stageDimensions (BallPhysics.ballEndRadius stageDimensions)
      (BallPhysics.blendedAngle (stageAngles 5)
         (BallPhysics.ballFinalAngle engineBlendingTo5)
         (cubicInOut (Rmin 1 ((BallPhysics.clock engineBlendingTo5 + 2 - 16) / 2))) 0).
Proof.
  destruct engineBlendingTo5_spec as (Hreach & Hclock & Hsync).
  exact (proj1 (Landing.blend_ends_in_the_follower ROULETTE_CONFIG stageDimensions
                  stageAngles cubicInOut ltac:(simpl; lra) 2 0 0 engineBlendingTo5
                  1%nat 5%Z 16 (stageAngles 5)
                  (BallPhysics.ballFinalAngle engineLandedOn5)
                  cubicInOut_1 Hreach Hsync)).
Defined.


(** ** The landing and the wheel *)

(** C1, the claim on binary64 at the shipped constants, pocket 0 and a
    wheel rotation of [1e17]: the first loop of the delta computation
    subtracts [2 * Math.PI] without effect, so phase 4 is never set up
    ([startSpin] does not return) and there is no final position. *)
Lemma phase4_setup_binary64_never_returns :
  ~ exists fuel landing,
      Binary64.executePhase4_CalculatedLanding fuel Binary64.spinDuration
        Binary64.ballSpins Binary64.constantWheelSpeed (Binary64.angleForPocket 0)
        Binary64.hugeRotation
      = Some landing.
Proof.
  intros (fuel & landing & E).
  unfold Binary64.executePhase4_CalculatedLanding, Loop.phase4AngleDiff in E.
  rewrite (wrapDown_absorbed float Binary64.binary64) in E.
  - discriminate E.
  - vm_compute. reflexivity.
  - vm_compute. reflexivity.
Qed.

(** C1 (as amended): in exact arithmetic, for a valid pocket and every
    wheel rotation read when the spin is set up, the snap of phase 4 puts
    the ball on the end radius at the angle of the pocket (referred to
    the top position) for the wheel rotation predicted a phase-4 length
    later, and the last update (progress 1) writes the same point.  The
    horizon of the prediction is the length of phase 4 in the timeline:
    phase 4 is rendered over the last [phase4Length] seconds, and a spin
    accepted by the engine stays silent until the first frame that
    reaches [spinDuration], which snaps the ball on that point and
    notifies "ball landed", then "spin complete".  When the wheel makes a
    whole number of turns during phases 1 to 3, as it does with the
    shipped constants (six), that point is also the one computed from the
    wheel rotation at the start of phase 4, and it is where the pocket is
    when the spin ends.  On binary64 with the shipped constants, for every
    pocket and every wheel rotation that is a multiple of a quarter from 0
    to 100, phase 4 is set up and the angle of its last update is the
    angle of the snap up to whole turns, within [1e-9]. *)
Theorem spin_lands_on_the_predicted_pocket
  cfg dim getAngleForNumber power2InOut index rotation :
  (0 <= index < Config.pocketCount cfg)%Z ->
  0 < Config.spinDuration cfg ->
  let c := BallPhysics.executePhase4_CalculatedLanding cfg getAngleForNumber index rotation in
  let target := landingAngle cfg getAngleForNumber index rotation in
  let landing := BallPhysics.onCircle dim (BallPhysics.ballEndRadius dim) target in
  BallPhysics.phase4Complete dim c
  = {| BallPhysics.u_currentBallAngle := target;
       BallPhysics.u_renderAngle := target;
       BallPhysics.u_position := landing |} /\
  (forall current,
      BallPhysics.u_position (BallPhysics.phase4Update dim c current 1) = landing) /\
  (forall random s tl,
      BallPhysics.animationTimeline s = Some tl ->
      BallPhysics.tl_complete tl = false ->
      BallPhysics.tl_done tl = 3%nat ->
      Config.spinDuration cfg - phase4Length cfg
      <= BallPhysics.clock s - BallPhysics.tl_start tl < Config.spinDuration cfg ->
      BallPhysics.tickTimeline cfg dim random s
      = BallPhysics.set_animationTimeline (Some (Notions.advanced tl 3 false))
          (BallPhysics.applyUpdate (BallPhysics.tl_session tl) BallPhysics.ByPhase4
             (BallPhysics.phase4Update dim (BallPhysics.tl_phase4 tl)
                (BallPhysics.currentBallAngle s)
                ((BallPhysics.clock s - BallPhysics.tl_start tl
                  - (Config.spinDuration cfg - phase4Length cfg))
                 / phase4Length cfg)) s)) /\
  (forall s fs f,
      BallPhysics.isSpinning s = false ->
      Forall (fun f => 0 < Lifecycle.f_dt f) fs ->
      Lifecycle.elapsed fs < Config.spinDuration cfg ->
      Config.spinDuration cfg <= Lifecycle.elapsed fs + Lifecycle.f_dt f ->
      let started := BallPhysics.startSpin cfg getAngleForNumber index rotation s in
      let before :=
        BallPhysics.run cfg dim getAngleForNumber power2InOut
          (map Lifecycle.frameEvent fs) started in
      let landed :=
        BallPhysics.run cfg dim getAngleForNumber power2InOut
          (map Lifecycle.frameEvent (fs ++ [f])) started in
      BallPhysics.isSpinning before = true /\
      BallPhysics.notified before = BallPhysics.notified s /\
      BallPhysics.isSpinning landed = false /\
      BallPhysics.ballPosition landed = landing /\
      BallPhysics.currentBallAngle landed = target /\
      BallPhysics.notified landed
      = BallPhysics.SpinComplete index :: BallPhysics.BallLanded index
        :: BallPhysics.notified s) /\
  (forall turns : nat,
      Config.constantWheelSpeed cfg * (Config.spinDuration cfg * (80 / 100)) = INR turns ->
      BallPhysics.onCircle dim (BallPhysics.ballEndRadius dim)
        (landingAngle cfg getAngleForNumber index
           (wheelRotationAfter cfg rotation (Config.spinDuration cfg * (80 / 100))))
      = landing /\
      BallPhysics.onCircle dim (BallPhysics.ballEndRadius dim)
        (pocketAtTop getAngleForNumber index
           (wheelRotationAfter cfg rotation (Config.spinDuration cfg)))
      = landing) /\
  Config.constantWheelSpeed ROULETTE_CONFIG
  * (Config.spinDuration ROULETTE_CONFIG * (80 / 100)) = INR 6 /\
  Binary64.landsOnTargetOnGrid = true.
Proof.
  intros Hidx HD c target landing.
  split; [reflexivity |]. split; [| split; [| split; [| split; [| split]]]].
  - intros current. apply phase4Update_at_end. reflexivity.
  - intros random s tl Htl Hrun Hdone Ht.
    now apply Landing.tickTimeline_in_phase4.
  - intros s fs f Hidle Hfs Hshort Hreach. cbv zeta.
    apply Landing.whole_spin; try assumption. lra.
  - intros turns Hturns.
    exact (landing_point_when_wheel_turns_whole cfg dim getAngleForNumber index rotation
             (BallPhysics.ballEndRadius dim) turns Hturns).
  - exact shipped_wheel_turns_whole.
  - vm_compute. reflexivity.
Qed.

Lemma spin_lands_on_the_predicted_pocket_witness :
  BallPhysics.phase4Complete stageDimensions
    (BallPhysics.executePhase4_CalculatedLanding ROULETTE_CONFIG stageAngles 0 0)
  = {| BallPhysics.u_currentBallAngle := landingAngle ROULETTE_CONFIG stageAngles 0 0;
       BallPhysics.u_renderAngle := landingAngle ROULETTE_CONFIG stageAngles 0 0;
       BallPhysics.u_position :=
         BallPhysics.onCircle stageDimensions (BallPhysics.ballEndRadius stageDimensions)
           (landingAngle ROULETTE_CONFIG stageAngles 0 0) |}.
Proof.
  apply (spin_lands_on_the_predicted_pocket ROULETTE_CONFIG stageDimensions stageAngles
           cubicInOut 0 0).
  - simpl. lia.
  - simpl. lra.
Defined.

(** * Further properties *)

(** ** The geometry of the four phases *)

Lemma cube_monotone (x y : R) : x <= y -> x ^ 3 <= y ^ 3.
Proof.
  intros H.
  assert (0 <= (x + y / 2) ^ 2 + 3 / 4 * y ^ 2) as Hq by nra.
  assert (y ^ 3 - x ^ 3 = (y - x) * ((x + y / 2) ^ 2 + 3 / 4 * y ^ 2)) as E by field.
  assert (0 <= (y - x) * ((x + y / 2) ^ 2 + 3 / 4 * y ^ 2))
    by (apply Rmult_le_pos; lra).
  lra.
Qed.

Lemma easeInOutCubic_low (t : R) : t < 5 / 10 -> BallPhysics.easeInOutCubic t = 4 * t ^ 3.
Proof.
  intros H. unfold BallPhysics.easeInOutCubic.
  destruct (Rlt_dec t (5 / 10)); [ring | lra].
Qed.

Lemma easeInOutCubic_high (t : R) :
  5 / 10 <= t -> BallPhysics.easeInOutCubic t = 1 - (2 - 2 * t) ^ 3 / 2.
Proof.
  intros H. unfold BallPhysics.easeInOutCubic.
  destruct (Rlt_dec t (5 / 10)); [lra | field].
Qed.

(** X1: [easeInOutCubic] never decreases, starts at 0 and ends at 1, so on
    [[0, 1]] it stays within [[0, 1]]: the radius of phase 4 moves from the
    mid radius to the end radius without overshooting or turning back. *)
Theorem easeInOutCubic_monotone :
  (forall a b, a <= b -> BallPhysics.easeInOutCubic a <= BallPhysics.easeInOutCubic b) /\
  BallPhysics.easeInOutCubic 0 = 0 /\
  BallPhysics.easeInOutCubic 1 = 1 /\
  (forall t, 0 <= t <= 1 -> 0 <= BallPhysics.easeInOutCubic t <= 1).
Proof.
  assert (forall a b, a <= b ->
            BallPhysics.easeInOutCubic a <= BallPhysics.easeInOutCubic b) as Hmono.
  { intros a b Hab.
    destruct (Rlt_dec a (5 / 10)) as [Ha | Ha], (Rlt_dec b (5 / 10)) as [Hb | Hb].
    - rewrite !easeInOutCubic_low by assumption.
      pose proof (cube_monotone a b Hab). lra.
    - rewrite easeInOutCubic_low by assumption.
      rewrite easeInOutCubic_high by lra.
      pose proof (cube_monotone a (5 / 10)) as H1.
      pose proof (cube_monotone (2 - 2 * b) 1) as H2.
      assert ((5 / 10) ^ 3 = 1 / 8) as E1 by field.
      assert (1 ^ 3 = 1) as E2 by ring.
      rewrite E1 in H1. rewrite E2 in H2. lra.
    - lra.
    - rewrite !easeInOutCubic_high by lra.
      pose proof (cube_monotone (2 - 2 * b) (2 - 2 * a)). lra. }
  assert (BallPhysics.easeInOutCubic 0 = 0) as H0
    by (rewrite easeInOutCubic_low by lra; ring).
  pose proof easeInOutCubic_1 as H1.
  split; [exact Hmono |]. split; [exact H0 |]. split; [exact H1 |].
  intros t [Hlo Hhi]. pose proof (Hmono 0 t Hlo). pose proof (Hmono t 1 Hhi). lra.
Qed.


(** X3: the tracked angle is continuous where the phases meet: phase 1 ends
    (progress 1) at the angle phase 2 starts from (progress 0), and phase 2
    ends at the angle phase 3 starts from, for every configuration. *)
Theorem phase_angles_meet cfg dim random :
  BallPhysics.u_currentBallAngle (BallPhysics.phase1Update cfg dim 1)
  = BallPhysics.u_currentBallAngle (BallPhysics.phase2Update cfg dim 0) /\
  BallPhysics.u_currentBallAngle (BallPhysics.phase2Update cfg dim 1)
  = BallPhysics.u_currentBallAngle (BallPhysics.phase3Update cfg dim random 0).
Proof.
  cbn. unfold BallPhysics.phase3Angle. split; field.
Qed.



(** X5: over a whole spin the rendered angle goes from 0 to the last angle
    of phase 4, which is between [0.9 * ballSpins] and
    [0.9 * ballSpins + 1] full turns counter-clockwise, for every pocket
    and wheel rotation. *)
Theorem total_turn_of_a_spin cfg dim getAngleForNumber index rotation current :
  BallPhysics.u_renderAngle (BallPhysics.phase1Update cfg dim 0) = 0 /\
  - (Config.ballSpins cfg * (90 / 100) + 1) * (2 * PI)
  <= BallPhysics.u_renderAngle
       (BallPhysics.phase4Update dim
          (BallPhysics.executePhase4_CalculatedLanding cfg getAngleForNumber index rotation)
          current 1)
  <= - (Config.ballSpins cfg * (90 / 100)) * (2 * PI).
Proof.
  cbn. split; [ring |].
  match goal with |- context [phase4AngleDiff ?i ?t] =>
    pose proof (phase4AngleDiff_spec i t) as [[Hlo Hhi] _];
    set (d := phase4AngleDiff i t) in *
  end.
  lra.
Qed.

(** X6: phase 4 starts at the mid radius on the angle phases 1 to 3 ended
    on, without bounce; and while the end radius is not above the mid
    radius, every update of phase 4 (progress in [[0, 1]]) writes a point
    whose radius is within [3 (1 - p)^3] of the band between the two radii
    and whose bounce is at most [12 (1 - p)^2]: the wobble dies out as the
    ball settles. *)
Theorem phase4_envelope dim (c : BallPhysics.Phase4) (current p : R) :
  0 <= p <= 1 ->
  BallPhysics.ballEndRadius dim <= BallPhysics.ballMidRadius dim ->
  BallPhysics.u_position (BallPhysics.phase4Update dim c current 0)
  = BallPhysics.place dim (BallPhysics.ballMidRadius dim) (BallPhysics.initialBallAngle c) 0 /\
  exists radius bounceHeight,
    BallPhysics.u_position (BallPhysics.phase4Update dim c current p)
    = BallPhysics.place dim radius
        (BallPhysics.initialBallAngle c + BallPhysics.angleDiff c * p) bounceHeight /\
    BallPhysics.ballEndRadius dim - 3 * (1 - p) ^ 3 <= radius
    <= BallPhysics.ballMidRadius dim + 3 * (1 - p) ^ 3 /\
    Rabs bounceHeight <= 12 * (1 - p) ^ 2.
Proof.
  intros Hp Hradii. split.
  - unfold BallPhysics.phase4Update, BallPhysics.place. cbn [BallPhysics.u_position].
    destruct easeInOutCubic_monotone as (_ & E0 & _). rewrite E0.
    replace (0 * PI * 8) with 0 by ring. replace (0 * PI * 5) with 0 by ring.
    replace (BallPhysics.initialBallAngle c + BallPhysics.angleDiff c * 0)
      with (BallPhysics.initialBallAngle c) by ring.
    rewrite sin_0. f_equal; ring.
  - eexists _, _. split; [reflexivity |].
    destruct easeInOutCubic_monotone as (_ & _ & _ & Hrange).
    specialize (Hrange p Hp).
    set (e := BallPhysics.easeInOutCubic p) in *.
    set (mid := BallPhysics.ballMidRadius dim) in *.
    set (endR := BallPhysics.ballEndRadius dim) in *.
    assert (0 <= (1 - p) ^ 3) as H3 by (apply pow_le; lra).
    assert (0 <= (1 - p) ^ 2) as H2 by (apply pow_le; lra).
    pose proof (SIN_bound (p * PI * 8)) as [S1 S2].
    pose proof (SIN_bound (p * PI * 5)) as [B1 B2].
    set (s8 := sin (p * PI * 8)) in *. set (s5 := sin (p * PI * 5)) in *.
    set (k3 := (1 - p) ^ 3) in *. set (k2 := (1 - p) ^ 2) in *.
    assert (0 <= (mid - endR) * e <= mid - endR) as Hbase by nra.
    split.
    + split; nra.
    + apply Rabs_le. split; nra.
Qed.

Lemma phase4_envelope_witness :
  BallPhysics.u_position
    (BallPhysics.phase4Update stageDimensions
       (BallPhysics.executePhase4_CalculatedLanding ROULETTE_CONFIG stageAngles 0 0) 0 0)
  = BallPhysics.place stageDimensions (BallPhysics.ballMidRadius stageDimensions)
      (BallPhysics.initialBallAngle
         (BallPhysics.executePhase4_CalculatedLanding ROULETTE_CONFIG stageAngles 0 0)) 0.
Proof.
  apply (phase4_envelope stageDimensions
           (BallPhysics.executePhase4_CalculatedLanding ROULETTE_CONFIG stageAngles 0 0)
           0 (1 / 2)).
  - lra.
  - simpl. lra.
Defined.

(** X7: the random source reaches the ball only through the radius of
    phase 3, and by less than 12: for the same progress in [[0, 1]] and any
    two values of [Math.random()] in [[0, 1)], the two points lie on the
    same angle with the same bounce and their radii differ by less than 12. *)
Theorem phase3_jitter_bounded cfg dim (random1 random2 p : R) :
  0 <= p <= 1 ->
  0 <= random1 < 1 ->
  0 <= random2 < 1 ->
  exists radius1 radius2 bounceHeight,
    BallPhysics.u_position (BallPhysics.phase3Update cfg dim random1 p)
    = BallPhysics.place dim radius1 (BallPhysics.phase3Angle cfg p) bounceHeight /\
    BallPhysics.u_position (BallPhysics.phase3Update cfg dim random2 p)
    = BallPhysics.place dim radius2 (BallPhysics.phase3Angle cfg p) bounceHeight /\
    BallPhysics.u_currentBallAngle (BallPhysics.phase3Update cfg dim random1 p)
    = BallPhysics.u_currentBallAngle (BallPhysics.phase3Update cfg dim random2 p) /\
    Rabs (radius1 - radius2) < 12.
Proof.
  intros Hp H1 H2. eexists _, _, _.
  split; [reflexivity |]. split; [reflexivity |]. split; [reflexivity |].
  pose proof (SIN_bound (p * 25)) as [S1 S2].
  set (s := sin (p * 25)) in *.
  set (base := BallPhysics.ballStartRadius dim
               - (BallPhysics.ballStartRadius dim - BallPhysics.ballMidRadius dim) * p).
  set (a := s * (12 * (1 - p * (5 / 10)))).
  assert (- 12 <= a <= 12) as Ha by (unfold a; split; nra).
  replace (base + a * random1 - (base + a * random2)) with (a * (random1 - random2)) by ring.
  rewrite Rabs_mult.
  assert (Rabs a <= 12) as Ha' by (apply Rabs_le; lra).
  assert (Rabs (random1 - random2) < 1) as Hd by (apply Rabs_def1; lra).
  pose proof (Rabs_pos a). pose proof (Rabs_pos (random1 - random2)).
  apply Rle_lt_trans with (12 * Rabs (random1 - random2)).
  - apply Rmult_le_compat_r; assumption.
  - lra.
Qed.

Lemma phase3_jitter_bounded_witness :
  BallPhysics.u_currentBallAngle
    (BallPhysics.phase3Update ROULETTE_CONFIG stageDimensions (1 / 4) (1 / 2))
  = BallPhysics.u_currentBallAngle
      (BallPhysics.phase3Update ROULETTE_CONFIG stageDimensions (3 / 4) (1 / 2)).
Proof.
  destruct (phase3_jitter_bounded ROULETTE_CONFIG stageDimensions (1 / 4) (3 / 4) (1 / 2))
    as (radius1 & radius2 & bounceHeight & _ & _ & E & _); [lra | lra | lra |].
  exact E.
Defined.

(** X8: the clamp of phase 4 moves the tracked [currentBallAngle] towards
    the interpolated angle by at most 0.04 per update, never past it, and
    onto it as soon as it is within 0.04. *)
Theorem phase4_tracked_angle_follows dim (c : BallPhysics.Phase4) (current p : R) :
  let u := BallPhysics.phase4Update dim c current p in
  let interpolated := BallPhysics.initialBallAngle c + BallPhysics.angleDiff c * p in
  Rabs (BallPhysics.u_currentBallAngle u - current) <= 4 / 100 /\
  Rabs (interpolated - BallPhysics.u_currentBallAngle u) <= Rabs (interpolated - current) /\
  (Rabs (interpolated - current) <= 4 / 100 ->
   BallPhysics.u_currentBallAngle u = interpolated) /\
  (4 / 100 <= Rabs (interpolated - current) ->
   Rabs (interpolated - BallPhysics.u_currentBallAngle u)
   = Rabs (interpolated - current) - 4 / 100).
Proof.
  cbv zeta. cbn [BallPhysics.phase4Update BallPhysics.u_currentBallAngle].
  generalize (BallPhysics.initialBallAngle c + BallPhysics.angleDiff c * p).
  intros i. unfold Rmax, Rmin.
  destruct (Rle_dec (4 / 100) (i - current)) as [H1 | H1];
    [destruct (Rle_dec (- (4 / 100)) (4 / 100)) as [H2 | H2]
    | destruct (Rle_dec (- (4 / 100)) (i - current)) as [H2 | H2]];
    repeat split; intros;
    unfold Rabs in *;
    repeat match goal with
           | |- context [Rcase_abs ?x] => destruct (Rcase_abs x)
           | H : context [Rcase_abs ?x] |- _ => destruct (Rcase_abs x)
           end; lra.
Qed.

(** X9: the hand-off does not end where it starts, even when the wheel is
    exactly where phase 4 predicted it: the angle the ball is locked to
    (pocket angle plus wheel rotation) is a quarter turn behind the landing
    angle the blend starts from, plus whatever the wheel has turned since. *)
Theorem lock_angle_is_a_quarter_turn_behind_landing
  cfg getAngleForNumber index rotation wheelRotation :
  BallPhysics.synchronizedAngle (getAngleForNumber index) wheelRotation
  = BallPhysics.targetBallAngle
      (BallPhysics.executePhase4_CalculatedLanding cfg getAngleForNumber index rotation)
    - PI / 2
    + (wheelRotation
       - (rotation
          + Config.constantWheelSpeed cfg * (Config.spinDuration cfg * (20 / 100)) * 2 * PI)) /\
  BallPhysics.blendedAngle (getAngleForNumber index)
    (BallPhysics.targetBallAngle
       (BallPhysics.executePhase4_CalculatedLanding cfg getAngleForNumber index rotation))
    1 wheelRotation
  = BallPhysics.synchronizedAngle (getAngleForNumber index) wheelRotation.
Proof.
  cbn. unfold BallPhysics.synchronizedAngle, BallPhysics.blendedAngle,
    BallPhysics.phase4Duration.
  split; field.
Qed.

(** ** The graphic button *)

Module Button.

Import UIGraphicButton Pressing.

Lemma redraw_fields (b : button) :
  state (redraw b) = state b /\ style (redraw b) = style b /\
  anim (redraw b) = anim b /\ currentTween (redraw b) = currentTween b /\
  baseScale (redraw b) = baseScale b /\ callbacksOnly (redraw b) = callbacksOnly b /\
  alpha (redraw b) = alpha b /\ scale (redraw b) = scale b /\
  eventMode (redraw b) = eventMode b /\ cursor (redraw b) = cursor b /\
  signals (redraw b) = signals b /\ options (redraw b) = options b.
Proof. repeat split. Qed.

Lemma redraw_bg (b b' : button) :
  state b' = state b -> style b' = style b -> bg (redraw b') = bg (redraw b).
Proof.
  intros Hs Hy. unfold redraw, getFillColorForState. cbn [bg set_bg].
  rewrite Hs, Hy. reflexivity.
Qed.

Lemma redraw_ends_in_fill (b : button) :
  exists before, bg (redraw b) = before ++ [Fill (getFillColorForState b)].
Proof. unfold redraw. cbn [bg set_bg]. eexists. reflexivity. Qed.

Lemma updateVisualsForState_fields (immediate : bool) (b : button) :
  state (updateVisualsForState immediate b) = state b /\
  style (updateVisualsForState immediate b) = style b /\
  anim (updateVisualsForState immediate b) = anim b /\
  baseScale (updateVisualsForState immediate b) = baseScale b /\
  callbacksOnly (updateVisualsForState immediate b) = callbacksOnly b /\
  eventMode (updateVisualsForState immediate b) = eventMode b /\
  cursor (updateVisualsForState immediate b) = cursor b /\
  signals (updateVisualsForState immediate b) = signals b /\
  options (updateVisualsForState immediate b) = options b.
Proof. destruct immediate; repeat split. Qed.

Lemma updateVisualsForState_shown (immediate : bool) (b : button) :
  eventMode b = (if isDisabled (state b) then eventNone else eventStatic) ->
  cursor b = (if isDisabled (state b) then cursorAuto else cursorPointer) ->
  shown (updateVisualsForState immediate b).
Proof.
  intros Hmode Hcursor.
  destruct (updateVisualsForState_fields immediate b)
    as (Hs & Hy & Ha & Hb & _ & Hm & Hc & _ & _).
  constructor.
  - rewrite (redraw_bg b (updateVisualsForState immediate b) Hs Hy).
    destruct immediate; reflexivity.
  - rewrite Hs, Ha. destruct immediate; reflexivity.
  - unfold scaleFor. rewrite Hs, Ha, Hb. destruct immediate; reflexivity.
  - rewrite Hm, Hs. exact Hmode.
  - rewrite Hc, Hs. exact Hcursor.
Qed.

Lemma signal_shown (v : Signal) (b : button) : shown b -> shown (signal v b).
Proof. intros [H1 H2 H3 H4 H5]. constructor; assumption. Qed.

Lemma invoke_shown (c : Callback) (b : button) : shown b -> shown (invoke c b).
Proof. intros H. unfold invoke. destruct (o_given _ _); [apply signal_shown |]; exact H. Qed.

Lemma emit_shown (n : Emit.name) (b : button) : shown b -> shown (emit n b).
Proof. intros H. unfold emit. destruct (callbacksOnly b); [| apply signal_shown]; exact H. Qed.

Lemma setState_shown (next : ButtonState) (b : button) :
  isDisabled next = false -> isDisabled (state b) = false ->
  shown b -> shown (setState next b).
Proof.
  intros Hnext Hb H. unfold setState. destruct (sameState (state b) next); [exact H |].
  apply updateVisualsForState_shown; cbn [state eventMode cursor set_state]; rewrite Hnext.
  - rewrite (shown_eventMode b H), Hb. reflexivity.
  - rewrite (shown_cursor b H), Hb. reflexivity.
Qed.

Lemma listener_shown (e : PointerEvent) (b : button) : shown b -> shown (listener e b).
Proof.
  intros H.
  destruct e; cbn [listener];
    unfold pointerover, pointerout, pointerdown, pointerup, pointerupoutside, pointertap;
    destruct (isDisabled (state b)) eqn:Hd; try exact H;
    apply emit_shown, invoke_shown; try exact H;
    apply setState_shown; auto.
Qed.

Lemma setEnabled_shown (enabled : bool) (b : button) : shown (setEnabled enabled b).
Proof.
  unfold setEnabled. apply updateVisualsForState_shown; destruct enabled; reflexivity.
Qed.

Lemma setStyle_shown (given : Partial.GraphicButtonStyle) (b : button) :
  shown b -> shown (setStyle given b).
Proof.
  intros [H1 H2 H3 H4 H5]. unfold setStyle.
  constructor; try assumption.
  apply eq_sym, redraw_bg; reflexivity.
Qed.

Lemma new_shown (o : GraphicButtonOptions) : shown (new o).
Proof. unfold new. apply updateVisualsForState_shown; reflexivity. Qed.

Lemma perform_shown (b : button) (op : operation) : shown b -> shown (perform b op).
Proof.
  intros H. destruct op; cbn [perform].
  - apply listener_shown, H.
  - apply setEnabled_shown.
  - apply setStyle_shown, H.
Qed.

Lemma run_shown (ops : list operation) (b : button) : shown b -> shown (run ops b).
Proof.
  revert b. induction ops as [| op ops IH]; intros b H; [exact H |].
  apply IH, perform_shown, H.
Qed.

(** X18: whatever is done to a button (pointer events, enabling and
    disabling, restyling), it shows the state it is in: the background
    was last filled with the colour of the current state and style, the
    opacity is the disabled opacity exactly when it is disabled, the scale
    it is at or is tweened to is that of the state, and the stage delivers
    pointer events to it exactly when it is not disabled. *)
Theorem button_shows_its_state (o : GraphicButtonOptions) (ops : list operation) :
  let b := run ops (new o) in
  shown b /\
  (exists before, bg b = before ++ [Fill (getFillColorForState b)]) /\
  (eventMode b = eventNone <-> state b = disabled).
Proof.
  cbn zeta. pose proof (run_shown ops (new o) (new_shown o)) as H.
  split; [exact H | split].
  - rewrite (shown_bg _ H). apply redraw_ends_in_fill.
  - rewrite (shown_eventMode _ H).
    destruct (state (run ops (new o))); cbn; split; congruence.
Qed.

Lemma listener_disabled (e : PointerEvent) (b : button) :
  state b = disabled -> listener e b = b.
Proof.
  intros H.
  destruct e; cbn [listener];
    unfold pointerover, pointerout, pointerdown, pointerup, pointerupoutside, pointertap;
    rewrite H; reflexivity.
Qed.

Lemma pointers_disabled (events : list PointerEvent) (b : button) :
  state b = disabled -> run (map Pointer events) b = b.
Proof.
  intros H. induction events as [| e events IH]; [reflexivity |].
  cbn [map run fold_left perform]. rewrite (listener_disabled e b H). exact IH.
Qed.

(** X19: once disabled, a button is inert: no sequence of pointer events
    changes its state, its picture or its scale, and none of them reaches
    a callback or the emitter, until it is enabled again. *)
Theorem disabled_button_is_inert (b : button) (events : list PointerEvent) :
  run (map Pointer events) (setEnabled false b) = setEnabled false b /\
  state (setEnabled false b) = disabled.
Proof.
  assert (state (setEnabled false b) = disabled) as H by reflexivity.
  split; [apply pointers_disabled, H | exact H].
Qed.

Lemma setState_quiet (next : ButtonState) (b : button) :
  signals (setState next b) = signals b /\
  callbacksOnly (setState next b) = callbacksOnly b /\
  options (setState next b) = options b /\
  state (setState next b) = next.
Proof.
  unfold setState. destruct (sameState (state b) next) eqn:E.
  - repeat split. destruct (state b), next; (discriminate || reflexivity).
  - repeat split.
Qed.

Lemma emit_invoke (c : Callback) (n : Emit.name) (b0 b : button) :
  signals b = signals b0 -> callbacksOnly b = callbacksOnly b0 ->
  options b = options b0 ->
  signals (emit n (invoke c b)) = signals b0 ++ signalsOf b0 c n /\
  callbacksOnly (emit n (invoke c b)) = callbacksOnly b0 /\
  options (emit n (invoke c b)) = options b0 /\
  state (emit n (invoke c b)) = state b.
Proof.
  intros Hs Hc Ho. unfold emit, invoke, signalsOf. rewrite Ho.
  destruct (o_given (options b0) c); cbn [callbacksOnly signal]; rewrite Hc;
    destruct (callbacksOnly b0); cbn [signals signal options callbacksOnly state];
    rewrite ?Hs, ?app_nil_r, <- ?app_assoc; auto.
Qed.

Lemma listener_signals (e : PointerEvent) (b : button) :
  signals (listener e b)
  = signals b ++ (if isDisabled (state b) then [] else signalsOf b (callbackOf e) (nameOf e)) /\
  callbacksOnly (listener e b) = callbacksOnly b /\
  options (listener e b) = options b /\
  isDisabled (state (listener e b)) = isDisabled (state b).
Proof.
  destruct e; cbn [listener callbackOf nameOf];
    unfold pointerover, pointerout, pointerdown, pointerup, pointerupoutside, pointertap;
    destruct (isDisabled (state b)) eqn:Hd;
    try (rewrite app_nil_r; auto);
    match goal with
    | |- context [emit ?n (invoke ?c (setState ?next b))] =>
        destruct (setState_quiet next b) as (Hs & Hc & Ho & Hn);
        destruct (emit_invoke c n b (setState next b) Hs Hc Ho) as (-> & -> & -> & ->);
        rewrite Hn; auto
    | |- context [emit ?n (invoke ?c b)] =>
        destruct (emit_invoke c n b b eq_refl eq_refl eq_refl) as (-> & -> & -> & ->);
        auto
    end.
Qed.

Lemma perform_signals (b : button) (op : operation) :
  signals (perform b op)
  = signals b
    ++ match op with
       | Pointer e =>
           if isDisabled (state b) then [] else signalsOf b (callbackOf e) (nameOf e)
       | _ => []
       end /\
  callbacksOnly (perform b op) = callbacksOnly b /\
  options (perform b op) = options b /\
  isDisabled (state (perform b op))
  = match op with
    | Pointer _ => isDisabled (state b)
    | SetEnabled enabled => negb enabled
    | SetStyle _ => isDisabled (state b)
    end.
Proof.
  destruct op as [e | enabled | given]; cbn [perform].
  - apply listener_signals.
  - rewrite app_nil_r. destruct enabled; repeat split.
  - rewrite app_nil_r. repeat split.
Qed.

Lemma run_callbacksOnly (ops : list operation) (b : button) :
  callbacksOnly (run ops b) = callbacksOnly b.
Proof.
  revert b. induction ops as [| op ops IH]; intros b; [reflexivity |].
  cbn [run fold_left]. fold (run ops (perform b op)). rewrite IH.
  apply perform_signals.
Qed.

Lemma run_quiet (ops : list operation) (b : button) :
  callbacksOnly b = true ->
  forallb (fun s => negb (isCall s)) (signals b) = true ->
  forallb (fun s => negb (isCall s)) (signals (run ops b)) = true.
Proof.
  revert b. induction ops as [| op ops IH]; intros b Hc H; [exact H |].
  cbn [run fold_left]. fold (run ops (perform b op)).
  destruct (perform_signals b op) as (Hs & Hc' & _ & _).
  apply IH; [congruence |].
  rewrite Hs, forallb_app, H. cbn [andb].
  destruct op; [| reflexivity | reflexivity].
  destruct (isDisabled (state b)); [reflexivity |].
  unfold signalsOf. rewrite Hc, app_nil_r. destruct (o_given _ _); reflexivity.
Qed.

(** X20: a button built with [callbacksOnly] never calls the global
    emitter, whatever is done to it afterwards; the flag is fixed at
    construction. *)
Theorem callbacksOnly_never_emits (o : GraphicButtonOptions) (ops : list operation) :
  o_callbacksOnly o = Some true ->
  callbacksOnly (run ops (new o)) = true /\
  forallb (fun s => negb (isCall s)) (signals (run ops (new o))) = true.
Proof.
  intros H.
  assert (callbacksOnly (new o) = true) as Hc
    by (unfold new; cbn [callbacksOnly updateVisualsForState]; rewrite H; reflexivity).
  split.
  - rewrite run_callbacksOnly. exact Hc.
  - apply run_quiet; [exact Hc | reflexivity].
Qed.

Lemma run_clicks (ops : list operation) (b : button) :
  callbacksOnly b = false ->
  length (filter isClickCall (signals (run ops b)))
  = (length (filter isClickCall (signals b))
     + countedTaps (negb (isDisabled (state b))) ops)%nat.
Proof.
  revert b. induction ops as [| op ops IH]; intros b Hc.
  - cbn. lia.
  - cbn [run fold_left]. fold (run ops (perform b op)).
    destruct (perform_signals b op) as (Hs & Hc' & _ & Hd).
    rewrite IH by congruence. rewrite Hs, filter_app, length_app, Hd.
    destruct op as [e | enabled | given].
    + destruct (isDisabled (state b)); cbn [negb].
      * destruct e; cbn; lia.
      * unfold signalsOf. rewrite Hc.
        destruct e; cbn [callbackOf nameOf countedTaps];
          destruct (o_given _ _); cbn; lia.
    + rewrite negb_involutive. cbn. lia.
    + cbn. lia.
Qed.

(** X21: a button that reports to the emitter sends one [click] for every
    tap it gets while enabled, and none for a tap it gets while disabled:
    the number of [click] calls is the number of taps made when the last
    [setEnabled], if any, was [setEnabled(true)]. *)
Theorem one_click_for_every_tap_while_enabled
  (o : GraphicButtonOptions) (ops : list operation) :
  o_callbacksOnly o <> Some true ->
  length (filter isClickCall (signals (run ops (new o)))) = countedTaps true ops.
Proof.
  intros H.
  assert (callbacksOnly (new o) = false) as Hc.
  { unfold new; cbn [callbacksOnly updateVisualsForState].
    destruct (o_callbacksOnly o) as [[|] |]; [congruence | reflexivity | reflexivity]. }
  rewrite (run_clicks ops (new o) Hc). reflexivity.
Qed.

End Button.

Lemma callbacksOnly_never_emits_witness :
  UIGraphicButton.callbacksOnly
    (UIGraphicButton.run Pressing.pressThenToggle
       (UIGraphicButton.new Pressing.quietOptions)) = true /\
  forallb (fun s => negb (Pressing.isCall s))
    (UIGraphicButton.signals
       (UIGraphicButton.run Pressing.pressThenToggle
          (UIGraphicButton.new Pressing.quietOptions))) = true.
Proof.
  apply (Button.callbacksOnly_never_emits Pressing.quietOptions Pressing.pressThenToggle).
  reflexivity.
Defined.

Lemma one_click_for_every_tap_while_enabled_witness :
  length (filter Pressing.isClickCall
            (UIGraphicButton.signals
               (UIGraphicButton.run Pressing.pressThenToggle
                  (UIGraphicButton.new Pressing.loudOptions))))
  = 2%nat.
Proof.
  apply (Button.one_click_for_every_tap_while_enabled
           Pressing.loudOptions Pressing.pressThenToggle).
  intros H. discriminate H.
Defined.
